(** * VulkanSharedMemory: the guest physical memory as one Vulkan buffer

    A shallow embedding of [src/xenia/gpu/vulkan/vulkan_shared_memory.cc]:
    the barrier table ([GetBarrier]), the usage tracker ([Use]), the upload
    scheduler ([UploadRanges]) and the buffer life cycle ([Initialize],
    [Shutdown]).

    Unsigned integers are [Z] with the wrap-around written out, bit masks
    are [Z] combined with [Z.lor]/[Z.land], handles are [Z] with
    [VK_NULL_HANDLE = 0].  The object's members and the log of every call it
    makes on its collaborators (deferred command buffer, trace writer,
    staging pool, Vulkan device functions, [SharedMemory] base class) are
    threaded through a state-and-error monad. *)

From Stdlib Require Import ZArith List Bool Lia.
Import ListNotations.
Local Open Scope Z_scope.

(** ** Machine integers *)

Definition wrap32 (z : Z) : Z := z mod 2 ^ 32.
Definition wrap64 (z : Z) : Z := z mod 2 ^ 64.

(** [uint32_t x << n]: the shift is done in 32 bits. *)
Definition shl32 (x n : Z) : Z := wrap32 (Z.shiftl x n).

(** ** The Vulkan constants the file uses (values of [vulkan_core.h]) *)

Definition VkBuffer := Z.
Definition VkDeviceMemory := Z.
Definition VkResult := Z.
Definition VK_NULL_HANDLE : Z := 0.
Definition VK_SUCCESS : VkResult := 0.
Definition VK_WHOLE_SIZE : Z := 2 ^ 64 - 1.
Definition VK_QUEUE_FAMILY_IGNORED : Z := 2 ^ 32 - 1.

Definition VK_PIPELINE_STAGE_VERTEX_INPUT_BIT : Z := 0x4.
Definition VK_PIPELINE_STAGE_VERTEX_SHADER_BIT : Z := 0x8.
Definition VK_PIPELINE_STAGE_TESSELLATION_EVALUATION_SHADER_BIT : Z := 0x20.
Definition VK_PIPELINE_STAGE_FRAGMENT_SHADER_BIT : Z := 0x80.
Definition VK_PIPELINE_STAGE_COMPUTE_SHADER_BIT : Z := 0x800.
Definition VK_PIPELINE_STAGE_TRANSFER_BIT : Z := 0x1000.

Definition VK_ACCESS_INDEX_READ_BIT : Z := 0x2.
Definition VK_ACCESS_SHADER_READ_BIT : Z := 0x20.
Definition VK_ACCESS_SHADER_WRITE_BIT : Z := 0x40.
Definition VK_ACCESS_TRANSFER_READ_BIT : Z := 0x800.
Definition VK_ACCESS_TRANSFER_WRITE_BIT : Z := 0x1000.

Definition VK_BUFFER_CREATE_SPARSE_BINDING_BIT : Z := 0x1.
Definition VK_BUFFER_CREATE_SPARSE_RESIDENCY_BIT : Z := 0x2.

Definition VK_BUFFER_USAGE_TRANSFER_SRC_BIT : Z := 0x1.
Definition VK_BUFFER_USAGE_TRANSFER_DST_BIT : Z := 0x2.
Definition VK_BUFFER_USAGE_STORAGE_BUFFER_BIT : Z := 0x20.
Definition VK_BUFFER_USAGE_INDEX_BUFFER_BIT : Z := 0x40.

(** ** Vulkan structures (without [sType] and [pNext]) *)

Module VkBufferCopy.
Record t := mk { srcOffset : Z; dstOffset : Z; size : Z }.
End VkBufferCopy.

Module VkBufferMemoryBarrier.
Record t := mk {
  srcAccessMask : Z;
  dstAccessMask : Z;
  srcQueueFamilyIndex : Z;
  dstQueueFamilyIndex : Z;
  buffer : VkBuffer;
  offset : Z;
  size : Z
}.
End VkBufferMemoryBarrier.

Module VkBufferCreateInfo.
Record t := mk { flags : Z; size : Z; usage : Z }.
End VkBufferCreateInfo.

Module VkMemoryRequirements.
Record t := mk { size : Z; alignment : Z; memoryTypeBits : Z }.
End VkMemoryRequirements.

(** ** Usage *)

(** [enum class Usage] of the header: the closed set of four usages. *)
Inductive Usage := kRead | kGuestDrawReadWrite | kComputeWrite | kTransferDestination.

Definition Usage_eqb (a b : Usage) : bool :=
  match a, b with
  | kRead, kRead | kGuestDrawReadWrite, kGuestDrawReadWrite
  | kComputeWrite, kComputeWrite | kTransferDestination, kTransferDestination => true
  | _, _ => false
  end.

(** ** Collaborators *)

(** What a successful [RequestPartial] hands out: the staging buffer, the
    offset and the size granted.  The returned mapping pointer is non-null
    exactly when there is such a grant; the buffer of a grant is a live
    handle, hence never [VK_NULL_HANDLE]. *)
Record StagingAllocation := {
  upload_buffer : positive;
  upload_buffer_offset : Z;
  upload_buffer_size : Z
}.

(** [ui::vulkan::VulkanUploadBufferPool], at its interface. *)
Class UploadBufferPool (Pool : Type) := {
  (** the constructor, from the page size *)
  pool_new : Z -> Pool;
  (** [RequestPartial(submission, size, alignment, ...)] *)
  RequestPartial : Pool -> Z -> Z -> Z -> option StagingAllocation * Pool;
  Reclaim : Pool -> Z -> Pool;
  FlushWrites : Pool -> Pool
}.

(** [VulkanProvider]: the device capabilities read by this file. *)
Record VulkanProvider := {
  tessellationShader : bool;
  memory_types_device_local : Z
}.

(** Every call made on a collaborator, in program order. *)
Inductive Call :=
(* DeferredCommandBuffer *)
| CmdVkPipelineBarrier (stage_mask_src stage_mask_dst : Z)
    (buffer_memory_barrier : VkBufferMemoryBarrier.t)
| CmdVkCopyBuffer (src dst : VkBuffer) (regions : list VkBufferCopy.t)
(* TraceWriter *)
| WriteMemoryRead (address length : Z)
(* SharedMemory base class *)
| InitializeCommon
| ShutdownCommon
| MakeRangeValid (start length : Z) (written_by_gpu : bool)
(* staging pool and the host copy into its mapping *)
| PoolRequestPartial (submission size alignment : Z) (granted : option StagingAllocation)
| Memcpy (dst : StagingAllocation) (src_address length : Z)
(* Vulkan device functions *)
| vkCreateBuffer (info : VkBufferCreateInfo.t) (result : VkResult) (out : VkBuffer)
| vkDestroyBuffer (b : VkBuffer)
| vkGetBufferMemoryRequirements (b : VkBuffer)
| vkAllocateMemory (allocationSize memoryTypeIndex : Z) (result : VkResult)
    (out : VkDeviceMemory)
| vkFreeMemory (m : VkDeviceMemory)
| vkBindBufferMemory (b : VkBuffer) (m : VkDeviceMemory) (memoryOffset : Z)
    (result : VkResult).

(** The Vulkan device, as far as this file observes it: the results of the
    fallible entry points, in call order ([VK_SUCCESS] once the list is
    used up), a supply of fresh handles, and the memory requirements it
    reports for the buffer. *)
Record Device := {
  vk_results : list VkResult;
  vk_next_handle : positive;
  vk_requirements : VkMemoryRequirements.t
}.

(** ** Outcomes *)

Inductive Outcome (A : Type) :=
| Ok (a : A)
| AssertionFailed
| NullDereference
| OutOfFuel.
Arguments Ok {A} a.
Arguments AssertionFailed {A}.
Arguments NullDereference {A}.
Arguments OutOfFuel {A}.

(** The index of the lowest set bit. *)
Fixpoint trailing_zeros (p : positive) : Z :=
  match p with
  | xO p' => 1 + trailing_zeros p'
  | _ => 0
  end.

(** Modelled from the spec: [xe::bit_scan_forward] of [xenia/base/math.h]
    is defined in another file; it yields the "first matching bit" of its
    argument, and fails on zero. *)
Definition bit_scan_forward (v : Z) : option Z :=
  match v with
  | Zpos p => Some (trailing_zeros p)
  | _ => None
  end.

(** Modelled from the spec: [xe::align] of [xenia/base/math.h] rounds
    [value] up to a multiple of [alignment]. *)
Definition align (value alignment : Z) : Z :=
  (value + alignment - 1) / alignment * alignment.

(** Constants of the headers and of the build: the buffer size and the
    page size exponent of [SharedMemory], the default page size of the
    staging pool, the device capabilities, and whether [assert_true] is
    compiled in (it is [assert] of [<cassert>]). *)
Record Config := {
  kBufferSize : Z;
  page_size_log2 : Z;
  kDefaultPageSize : Z;
  provider : VulkanProvider;
  asserts_enabled : bool
}.

Section Model.

Variable cfg : Config.
Context {Pool : Type} {pool_ops : UploadBufferPool Pool}.

(** ** The object and its surroundings *)

Record State := {
  buffer_ : VkBuffer;
  buffer_memory_type_ : Z;
  buffer_memory_ : list VkDeviceMemory;
  buffer_memory_allocated_ : list Z;
  last_usage_ : Usage;
  last_written_range_ : Z * Z;
  upload_buffer_pool_ : option Pool;
  upload_regions_ : list VkBufferCopy.t;
  (* the surroundings *)
  calls : list Call;
  device : Device;
  submission_current : Z;
  submission_completed : Z
}.

Definition set_buffer_ (v : VkBuffer) (s : State) : State :=
  {| buffer_ := v; buffer_memory_type_ := buffer_memory_type_ s;
     buffer_memory_ := buffer_memory_ s;
     buffer_memory_allocated_ := buffer_memory_allocated_ s;
     last_usage_ := last_usage_ s; last_written_range_ := last_written_range_ s;
     upload_buffer_pool_ := upload_buffer_pool_ s;
     upload_regions_ := upload_regions_ s; calls := calls s; device := device s;
     submission_current := submission_current s;
     submission_completed := submission_completed s |}.

Definition set_buffer_memory_type_ (v : Z) (s : State) : State :=
  {| buffer_ := buffer_ s; buffer_memory_type_ := v;
     buffer_memory_ := buffer_memory_ s;
     buffer_memory_allocated_ := buffer_memory_allocated_ s;
     last_usage_ := last_usage_ s; last_written_range_ := last_written_range_ s;
     upload_buffer_pool_ := upload_buffer_pool_ s;
     upload_regions_ := upload_regions_ s; calls := calls s; device := device s;
     submission_current := submission_current s;
     submission_completed := submission_completed s |}.

Definition set_buffer_memory_ (v : list VkDeviceMemory) (s : State) : State :=
  {| buffer_ := buffer_ s; buffer_memory_type_ := buffer_memory_type_ s;
     buffer_memory_ := v;
     buffer_memory_allocated_ := buffer_memory_allocated_ s;
     last_usage_ := last_usage_ s; last_written_range_ := last_written_range_ s;
     upload_buffer_pool_ := upload_buffer_pool_ s;
     upload_regions_ := upload_regions_ s; calls := calls s; device := device s;
     submission_current := submission_current s;
     submission_completed := submission_completed s |}.

Definition set_buffer_memory_allocated_ (v : list Z) (s : State) : State :=
  {| buffer_ := buffer_ s; buffer_memory_type_ := buffer_memory_type_ s;
     buffer_memory_ := buffer_memory_ s;
     buffer_memory_allocated_ := v;
     last_usage_ := last_usage_ s; last_written_range_ := last_written_range_ s;
     upload_buffer_pool_ := upload_buffer_pool_ s;
     upload_regions_ := upload_regions_ s; calls := calls s; device := device s;
     submission_current := submission_current s;
     submission_completed := submission_completed s |}.

Definition set_last_usage_ (v : Usage) (s : State) : State :=
  {| buffer_ := buffer_ s; buffer_memory_type_ := buffer_memory_type_ s;
     buffer_memory_ := buffer_memory_ s;
     buffer_memory_allocated_ := buffer_memory_allocated_ s;
     last_usage_ := v; last_written_range_ := last_written_range_ s;
     upload_buffer_pool_ := upload_buffer_pool_ s;
     upload_regions_ := upload_regions_ s; calls := calls s; device := device s;
     submission_current := submission_current s;
     submission_completed := submission_completed s |}.

Definition set_last_written_range_ (v : Z * Z) (s : State) : State :=
  {| buffer_ := buffer_ s; buffer_memory_type_ := buffer_memory_type_ s;
     buffer_memory_ := buffer_memory_ s;
     buffer_memory_allocated_ := buffer_memory_allocated_ s;
     last_usage_ := last_usage_ s; last_written_range_ := v;
     upload_buffer_pool_ := upload_buffer_pool_ s;
     upload_regions_ := upload_regions_ s; calls := calls s; device := device s;
     submission_current := submission_current s;
     submission_completed := submission_completed s |}.

Definition set_upload_buffer_pool_ (v : option Pool) (s : State) : State :=
  {| buffer_ := buffer_ s; buffer_memory_type_ := buffer_memory_type_ s;
     buffer_memory_ := buffer_memory_ s;
     buffer_memory_allocated_ := buffer_memory_allocated_ s;
     last_usage_ := last_usage_ s; last_written_range_ := last_written_range_ s;
     upload_buffer_pool_ := v;
     upload_regions_ := upload_regions_ s; calls := calls s; device := device s;
     submission_current := submission_current s;
     submission_completed := submission_completed s |}.

Definition set_upload_regions_ (v : list VkBufferCopy.t) (s : State) : State :=
  {| buffer_ := buffer_ s; buffer_memory_type_ := buffer_memory_type_ s;
     buffer_memory_ := buffer_memory_ s;
     buffer_memory_allocated_ := buffer_memory_allocated_ s;
     last_usage_ := last_usage_ s; last_written_range_ := last_written_range_ s;
     upload_buffer_pool_ := upload_buffer_pool_ s;
     upload_regions_ := v; calls := calls s; device := device s;
     submission_current := submission_current s;
     submission_completed := submission_completed s |}.

Definition set_calls (v : list Call) (s : State) : State :=
  {| buffer_ := buffer_ s; buffer_memory_type_ := buffer_memory_type_ s;
     buffer_memory_ := buffer_memory_ s;
     buffer_memory_allocated_ := buffer_memory_allocated_ s;
     last_usage_ := last_usage_ s; last_written_range_ := last_written_range_ s;
     upload_buffer_pool_ := upload_buffer_pool_ s;
     upload_regions_ := upload_regions_ s; calls := v; device := device s;
     submission_current := submission_current s;
     submission_completed := submission_completed s |}.

Definition set_device (v : Device) (s : State) : State :=
  {| buffer_ := buffer_ s; buffer_memory_type_ := buffer_memory_type_ s;
     buffer_memory_ := buffer_memory_ s;
     buffer_memory_allocated_ := buffer_memory_allocated_ s;
     last_usage_ := last_usage_ s; last_written_range_ := last_written_range_ s;
     upload_buffer_pool_ := upload_buffer_pool_ s;
     upload_regions_ := upload_regions_ s; calls := calls s; device := v;
     submission_current := submission_current s;
     submission_completed := submission_completed s |}.

(** A call on a collaborator is appended to the log. *)
Definition record (c : Call) (s : State) : State := set_calls (calls s ++ [c]) s.

(** ** The monad: state, and the ways a call can fail to return *)

Definition M (A : Type) : Type := State -> Outcome (A * State).

Definition ret {A} (a : A) : M A := fun s => Ok (a, s).

Definition bind {A B} (m : M A) (k : A -> M B) : M B :=
  fun s =>
    match m s with
    | Ok (a, s') => k a s'
    | AssertionFailed => AssertionFailed
    | NullDereference => NullDereference
    | OutOfFuel => OutOfFuel
    end.

Notation "x <- m ;; k" := (bind m (fun x => k))
  (at level 61, m at next level, right associativity).
Notation "m ;; k" := (bind m (fun _ => k))
  (at level 61, right associativity).
Notation "' pat <- m ;; k" := (bind m (fun x => let 'pat := x in k))
  (at level 61, pat pattern, m at next level, right associativity).

Definition gets {A} (f : State -> A) : M A := fun s => Ok (f s, s).
Definition modify (f : State -> State) : M unit := fun s => Ok (tt, f s).
Definition call (c : Call) : M unit := modify (record c).

(** [assert_true(cond)]: fatal when asserts are compiled in. *)
Definition assert_true (cond : bool) : M unit :=
  fun s => if asserts_enabled cfg && negb cond then AssertionFailed else Ok (tt, s).

(** ** GetBarrier *)

Definition GetBarrier (usage : Usage) : Z * Z :=
  match usage with
  | kComputeWrite =>
      (VK_PIPELINE_STAGE_COMPUTE_SHADER_BIT, VK_ACCESS_SHADER_READ_BIT)
  | kTransferDestination =>
      (VK_PIPELINE_STAGE_TRANSFER_BIT, VK_ACCESS_TRANSFER_WRITE_BIT)
  | _ =>
      let stage_mask :=
        Z.lor (Z.lor VK_PIPELINE_STAGE_VERTEX_INPUT_BIT
                     VK_PIPELINE_STAGE_VERTEX_SHADER_BIT)
              VK_PIPELINE_STAGE_FRAGMENT_SHADER_BIT in
      let stage_mask :=
        if tessellationShader (provider cfg)
        then Z.lor stage_mask VK_PIPELINE_STAGE_TESSELLATION_EVALUATION_SHADER_BIT
        else stage_mask in
      let access_mask := Z.lor VK_ACCESS_INDEX_READ_BIT VK_ACCESS_SHADER_READ_BIT in
      match usage with
      | kRead =>
          (Z.lor stage_mask
             (Z.lor VK_PIPELINE_STAGE_COMPUTE_SHADER_BIT VK_PIPELINE_STAGE_TRANSFER_BIT),
           Z.lor access_mask VK_ACCESS_TRANSFER_READ_BIT)
      | kGuestDrawReadWrite =>
          (stage_mask, Z.lor access_mask VK_ACCESS_SHADER_WRITE_BIT)
      | _ =>
          (* assert_unhandled_case: not reached, the first switch returned *)
          (stage_mask, access_mask)
      end
  end.

(** ** Use *)

Definition Use (usage : Usage) (written_range : Z * Z) : M unit :=
  let first := Z.min (fst written_range) (kBufferSize cfg) in
  (* kBufferSize - first does not wrap: first <= kBufferSize *)
  let second := Z.min (snd written_range) (kBufferSize cfg - first) in
  let written_range := (first, second) in
  assert_true (negb (Usage_eqb usage kRead) || (second =? 0)) ;;
  last_usage <- gets last_usage_ ;;
  last_written_range <- gets last_written_range_ ;;
  (if negb (Usage_eqb last_usage usage) || negb (snd last_written_range =? 0) then
     let '(stage_mask_src, srcAccessMask) := GetBarrier last_usage in
     let '(stage_mask_dst, dstAccessMask) := GetBarrier usage in
     buffer <- gets buffer_ ;;
     '(offset, size) <-
       (if Usage_eqb last_usage usage then
          (* Committing the previous write. *)
          ret (fst last_written_range, snd last_written_range)
        else
          (* Changing the stage and access mask. *)
          modify (set_last_usage_ usage) ;;
          ret (0, VK_WHOLE_SIZE)) ;;
     call (CmdVkPipelineBarrier stage_mask_src stage_mask_dst
             (VkBufferMemoryBarrier.mk srcAccessMask dstAccessMask
                VK_QUEUE_FAMILY_IGNORED VK_QUEUE_FAMILY_IGNORED buffer offset size))
   else ret tt) ;;
  modify (set_last_written_range_ written_range).


(** ** UploadRanges *)

(** [upload_buffer_pool_->RequestPartial(...)] through the [unique_ptr]. *)
Definition pool_RequestPartial (submission size alignment : Z)
  : M (option StagingAllocation) :=
  fun s =>
    match upload_buffer_pool_ s with
    | None => NullDereference
    | Some pool =>
        let '(granted, pool') := RequestPartial pool submission size alignment in
        Ok (granted,
            record (PoolRequestPartial submission size alignment granted)
              (set_upload_buffer_pool_ (Some pool') s))
    end.

Definition is_empty {A} (l : list A) : bool :=
  match l with [] => true | _ :: _ => false end.

(** The block that both flushes share: the pending regions go out as one
    copy command from [upload_buffer_previous], and the list is cleared. *)
Definition copy_upload_regions (upload_buffer_previous : VkBuffer) : M unit :=
  assert_true (negb (upload_buffer_previous =? VK_NULL_HANDLE)) ;;
  buffer <- gets buffer_ ;;
  regions <- gets upload_regions_ ;;
  call (CmdVkCopyBuffer upload_buffer_previous buffer regions) ;;
  modify (set_upload_regions_ []).

(** The [while (upload_range_length)] loop of one range; [fuel] bounds its
    iterations.  Yields [successful] and [upload_buffer_previous]. *)
Fixpoint upload_range (fuel : nat) (submission_current : Z)
    (upload_range_start upload_range_length : Z)
    (upload_buffer_previous : VkBuffer) : M (bool * VkBuffer) :=
  match fuel with
  | O => fun _ => OutOfFuel
  | S fuel' =>
      if upload_range_length =? 0 then ret (true, upload_buffer_previous)
      else
        granted <- pool_RequestPartial submission_current
                     (shl32 upload_range_length (page_size_log2 cfg))
                     (wrap64 (Z.shiftl 1 (page_size_log2 cfg))) ;;
        match granted with
        | None =>
            (* Failed to get a Vulkan upload buffer *)
            ret (false, upload_buffer_previous)
        | Some a =>
            let upload_buffer := Z.pos (upload_buffer a) in
            let upload_buffer_size := upload_buffer_size a in
            call (MakeRangeValid (shl32 upload_range_start (page_size_log2 cfg))
                    (wrap32 upload_buffer_size) false) ;;
            call (Memcpy a (shl32 upload_range_start (page_size_log2 cfg))
                    upload_buffer_size) ;;
            regions_empty <- gets (fun s => is_empty (upload_regions_ s)) ;;
            (if negb (upload_buffer_previous =? upload_buffer) && negb regions_empty
             then copy_upload_regions upload_buffer_previous
             else ret tt) ;;
            modify (fun s =>
              set_upload_regions_
                (upload_regions_ s ++
                 [VkBufferCopy.mk (upload_buffer_offset a)
                    (shl32 upload_range_start (page_size_log2 cfg))
                    upload_buffer_size]) s) ;;
            let upload_buffer_pages :=
              wrap32 (Z.shiftr upload_buffer_size (page_size_log2 cfg)) in
            upload_range fuel' submission_current
              (wrap32 (upload_range_start + upload_buffer_pages))
              (wrap32 (upload_range_length - upload_buffer_pages))
              upload_buffer
        end
  end.

(** The [for (auto upload_range : upload_page_ranges)] loop. *)
Fixpoint upload_ranges_loop (fuel : nat) (submission_current : Z)
    (upload_page_ranges : list (Z * Z)) (upload_buffer_previous : VkBuffer)
  : M (bool * VkBuffer) :=
  match upload_page_ranges with
  | [] => ret (true, upload_buffer_previous)
  | (upload_range_start, upload_range_length) :: rest =>
      call (WriteMemoryRead (shl32 upload_range_start (page_size_log2 cfg))
              (shl32 upload_range_length (page_size_log2 cfg))) ;;
      '(successful, upload_buffer_previous) <-
        upload_range fuel submission_current upload_range_start
          upload_range_length upload_buffer_previous ;;
      if successful
      then upload_ranges_loop fuel submission_current rest upload_buffer_previous
      else ret (false, upload_buffer_previous)
  end.

(** The written range handed to [Use]: from the first range's start, as
    long as up to the last range's end, in bytes. *)
Definition upload_span (upload_page_ranges : list (Z * Z)) : Z * Z :=
  let front := hd (0, 0) upload_page_ranges in
  let back := last upload_page_ranges (0, 0) in
  (shl32 (fst front) (page_size_log2 cfg),
   shl32 (wrap32 (fst back + snd back - fst front)) (page_size_log2 cfg)).

Definition UploadRanges (fuel : nat) (upload_page_ranges : list (Z * Z)) : M bool :=
  match upload_page_ranges with
  | [] => ret true
  | _ :: _ =>
      Use kTransferDestination (upload_span upload_page_ranges) ;;
      submission_current <- gets submission_current ;;
      modify (set_upload_regions_ []) ;;
      '(successful, upload_buffer_previous) <-
        upload_ranges_loop fuel submission_current upload_page_ranges
          VK_NULL_HANDLE ;;
      regions_empty <- gets (fun s => is_empty (upload_regions_ s)) ;;
      (if negb regions_empty
       then copy_upload_regions upload_buffer_previous
       else ret tt) ;;
      ret successful
  end.

(** ** Initialize and Shutdown *)

(** The device after one more result of a fallible entry point, and after
    one more handle, are used up. *)
Definition use_result (d : Device) : Device :=
  {| vk_results := tl (vk_results d); vk_next_handle := vk_next_handle d;
     vk_requirements := vk_requirements d |}.

Definition use_handle (d : Device) : Device :=
  {| vk_results := vk_results d; vk_next_handle := Pos.succ (vk_next_handle d);
     vk_requirements := vk_requirements d |}.

(** [dfn.vkCreateBuffer(device, &info, nullptr, &buffer_)]: a new handle
    is stored in [buffer_] on success; a failed call leaves it as it was. *)
Definition dfn_vkCreateBuffer (info : VkBufferCreateInfo.t) : M VkResult :=
  fun s =>
    let d := device s in
    let result := hd VK_SUCCESS (vk_results d) in
    if result =? VK_SUCCESS then
      let handle := Z.pos (vk_next_handle d) in
      Ok (result,
          record (vkCreateBuffer info result handle)
            (set_buffer_ handle (set_device (use_handle (use_result d)) s)))
    else
      Ok (result,
          record (vkCreateBuffer info result VK_NULL_HANDLE)
            (set_device (use_result d) s)).

Definition dfn_vkGetBufferMemoryRequirements : M VkMemoryRequirements.t :=
  fun s =>
    Ok (vk_requirements (device s),
        record (vkGetBufferMemoryRequirements (buffer_ s)) s).

Definition dfn_vkAllocateMemory (allocationSize memoryTypeIndex : Z)
  : M (VkResult * VkDeviceMemory) :=
  fun s =>
    let d := device s in
    let result := hd VK_SUCCESS (vk_results d) in
    if result =? VK_SUCCESS then
      let handle := Z.pos (vk_next_handle d) in
      Ok ((result, handle),
          record (vkAllocateMemory allocationSize memoryTypeIndex result handle)
            (set_device (use_handle (use_result d)) s))
    else
      Ok ((result, VK_NULL_HANDLE),
          record (vkAllocateMemory allocationSize memoryTypeIndex result VK_NULL_HANDLE)
            (set_device (use_result d) s)).

Definition dfn_vkBindBufferMemory (memory : VkDeviceMemory) (memoryOffset : Z)
  : M VkResult :=
  fun s =>
    let d := device s in
    let result := hd VK_SUCCESS (vk_results d) in
    Ok (result,
        record (vkBindBufferMemory (buffer_ s) memory memoryOffset result)
          (set_device (use_result d) s)).

(** Modelled from the spec: [ui::vulkan::util::DestroyAndNullHandle] of
    [xenia/ui/vulkan/vulkan_util.h] is defined in another file; by its name
    and the spec ("destroys the buffer handle", "leaves the buffer handle
    cleared") it destroys a handle that is not null and nulls it. *)
Definition DestroyAndNullHandle_buffer_ : M unit :=
  buffer <- gets buffer_ ;;
  if buffer =? VK_NULL_HANDLE then ret tt
  else
    call (vkDestroyBuffer buffer) ;;
    modify (set_buffer_ VK_NULL_HANDLE).

Fixpoint for_each {A} (l : list A) (body : A -> M unit) : M unit :=
  match l with
  | [] => ret tt
  | x :: rest => body x ;; for_each rest body
  end.

Definition Shutdown (from_destructor : bool) : M unit :=
  modify (set_upload_buffer_pool_ None) ;;
  modify (set_last_written_range_ (0, 0)) ;;
  modify (set_last_usage_ kTransferDestination) ;;
  DestroyAndNullHandle_buffer_ ;;
  modify (set_buffer_memory_allocated_ []) ;;
  buffer_memory <- gets buffer_memory_ ;;
  for_each buffer_memory (fun memory => call (vkFreeMemory memory)) ;;
  modify (set_buffer_memory_ []) ;;
  (* If calling from the destructor, the SharedMemory destructor will call
     ShutdownCommon. *)
  if negb from_destructor then call ShutdownCommon else ret tt.

Definition sparse_flags : Z :=
  Z.lor VK_BUFFER_CREATE_SPARSE_BINDING_BIT VK_BUFFER_CREATE_SPARSE_RESIDENCY_BIT.

(** The body of [Initialize], for the value [flags] that line 49 assigns to
    [buffer_create_info.flags]. *)
Definition InitializeWithFlags (flags : Z) : M bool :=
  call InitializeCommon ;;
  let usage :=
    Z.lor (Z.lor (Z.lor VK_BUFFER_USAGE_TRANSFER_SRC_BIT VK_BUFFER_USAGE_TRANSFER_DST_BIT)
                 VK_BUFFER_USAGE_STORAGE_BUFFER_BIT)
          VK_BUFFER_USAGE_INDEX_BUFFER_BIT in
  buffer_create_result <-
    dfn_vkCreateBuffer (VkBufferCreateInfo.mk flags (kBufferSize cfg) usage) ;;
  '(buffer_create_result, flags) <-
    (if negb (buffer_create_result =? VK_SUCCESS) then
       if negb (Z.land flags sparse_flags =? 0) then
         let flags := Z.land flags (Z.lnot sparse_flags) in
         buffer_create_result <-
           dfn_vkCreateBuffer (VkBufferCreateInfo.mk flags (kBufferSize cfg) usage) ;;
         ret (buffer_create_result, flags)
       else ret (buffer_create_result, flags)
     else ret (buffer_create_result, flags)) ;;
  if negb (buffer_create_result =? VK_SUCCESS) then
    (* Failed to create the Vulkan buffer *)
    Shutdown false ;; ret false
  else
    buffer_memory_requirements <- dfn_vkGetBufferMemoryRequirements ;;
    match bit_scan_forward
            (Z.land (VkMemoryRequirements.memoryTypeBits buffer_memory_requirements)
                    (memory_types_device_local (provider cfg))) with
    | None =>
        (* Failed to get a device-local Vulkan memory type *)
        Shutdown false ;; ret false
    | Some memory_type =>
        modify (set_buffer_memory_type_ memory_type) ;;
        let make_pool :=
          modify (set_upload_buffer_pool_
                    (Some (pool_new
                             (align (kDefaultPageSize cfg)
                                (wrap64 (Z.shiftl 1 (page_size_log2 cfg))))))) ;;
          ret true in
        if Z.land flags sparse_flags =? 0 then
          '(result, buffer_memory) <-
            dfn_vkAllocateMemory
              (VkMemoryRequirements.size buffer_memory_requirements) memory_type ;;
          if negb (result =? VK_SUCCESS) then
            (* Failed to allocate memory for the Vulkan buffer *)
            Shutdown false ;; ret false
          else
            modify (fun s => set_buffer_memory_ (buffer_memory_ s ++ [buffer_memory]) s) ;;
            result <- dfn_vkBindBufferMemory buffer_memory 0 ;;
            if negb (result =? VK_SUCCESS) then
              (* Failed to bind memory to the Vulkan buffer *)
              Shutdown false ;; ret false
            else make_pool
        else make_pool
    end.

Definition Initialize : M bool := InitializeWithFlags 0.

(** ** Submission life cycle *)

Definition CompletedSubmissionUpdated : M unit :=
  fun s =>
    match upload_buffer_pool_ s with
    | None => NullDereference
    | Some pool =>
        Ok (tt, set_upload_buffer_pool_ (Some (Reclaim pool (submission_completed s))) s)
    end.

Definition EndSubmission : M unit :=
  fun s =>
    match upload_buffer_pool_ s with
    | None => NullDereference
    | Some pool => Ok (tt, set_upload_buffer_pool_ (Some (FlushWrites pool)) s)
    end.

(** [~VulkanSharedMemory() { Shutdown(true); }] *)
Definition destructor : M unit := Shutdown true.

End Model.

(** ** What a run leaves in the call log *)

Section Log.

Definition barriers (l : list Call) : list (Z * Z * VkBufferMemoryBarrier.t) :=
  flat_map (fun c => match c with
                     | CmdVkPipelineBarrier src dst b => [(src, dst, b)]
                     | _ => []
                     end) l.

(** The copy commands: staging buffer, destination buffer, regions. *)
Definition copy_commands (l : list Call)
  : list (VkBuffer * VkBuffer * list VkBufferCopy.t) :=
  flat_map (fun c => match c with
                     | CmdVkCopyBuffer src dst regions => [(src, dst, regions)]
                     | _ => []
                     end) l.

Definition notifications (l : list Call) : list (Z * Z) :=
  flat_map (fun c => match c with
                     | WriteMemoryRead address length => [(address, length)]
                     | _ => []
                     end) l.

Definition requests (l : list Call) : list (option StagingAllocation) :=
  flat_map (fun c => match c with
                     | PoolRequestPartial _ _ _ granted => [granted]
                     | _ => []
                     end) l.

(** The chunks staged: for each host copy into a staging allocation, the
    staging buffer and the region that copies it on to the device. *)
Definition chunks (l : list Call) : list (VkBuffer * VkBufferCopy.t) :=
  flat_map (fun c => match c with
                     | Memcpy a src_address length =>
                         [(Z.pos (upload_buffer a),
                           VkBufferCopy.mk (upload_buffer_offset a) src_address length)]
                     | _ => []
                     end) l.

Definition destroyed_buffers (l : list Call) : list VkBuffer :=
  flat_map (fun c => match c with vkDestroyBuffer b => [b] | _ => [] end) l.

Definition freed_memory (l : list Call) : list VkDeviceMemory :=
  flat_map (fun c => match c with vkFreeMemory m => [m] | _ => [] end) l.

Definition created_buffers (l : list Call) : list (VkBufferCreateInfo.t * VkResult) :=
  flat_map (fun c => match c with
                     | vkCreateBuffer info result _ => [(info, result)]
                     | _ => []
                     end) l.

(** The destination byte ranges [(offset, size)] of the copies, in order. *)
Definition copy_destinations (l : list Call) : list (Z * Z) :=
  map (fun r => (VkBufferCopy.dstOffset r, VkBufferCopy.size r))
      (concat (map snd (copy_commands l))).

End Log.

(** ** The spec's words, to compare the code with *)

(** The stage/access table of the spec, as lists of bits. *)
Definition table_stages (tessellation : bool) (usage : Usage) : list Z :=
  let draw :=
    [VK_PIPELINE_STAGE_VERTEX_INPUT_BIT; VK_PIPELINE_STAGE_VERTEX_SHADER_BIT;
     VK_PIPELINE_STAGE_FRAGMENT_SHADER_BIT] ++
    (if tessellation then [VK_PIPELINE_STAGE_TESSELLATION_EVALUATION_SHADER_BIT] else []) in
  match usage with
  | kComputeWrite => [VK_PIPELINE_STAGE_COMPUTE_SHADER_BIT]
  | kTransferDestination => [VK_PIPELINE_STAGE_TRANSFER_BIT]
  | kRead =>
      draw ++ [VK_PIPELINE_STAGE_COMPUTE_SHADER_BIT; VK_PIPELINE_STAGE_TRANSFER_BIT]
  | kGuestDrawReadWrite => draw
  end.

Definition table_access (usage : Usage) : list Z :=
  match usage with
  | kComputeWrite => [VK_ACCESS_SHADER_READ_BIT]
  | kTransferDestination => [VK_ACCESS_TRANSFER_WRITE_BIT]
  | kRead =>
      [VK_ACCESS_INDEX_READ_BIT; VK_ACCESS_SHADER_READ_BIT; VK_ACCESS_TRANSFER_READ_BIT]
  | kGuestDrawReadWrite =>
      [VK_ACCESS_INDEX_READ_BIT; VK_ACCESS_SHADER_READ_BIT; VK_ACCESS_SHADER_WRITE_BIT]
  end.

Definition mask_of (bits : list Z) : Z := fold_right Z.lor 0 bits.

(** Step 1 of [Use]: the written range clipped into the buffer. *)
Definition clip (cfg : Config) (written_range : Z * Z) : Z * Z :=
  let first := Z.min (fst written_range) (kBufferSize cfg) in
  (first, Z.min (snd written_range) (kBufferSize cfg - first)).

(** Step 2 of [Use]: a read reports no write.  Binding only where the
    assertions are compiled in. *)
Definition Use_precondition (cfg : Config) (usage : Usage) (written_range : Z * Z)
  : Prop :=
  asserts_enabled cfg = true -> usage = kRead -> snd (clip cfg written_range) = 0.

(** Step 3 of [Use]: a barrier is due. *)
Definition barrier_due {Pool} (st : @State Pool) (usage : Usage) : Prop :=
  usage <> last_usage_ st \/ snd (last_written_range_ st) <> 0.

(** The barrier that [Use] records when one is due. *)
Definition Use_barrier (cfg : Config) {Pool} (st : @State Pool) (usage : Usage) : Call :=
  let old := last_usage_ st in
  CmdVkPipelineBarrier (fst (GetBarrier cfg old)) (fst (GetBarrier cfg usage))
    (VkBufferMemoryBarrier.mk (snd (GetBarrier cfg old)) (snd (GetBarrier cfg usage))
       VK_QUEUE_FAMILY_IGNORED VK_QUEUE_FAMILY_IGNORED (buffer_ st)
       (if Usage_eqb old usage then fst (last_written_range_ st) else 0)
       (if Usage_eqb old usage then snd (last_written_range_ st) else VK_WHOLE_SIZE)).

(** Coalescing, as the spec words it: each maximal run of consecutive
    chunks from one staging buffer becomes one batch of regions. *)
Fixpoint group_runs (cs : list (VkBuffer * VkBufferCopy.t))
  : list (VkBuffer * list VkBufferCopy.t) :=
  match cs with
  | [] => []
  | (b, r) :: rest =>
      match group_runs rest with
      | (b', rs) :: groups =>
          if b =? b' then (b, r :: rs) :: groups
          else (b, [r]) :: (b', rs) :: groups
      | [] => [(b, [r])]
      end
  end.

(** Adjacent groups come from different staging buffers. *)
Fixpoint runs_differ (groups : list (VkBuffer * list VkBufferCopy.t)) : Prop :=
  match groups with
  | (b, _) :: (((b', _) :: _) as rest) => b <> b' /\ runs_differ rest
  | _ => True
  end.

(** The chunks a list of groups stands for. *)
Definition ungroup (groups : list (VkBuffer * list VkBufferCopy.t))
  : list (VkBuffer * VkBufferCopy.t) :=
  flat_map (fun g => map (fun r => (fst g, r)) (snd g)) groups.

(** The constants are those of a 32-bit address space. *)
Definition Config_ok (cfg : Config) : Prop :=
  0 <= page_size_log2 cfg < 32 /\ 0 <= kBufferSize cfg < 2 ^ 32.

(** The state after one iteration of the loop of [upload_range] whose
    request was granted [a]: the range is marked valid, the bytes are
    staged, the pending regions go out if they are from another staging
    buffer, and the chunk's region is appended. *)
Definition stage_chunk (cfg : Config) {Pool} (a : StagingAllocation)
    (upload_range_start : Z) (upload_buffer_previous : VkBuffer)
    (s : @State Pool) : @State Pool :=
  let address := shl32 upload_range_start (page_size_log2 cfg) in
  let s1 :=
    record (Memcpy a address (upload_buffer_size a))
      (record (MakeRangeValid address (wrap32 (upload_buffer_size a)) false) s) in
  let s2 :=
    if negb (upload_buffer_previous =? Z.pos (upload_buffer a))
       && negb (is_empty (upload_regions_ s1))
    then set_upload_regions_ []
           (record (CmdVkCopyBuffer upload_buffer_previous (buffer_ s1)
                      (upload_regions_ s1)) s1)
    else s1 in
  set_upload_regions_
    (upload_regions_ s2 ++
     [VkBufferCopy.mk (upload_buffer_offset a) address (upload_buffer_size a)]) s2.

(** The pages of a grant, as the loop counts them. *)
Definition granted_pages (cfg : Config) (a : StagingAllocation) : Z :=
  wrap32 (Z.shiftr (upload_buffer_size a) (page_size_log2 cfg)).

(** What the upload loops leave alone. *)
Definition same_object {Pool} (st st' : @State Pool) : Prop :=
  buffer_ st' = buffer_ st /\
  buffer_memory_type_ st' = buffer_memory_type_ st /\
  buffer_memory_ st' = buffer_memory_ st /\
  last_usage_ st' = last_usage_ st /\
  last_written_range_ st' = last_written_range_ st /\
  device st' = device st /\
  submission_current st' = submission_current st.

(** The batch issued for the pending regions, if there are any. *)
Definition pending_run (upload_buffer_previous : VkBuffer)
    (regions : list VkBufferCopy.t) : list (VkBuffer * list VkBufferCopy.t) :=
  match regions with
  | [] => []
  | _ :: _ => [(upload_buffer_previous, regions)]
  end.

(** How the loop stands after staging the chunks [cs]: the batches issued
    so far, then the pending regions, are the runs of [cs]. *)
Definition coalesced (cs : list (VkBuffer * VkBufferCopy.t))
    (issued : list (VkBuffer * list VkBufferCopy.t))
    (upload_buffer_previous : VkBuffer) (regions : list VkBufferCopy.t) : Prop :=
  group_runs cs = issued ++ pending_run upload_buffer_previous regions /\
  (regions = [] -> cs = []).

(** [group_runs] from the other end: the runs after one more chunk. *)
Fixpoint add_chunk (groups : list (VkBuffer * list VkBufferCopy.t))
    (b : VkBuffer) (r : VkBufferCopy.t) : list (VkBuffer * list VkBufferCopy.t) :=
  match groups with
  | [] => [(b, [r])]
  | [(p, rs)] => if p =? b then [(p, rs ++ [r])] else [(p, rs); (b, [r])]
  | g :: rest => g :: add_chunk rest b r
  end.

(** The calls one granted iteration of the loop adds to the log. *)
Definition chunk_calls (cfg : Config) {Pool} (a : StagingAllocation)
    (upload_range_start : Z) (upload_buffer_previous : VkBuffer)
    (s : @State Pool) : list Call :=
  let address := shl32 upload_range_start (page_size_log2 cfg) in
  [MakeRangeValid address (wrap32 (upload_buffer_size a)) false;
   Memcpy a address (upload_buffer_size a)] ++
  (if negb (upload_buffer_previous =? Z.pos (upload_buffer a))
      && negb (is_empty (upload_regions_ s))
   then [CmdVkCopyBuffer upload_buffer_previous (buffer_ s) (upload_regions_ s)]
   else []).

(** The staging buffer and the regions of each copy command. *)
Definition issued_runs (l : list Call) : list (VkBuffer * list VkBufferCopy.t) :=
  map (fun c => (fst (fst c), snd c)) (copy_commands l).

Definition is_granted (r : option StagingAllocation) : Prop := r <> None.

(** How a loop ended, read off the calls it made: when it succeeded every
    request was granted; when it failed, the failed request is its last
    call and all the requests before it were granted. *)
Definition ended (ok : bool) (new : list Call) : Prop :=
  if ok then Forall is_granted (requests new)
  else exists before submission size alignment,
         new = before ++ [PoolRequestPartial submission size alignment None] /\
         Forall is_granted (requests before).

(** A stretch of the upload loops, from [st] with [prev] as the previous
    staging buffer to [st'] with [prev']: the calls it made, what it left
    alone, how it ended, and how it carried the coalescing on. *)
Definition loop_run {Pool} (st st' : @State Pool) (prev prev' : VkBuffer)
    (ok : bool) (new : list Call) : Prop :=
  calls st' = calls st ++ new /\
  same_object st st' /\
  barriers new = [] /\
  ended ok new /\
  Forall (fun c => snd (fst c) = buffer_ st) (copy_commands new) /\
  (forall cs issued,
      coalesced cs issued prev (upload_regions_ st) ->
      coalesced (cs ++ chunks new) (issued ++ issued_runs new) prev'
        (upload_regions_ st')).

(** The byte range notified for a dirty page range. *)
Definition notified (cfg : Config) (range : Z * Z) : Z * Z :=
  (shl32 (fst range) (page_size_log2 cfg), shl32 (snd range) (page_size_log2 cfg)).

(** Dirty page ranges as the page tracker supplies them: ascending,
    disjoint, inside the buffer. *)
Fixpoint ranges_sorted (from : Z) (ranges : list (Z * Z)) : Prop :=
  match ranges with
  | [] => True
  | (start, length) :: rest =>
      from <= start /\ 0 <= length /\ ranges_sorted (start + length) rest
  end.

Definition ranges_in_buffer (cfg : Config) (ranges : list (Z * Z)) : Prop :=
  Forall (fun r => (fst r + snd r) * 2 ^ page_size_log2 cfg <= kBufferSize cfg) ranges.

(** Which ranges were notified, read off the calls of the loops: all of
    them when the loops succeeded; when a request failed, the ranges up to
    and including the one being staged, whose notification is the last. *)
Definition notified_ranges (cfg : Config) (ok : bool) (ranges : list (Z * Z))
    (new : list Call) : Prop :=
  if ok then notifications new = map (notified cfg) ranges
  else exists done r rest head tail,
         ranges = done ++ r :: rest /\
         new = head ++
               WriteMemoryRead (fst (notified cfg r)) (snd (notified cfg r)) :: tail /\
         notifications head = map (notified cfg) done /\
         notifications tail = [] /\
         In None (requests tail).

(** Dirty ranges the scheduler is meant for. *)
Definition upload_ranges_ok (cfg : Config) (ranges : list (Z * Z)) : Prop :=
  ranges_sorted 0 ranges /\ ranges_in_buffer cfg ranges.

(** Fuel for the longest range. *)
Definition enough_fuel (fuel : nat) (ranges : list (Z * Z)) : Prop :=
  Forall (fun r => snd r < Z.of_nat fuel) ranges.

(** The ranges that hold pages. *)
Definition nonempty_ranges (ranges : list (Z * Z)) : list (Z * Z) :=
  filter (fun r => negb (snd r =? 0)) ranges.

(** The destination byte range [(offset, size)] of each chunk staged. *)
Definition chunk_destinations (l : list Call) : list (Z * Z) :=
  map (fun c => (VkBufferCopy.dstOffset (snd c), VkBufferCopy.size (snd c))) (chunks l).

(** The handles the device handed out. *)
Definition created_handles (l : list Call) : list VkBuffer :=
  flat_map (fun c => match c with
                     | vkCreateBuffer _ result out =>
                         if result =? VK_SUCCESS then [out] else []
                     | _ => []
                     end) l.

Definition allocated_handles (l : list Call) : list VkDeviceMemory :=
  flat_map (fun c => match c with
                     | vkAllocateMemory _ _ result out =>
                         if result =? VK_SUCCESS then [out] else []
                     | _ => []
                     end) l.

(** The calls of [Shutdown]: the buffer is destroyed if there is one, each
    backing allocation is freed, and the base class is shut down unless the
    destructor does it. *)
Definition Shutdown_calls {Pool} (from_destructor : bool) (st : @State Pool)
  : list Call :=
  (if buffer_ st =? VK_NULL_HANDLE then [] else [vkDestroyBuffer (buffer_ st)]) ++
  map vkFreeMemory (buffer_memory_ st) ++
  (if from_destructor then [] else [ShutdownCommon]).

(** The state [Shutdown] leaves. *)
Definition shut_down {Pool} (from_destructor : bool) (st : @State Pool) : @State Pool :=
  {| buffer_ := VK_NULL_HANDLE; buffer_memory_type_ := buffer_memory_type_ st;
     buffer_memory_ := []; buffer_memory_allocated_ := [];
     last_usage_ := kTransferDestination; last_written_range_ := (0, 0);
     upload_buffer_pool_ := None; upload_regions_ := upload_regions_ st;
     calls := calls st ++ Shutdown_calls from_destructor st; device := device st;
     submission_current := submission_current st;
     submission_completed := submission_completed st |}.

(** The results the device will give to the next fallible calls. *)
Definition next_results {Pool} (st : @State Pool) (n : nat) : VkResult :=
  nth n (vk_results (device st)) VK_SUCCESS.

(** The memory type [Initialize] selects, if there is one. *)
Definition device_local_type (cfg : Config) {Pool} (st : @State Pool) : option Z :=
  bit_scan_forward
    (Z.land (VkMemoryRequirements.memoryTypeBits (vk_requirements (device st)))
            (memory_types_device_local (provider cfg))).

(** The creation info of [Initialize] with the given flags. *)
Definition buffer_create_info (cfg : Config) (flags : Z) : VkBufferCreateInfo.t :=
  VkBufferCreateInfo.mk flags (kBufferSize cfg)
    (Z.lor (Z.lor (Z.lor VK_BUFFER_USAGE_TRANSFER_SRC_BIT VK_BUFFER_USAGE_TRANSFER_DST_BIT)
                  VK_BUFFER_USAGE_STORAGE_BUFFER_BIT)
           VK_BUFFER_USAGE_INDEX_BUFFER_BIT).

(** The staging pool's side of the contract: a request of at least one
    page is granted at least one page and at most what was asked. *)
Definition pool_grants_within {Pool} {pool_ops : UploadBufferPool Pool} : Prop :=
  forall (pool pool' : Pool) submission size alignment a,
    alignment <= size ->
    RequestPartial pool submission size alignment = (Some a, pool') ->
    alignment <= upload_buffer_size a <= size.

(** ** Concrete collaborators *)

(** A staging pool of fixed-size buffers: a request is served from the
    current buffer while at least one aligned unit is left in it, else
    from a new buffer, while buffers can still be created. *)
Record PagedPool := {
  pp_page_size : Z;
  pp_buffers_left : nat;
  pp_buffer : positive;
  pp_used : Z
}.

Definition PagedPool_request (p : PagedPool) (submission size alignment : Z)
  : option StagingAllocation * PagedPool :=
  let here := Z.min size (pp_page_size p - pp_used p) / alignment * alignment in
  if (0 <? alignment) && (alignment <=? here) then
    (Some {| upload_buffer := pp_buffer p; upload_buffer_offset := pp_used p;
             upload_buffer_size := here |},
     {| pp_page_size := pp_page_size p; pp_buffers_left := pp_buffers_left p;
        pp_buffer := pp_buffer p; pp_used := pp_used p + here |})
  else
    let fresh := Z.min size (pp_page_size p) / alignment * alignment in
    match pp_buffers_left p with
    | S n =>
        if (0 <? alignment) && (alignment <=? fresh) then
          (Some {| upload_buffer := Pos.succ (pp_buffer p); upload_buffer_offset := 0;
                   upload_buffer_size := fresh |},
           {| pp_page_size := pp_page_size p; pp_buffers_left := n;
              pp_buffer := Pos.succ (pp_buffer p); pp_used := fresh |})
        else (None, p)
    | O => (None, p)
    end.

#[export] Instance PagedPool_ops : UploadBufferPool PagedPool := {
  pool_new page_size :=
    {| pp_page_size := page_size; pp_buffers_left := 4; pp_buffer := 1;
       pp_used := page_size |};
  RequestPartial := PagedPool_request;
  Reclaim p _ := p;
  FlushWrites p := p
}.

(** A pool of one unbounded staging buffer: every request is granted in
    full, at the next free offset. *)
Record FullPool := { fp_next : Z }.

#[export] Instance FullPool_ops : UploadBufferPool FullPool := {
  pool_new _ := {| fp_next := 0 |};
  RequestPartial p _ size _ :=
    (Some {| upload_buffer := 1; upload_buffer_offset := fp_next p;
             upload_buffer_size := size |},
     {| fp_next := fp_next p + size |});
  Reclaim p _ := p;
  FlushWrites p := p
}.

(** 512 MB of guest memory in 4 KB pages, 2 MB staging buffers. *)
Definition example_cfg (asserts : bool) : Config :=
  {| kBufferSize := 2 ^ 29; page_size_log2 := 12; kDefaultPageSize := 2 ^ 21;
     provider := {| tessellationShader := true; memory_types_device_local := 0x3 |};
     asserts_enabled := asserts |}.

Definition example_device (results : list VkResult) : Device :=
  {| vk_results := results; vk_next_handle := 1;
     vk_requirements := VkMemoryRequirements.mk (2 ^ 29) 256 0x6 |}.

(** The object as constructed, before [Initialize]. *)
Definition constructed {Pool} (results : list VkResult) : @State Pool :=
  {| buffer_ := VK_NULL_HANDLE; buffer_memory_type_ := 0; buffer_memory_ := [];
     buffer_memory_allocated_ := []; last_usage_ := kTransferDestination;
     last_written_range_ := (0, 0); upload_buffer_pool_ := None;
     upload_regions_ := []; calls := []; device := example_device results;
     submission_current := 1; submission_completed := 0 |}.

(** An initialized object with the given usage state and staging pool. *)
Definition ready {Pool} (pool : Pool) (usage : Usage) (written : Z * Z) : @State Pool :=
  {| buffer_ := 101; buffer_memory_type_ := 1; buffer_memory_ := [102];
     buffer_memory_allocated_ := []; last_usage_ := usage;
     last_written_range_ := written; upload_buffer_pool_ := Some pool;
     upload_regions_ := []; calls := [];
     device := {| vk_results := []; vk_next_handle := 103;
                  vk_requirements := VkMemoryRequirements.mk (2 ^ 29) 256 0x6 |};
     submission_current := 1; submission_completed := 0 |}.

Definition paged (page_size : Z) (buffers : nat) : PagedPool :=
  {| pp_page_size := page_size; pp_buffers_left := buffers; pp_buffer := 1;
     pp_used := page_size |}.

(** Five pages to upload through two staging buffers of one page each:
    the third chunk finds the pool exhausted. *)
Definition exhausting : @State PagedPool := ready (paged 4096 2) kTransferDestination (0, 0).

(** Every request in these calls was granted, and in full. *)
Definition granted_in_full (new : list Call) : Prop :=
  Forall (fun c => match c with
                   | PoolRequestPartial _ size _ granted =>
                       exists a, granted = Some a /\ upload_buffer_size a = size
                   | _ => True
                   end) new.

(** The object of [exhausting] with a region left in [upload_regions_]. *)
Definition stale : @State PagedPool :=
  set_upload_regions_ [VkBufferCopy.mk 7 7 7] exhausting.

(** ** The life of the object *)

(** One call of a public method that returns. *)
Inductive method_call (cfg : Config) {Pool} {pool_ops : UploadBufferPool Pool} :
  @State Pool -> @State Pool -> Prop :=
| call_Initialize st b st' :
    Initialize cfg st = Ok (b, st') -> method_call cfg st st'
| call_Shutdown from_destructor st st' :
    Shutdown from_destructor st = Ok (tt, st') -> method_call cfg st st'
| call_Use usage written_range st st' :
    Use cfg usage written_range st = Ok (tt, st') -> method_call cfg st st'
| call_UploadRanges fuel ranges st b st' :
    UploadRanges cfg fuel ranges st = Ok (b, st') -> method_call cfg st st'
| call_CompletedSubmissionUpdated st st' :
    CompletedSubmissionUpdated st = Ok (tt, st') -> method_call cfg st st'
| call_EndSubmission st st' :
    EndSubmission st = Ok (tt, st') -> method_call cfg st st'.

(** A sequence of such calls. *)
Inductive method_calls (cfg : Config) {Pool} {pool_ops : UploadBufferPool Pool} :
  @State Pool -> @State Pool -> Prop :=
| calls_none st : method_calls cfg st st
| calls_then st1 st2 st3 :
    method_calls cfg st1 st2 -> method_call cfg st2 st3 -> method_calls cfg st1 st3.

(** ** More of the call log *)

(** The ranges marked valid: start, length, written_by_gpu. *)
Definition validated (l : list Call) : list (Z * Z * bool) :=
  flat_map (fun c => match c with
                     | MakeRangeValid start length written_by_gpu =>
                         [(start, length, written_by_gpu)]
                     | _ => []
                     end) l.

(** The requests made on the staging pool: submission, size, alignment. *)
Definition request_calls (l : list Call) : list (Z * Z * Z) :=
  flat_map (fun c => match c with
                     | PoolRequestPartial submission size alignment _ =>
                         [(submission, size, alignment)]
                     | _ => []
                     end) l.

(** The calls the upload loops can make. *)
Definition upload_call (c : Call) : bool :=
  match c with
  | WriteMemoryRead _ _ | PoolRequestPartial _ _ _ _ | MakeRangeValid _ _ _
  | Memcpy _ _ _ | CmdVkCopyBuffer _ _ _ => true
  | _ => false
  end.

(** The range marked valid for a chunk: where its region goes, as long as
    the region, cast to 32 bits. *)
Definition chunk_validated (c : VkBuffer * VkBufferCopy.t) : Z * Z * bool :=
  (VkBufferCopy.dstOffset (snd c), wrap32 (VkBufferCopy.size (snd c)), false).

(** What a stretch of the upload loops, run with the submission number
    [sub], put in the log. *)
Definition loop_log (cfg : Config) (sub : Z) (new : list Call) : Prop :=
  Forall (fun c => upload_call c = true) new /\
  Forall (fun q => fst (fst q) = sub /\
                   snd q = wrap64 (Z.shiftl 1 (page_size_log2 cfg)))
         (request_calls new) /\
  validated new = map chunk_validated (chunks new).

(** The calls on the Vulkan device. *)
Definition device_call (c : Call) : bool :=
  match c with
  | vkCreateBuffer _ _ _ | vkDestroyBuffer _ | vkGetBufferMemoryRequirements _
  | vkAllocateMemory _ _ _ _ | vkFreeMemory _ | vkBindBufferMemory _ _ _ _ => true
  | _ => false
  end.

(** The pieces [(offset, size)], in order, split the bytes
    [start, start + length) without gap or overlap, none of them empty. *)
Fixpoint tiles (start length : Z) (pieces : list (Z * Z)) : Prop :=
  match pieces with
  | [] => length = 0
  | (offset, size) :: rest =>
      offset = start /\ 0 < size <= length /\
      tiles (start + size) (length - size) rest
  end.

(** The byte range of a dirty page range. *)
Definition range_bytes (cfg : Config) (range : Z * Z) : Z * Z :=
  (fst range * 2 ^ page_size_log2 cfg, snd range * 2 ^ page_size_log2 cfg).

(** The staging pool grants whole multiples of the alignment asked. *)
Definition pool_grants_aligned {Pool} {pool_ops : UploadBufferPool Pool} : Prop :=
  forall (pool pool' : Pool) submission size alignment a,
    RequestPartial pool submission size alignment = (Some a, pool') ->
    (alignment | upload_buffer_size a).

(** A pool that never grants a whole page. *)
Definition pool_grants_less_than (page : Z) {Pool} {pool_ops : UploadBufferPool Pool}
  : Prop :=
  forall (pool : Pool) submission size alignment,
    exists a pool',
      RequestPartial pool submission size alignment = (Some a, pool') /\
      0 <= upload_buffer_size a < page.

(** Every device memory allocation made so far is either still held in
    [buffer_memory_] or was freed, in the order of the allocations. *)
Definition memory_accounted {Pool} (st : @State Pool) : Prop :=
  allocated_handles (calls st) = freed_memory (calls st) ++ buffer_memory_ st.

(** While the staging pool exists, there is a buffer with memory behind it. *)
Definition pool_has_buffer {Pool} (st : @State Pool) : Prop :=
  upload_buffer_pool_ st <> None ->
  buffer_ st <> VK_NULL_HANDLE /\ buffer_memory_ st <> [].

(** A staging pool that grants 100 bytes whatever is asked. *)
Record TinyPool := { tp_requests : nat }.

#[export] Instance TinyPool_ops : UploadBufferPool TinyPool := {
  pool_new _ := {| tp_requests := 0 |};
  RequestPartial p _ _ _ :=
    (Some {| upload_buffer := 1; upload_buffer_offset := 0; upload_buffer_size := 100 |},
     {| tp_requests := S (tp_requests p) |});
  Reclaim p _ := p;
  FlushWrites p := p
}.

(** The buffer the object holds, if it holds one. *)
Definition held_buffer {Pool} (st : @State Pool) : list VkBuffer :=
  if buffer_ st =? VK_NULL_HANDLE then [] else [buffer_ st].

(** Every buffer created so far is either the one held or was destroyed,
    in the order of the creations. *)
Definition buffers_accounted {Pool} (st : @State Pool) : Prop :=
  created_handles (calls st) = destroyed_buffers (calls st) ++ held_buffer st.

(** A sequence of calls in which [Initialize] is only called on an object
    that holds no buffer. *)
Inductive orderly_calls (cfg : Config) {Pool} {pool_ops : UploadBufferPool Pool} :
  @State Pool -> @State Pool -> Prop :=
| orderly_none st : orderly_calls cfg st st
| orderly_then st1 st2 st3 :
    orderly_calls cfg st1 st2 -> method_call cfg st2 st3 ->
    (forall b, Initialize cfg st2 = Ok (b, st3) -> buffer_ st2 = VK_NULL_HANDLE) ->
    orderly_calls cfg st1 st3.

(** * Theorems *)

Ltac splits := repeat match goal with |- _ /\ _ => split end.

Lemma Usage_eqb_spec a b : reflect (a = b) (Usage_eqb a b).
Proof. destruct a, b; constructor; congruence. Qed.

Section Proofs.

Variable cfg : Config.
Context {Pool : Type} {pool_ops : UploadBufferPool Pool}.

Implicit Types (st : @State Pool) (usage : Usage).

(** ** GetBarrier *)

(** C1: for each of the four usages, [GetBarrier] returns exactly the
    stage and access masks of the spec's table; the access of
    [kComputeWrite] is shader-read and holds no write bit; the
    tessellation-evaluation stage is in the masks of [kRead] and
    [kGuestDrawReadWrite] if and only if the device supports tessellation. *)
Theorem GetBarrier_table :
  (forall usage,
      GetBarrier cfg usage =
      (mask_of (table_stages (tessellationShader (provider cfg)) usage),
       mask_of (table_access usage))) /\
  GetBarrier cfg kComputeWrite =
    (VK_PIPELINE_STAGE_COMPUTE_SHADER_BIT, VK_ACCESS_SHADER_READ_BIT) /\
  Z.land (snd (GetBarrier cfg kComputeWrite)) VK_ACCESS_SHADER_WRITE_BIT = 0 /\
  GetBarrier cfg kTransferDestination =
    (VK_PIPELINE_STAGE_TRANSFER_BIT, VK_ACCESS_TRANSFER_WRITE_BIT) /\
  (forall usage, usage = kRead \/ usage = kGuestDrawReadWrite ->
      Z.testbit (fst (GetBarrier cfg usage)) 5 = tessellationShader (provider cfg)).
Proof.
  repeat split.
  - intros usage. unfold GetBarrier, table_stages, table_access, mask_of.
    destruct usage, (tessellationShader (provider cfg)); reflexivity.
  - intros usage [-> | ->]; unfold GetBarrier;
      destruct (tessellationShader (provider cfg)); reflexivity.
Qed.

(** ** Use *)

Lemma Use_eqb_neq a b : Usage_eqb a b = false <-> a <> b.
Proof. destruct (Usage_eqb_spec a b); split; congruence. Qed.

Lemma Use_eqb_eq a b : Usage_eqb a b = true <-> a = b.
Proof. destruct (Usage_eqb_spec a b); split; congruence. Qed.

(** What a call of [Use] that passes its assertion computes. *)
Lemma Use_runs st usage written_range :
  Use_precondition cfg usage written_range ->
  Use cfg usage written_range st =
  Ok (tt,
      set_last_written_range_ (clip cfg written_range)
        (if negb (Usage_eqb (last_usage_ st) usage)
            || negb (snd (last_written_range_ st) =? 0)
         then record (Use_barrier cfg st usage)
                (if Usage_eqb (last_usage_ st) usage then st
                 else set_last_usage_ usage st)
         else st)).
Proof.
  intros Hpre. unfold Use_precondition, clip in Hpre. simpl in Hpre.
  unfold Use, bind, assert_true, clip.
  assert (Hassert : asserts_enabled cfg &&
            negb (negb (Usage_eqb usage kRead) ||
                  (Z.min (snd written_range)
                     (kBufferSize cfg - Z.min (fst written_range) (kBufferSize cfg)) =? 0))
          = false).
  { destruct (asserts_enabled cfg) eqn:Ha; [simpl | reflexivity].
    destruct (Usage_eqb_spec usage kRead) as [-> | _]; [simpl | reflexivity].
    rewrite (Hpre eq_refl eq_refl). reflexivity. }
  rewrite Hassert.
  unfold gets, Use_barrier. simpl.
  destruct (GetBarrier cfg (last_usage_ st)) as [s1 a1].
  destruct (GetBarrier cfg usage) as [s2 a2].
  destruct (Usage_eqb (last_usage_ st) usage);
    destruct (snd (last_written_range_ st) =? 0); reflexivity.
Qed.

(** C2: a call of [Use] records exactly one barrier when the usage differs
    from [last_usage_] or the stored [last_written_range_] has a length
    other than zero, and records nothing otherwise.  This holds in every
    state, for every call that passes the assertion of [Use]. *)
Theorem Use_barrier_iff st usage written_range :
  Use_precondition cfg usage written_range ->
  exists st' emitted,
    Use cfg usage written_range st = Ok (tt, st') /\
    calls st' = calls st ++ emitted /\
    (barrier_due st usage ->
       exists src dst b, emitted = [CmdVkPipelineBarrier src dst b]) /\
    (~ barrier_due st usage -> emitted = []).
Proof.
  intros Hpre. rewrite (Use_runs _ _ _ Hpre). unfold barrier_due.
  destruct (Usage_eqb_spec (last_usage_ st) usage) as [Heq | Hne];
    destruct (Z.eqb_spec (snd (last_written_range_ st)) 0) as [Hz | Hnz]; simpl.
  - eexists. exists []. rewrite app_nil_r. repeat split; simpl; trivial.
    intros [H | H]; [congruence | contradiction].
  - eexists. eexists. split; [reflexivity |]. split; [reflexivity |]. split.
    + intros _. unfold Use_barrier. eauto.
    + intros H. exfalso. apply H. now right.
  - eexists. eexists. split; [reflexivity |]. split; [reflexivity |]. split.
    + intros _. unfold Use_barrier. eauto.
    + intros H. exfalso. apply H. left. congruence.
  - eexists. eexists. split; [reflexivity |]. split; [reflexivity |]. split.
    + intros _. unfold Use_barrier. eauto.
    + intros H. exfalso. apply H. now right.
Qed.

(** C3: in every call of [Use] the clipped written range becomes
    [last_written_range_] and [last_usage_] ends as the usage of the call.
    When a barrier is recorded and the usage is the stored one, its range
    is the stored [last_written_range_], its masks are those of that usage,
    and [last_usage_] is unchanged; when the usage differs, its range is
    the whole buffer, its source masks are those of the old usage and its
    destination masks those of the new one. *)
Theorem Use_barrier_range st usage written_range :
  Use_precondition cfg usage written_range ->
  exists st',
    Use cfg usage written_range st = Ok (tt, st') /\
    last_written_range_ st' = clip cfg written_range /\
    last_usage_ st' = usage /\
    (usage = last_usage_ st ->
       last_usage_ st' = last_usage_ st /\
       (snd (last_written_range_ st) <> 0 ->
          calls st' = calls st ++
            [CmdVkPipelineBarrier (fst (GetBarrier cfg usage)) (fst (GetBarrier cfg usage))
               (VkBufferMemoryBarrier.mk
                  (snd (GetBarrier cfg usage)) (snd (GetBarrier cfg usage))
                  VK_QUEUE_FAMILY_IGNORED VK_QUEUE_FAMILY_IGNORED (buffer_ st)
                  (fst (last_written_range_ st)) (snd (last_written_range_ st)))])) /\
    (usage <> last_usage_ st ->
       calls st' = calls st ++
         [CmdVkPipelineBarrier
            (fst (GetBarrier cfg (last_usage_ st))) (fst (GetBarrier cfg usage))
            (VkBufferMemoryBarrier.mk
               (snd (GetBarrier cfg (last_usage_ st))) (snd (GetBarrier cfg usage))
               VK_QUEUE_FAMILY_IGNORED VK_QUEUE_FAMILY_IGNORED (buffer_ st)
               0 VK_WHOLE_SIZE)]).
Proof.
  intros Hpre. rewrite (Use_runs _ _ _ Hpre). eexists. split; [reflexivity |].
  unfold Use_barrier.
  destruct (Usage_eqb_spec (last_usage_ st) usage) as [Heq | Hne];
    destruct (Z.eqb_spec (snd (last_written_range_ st)) 0) as [Hz | Hnz]; simpl;
    repeat split; trivial; try congruence; intros;
    try subst usage; try reflexivity; try congruence.
Qed.

(** ** The upload loops *)

Lemma upload_range_unfold fuel sub start len prev st :
  upload_range cfg (S fuel) sub start len prev st =
  if len =? 0 then Ok ((true, prev), st)
  else
    match upload_buffer_pool_ st with
    | None => NullDereference
    | Some pool =>
        let size := shl32 len (page_size_log2 cfg) in
        let alignment := wrap64 (Z.shiftl 1 (page_size_log2 cfg)) in
        let '(granted, pool') := RequestPartial pool sub size alignment in
        let st1 := record (PoolRequestPartial sub size alignment granted)
                     (set_upload_buffer_pool_ (Some pool') st) in
        match granted with
        | None => Ok ((false, prev), st1)
        | Some a =>
            if (asserts_enabled cfg && (prev =? VK_NULL_HANDLE))
               && negb (is_empty (upload_regions_ st))
            then AssertionFailed
            else upload_range cfg fuel sub
                   (wrap32 (start + granted_pages cfg a))
                   (wrap32 (len - granted_pages cfg a))
                   (Z.pos (upload_buffer a)) (stage_chunk cfg a start prev st1)
        end
    end.
Proof.
  simpl. destruct (len =? 0); [reflexivity |].
  unfold bind at 1. unfold pool_RequestPartial.
  destruct (upload_buffer_pool_ st) as [pool |]; [| reflexivity].
  destruct (RequestPartial pool sub _ _) as [[a |] pool']; [| reflexivity].
  cbv zeta.
  unfold bind, call, modify, gets, copy_upload_regions, assert_true, ret, bind,
    stage_chunk, granted_pages.
  simpl.
  destruct (prev =? Z.pos (upload_buffer a)) eqn:Hpb; simpl.
  - assert ((prev =? VK_NULL_HANDLE) = false) as ->.
    { apply Z.eqb_eq in Hpb. subst prev. reflexivity. }
    rewrite andb_false_r. reflexivity.
  - destruct (upload_regions_ st) as [| r rs] eqn:Hr; simpl.
    + rewrite andb_false_r. reflexivity.
    + rewrite andb_true_r.
      destruct (asserts_enabled cfg); simpl; rewrite ?Hr; simpl; [| reflexivity].
      destruct (prev =? VK_NULL_HANDLE); simpl; rewrite ?Hr; reflexivity.
Qed.

(** *** The log projections distribute over concatenation *)

Lemma barriers_app l1 l2 : barriers (l1 ++ l2) = barriers l1 ++ barriers l2.
Proof. apply flat_map_app. Qed.

Lemma copy_commands_app l1 l2 :
  copy_commands (l1 ++ l2) = copy_commands l1 ++ copy_commands l2.
Proof. apply flat_map_app. Qed.

Lemma notifications_app l1 l2 :
  notifications (l1 ++ l2) = notifications l1 ++ notifications l2.
Proof. apply flat_map_app. Qed.

Lemma requests_app l1 l2 : requests (l1 ++ l2) = requests l1 ++ requests l2.
Proof. apply flat_map_app. Qed.

Lemma chunks_app l1 l2 : chunks (l1 ++ l2) = chunks l1 ++ chunks l2.
Proof. apply flat_map_app. Qed.

Lemma issued_runs_app l1 l2 :
  issued_runs (l1 ++ l2) = issued_runs l1 ++ issued_runs l2.
Proof. unfold issued_runs. now rewrite copy_commands_app, map_app. Qed.

(** *** Runs *)

Ltac eqb_cases :=
  repeat match goal with
         | |- context [?a =? ?b] => destruct (Z.eqb_spec a b); subst; simpl
         end;
  try congruence; try reflexivity.

Lemma group_runs_snoc cs b r :
  group_runs (cs ++ [(b, r)]) = add_chunk (group_runs cs) b r.
Proof.
  induction cs as [| [b0 r0] rest IH]; [reflexivity |].
  simpl. rewrite IH.
  destruct (group_runs rest) as [| [p rs] [| g2 gs]]; simpl; eqb_cases.
Qed.

Lemma add_chunk_last groups p rs b r :
  add_chunk (groups ++ [(p, rs)]) b r =
  groups ++ (if p =? b then [(p, rs ++ [r])] else [(p, rs); (b, [r])]).
Proof.
  induction groups as [| g gs IH]; [reflexivity |].
  destruct g as [q qs]. destruct gs as [| g' gs'].
  - reflexivity.
  - change (add_chunk (((q, qs) :: g' :: gs') ++ [(p, rs)]) b r)
      with ((q, qs) :: add_chunk ((g' :: gs') ++ [(p, rs)]) b r).
    now rewrite IH.
Qed.

Lemma group_runs_nil cs : group_runs cs = [] -> cs = [].
Proof.
  destruct cs as [| [b r] rest]; [reflexivity |]. simpl.
  destruct (group_runs rest) as [| [b' rs] gs]; [discriminate |].
  destruct (b =? b'); discriminate.
Qed.

Lemma group_runs_ungroup cs : ungroup (group_runs cs) = cs.
Proof.
  induction cs as [| [b r] rest IH]; [reflexivity |]. simpl.
  destruct (group_runs rest) as [| [b' rs] gs]; simpl in *.
  - now rewrite <- IH.
  - destruct (Z.eqb_spec b b') as [-> | Hb]; simpl; now rewrite <- IH.
Qed.

Lemma group_runs_differ cs : runs_differ (group_runs cs).
Proof.
  induction cs as [| [b r] rest IH]; [exact I |]. simpl.
  destruct (group_runs rest) as [| [b' rs] gs]; [exact I |].
  destruct (Z.eqb_spec b b') as [-> | Hb].
  - destruct gs as [| [b2 rs2] gs']; [exact I | exact IH].
  - split; assumption.
Qed.

Lemma group_runs_nonempty cs : Forall (fun g => snd g <> []) (group_runs cs).
Proof.
  induction cs as [| [b r] rest IH]; [constructor |]. simpl.
  destruct (group_runs rest) as [| [b' rs] gs].
  - constructor; [discriminate | constructor].
  - destruct (b =? b').
    + constructor; [discriminate | now inversion IH].
    + constructor; [discriminate | assumption].
Qed.

(** *** One iteration *)

Lemma stage_chunk_calls a start prev st :
  calls (stage_chunk cfg a start prev st) = calls st ++ chunk_calls cfg a start prev st.
Proof.
  unfold stage_chunk, chunk_calls. simpl.
  destruct (negb (prev =? Z.pos (upload_buffer a)) && negb (is_empty (upload_regions_ st)));
    simpl; rewrite <- ?app_assoc; reflexivity.
Qed.

Lemma stage_chunk_same a start prev st : same_object st (stage_chunk cfg a start prev st).
Proof.
  unfold stage_chunk, same_object. simpl.
  destruct (negb (prev =? Z.pos (upload_buffer a)) && negb (is_empty (upload_regions_ st)));
    simpl; repeat split; reflexivity.
Qed.

Lemma stage_chunk_pool a start prev st :
  upload_buffer_pool_ (stage_chunk cfg a start prev st) = upload_buffer_pool_ st.
Proof.
  unfold stage_chunk. simpl.
  destruct (negb (prev =? Z.pos (upload_buffer a)) && negb (is_empty (upload_regions_ st)));
    reflexivity.
Qed.

Lemma stage_chunk_regions a start prev st :
  upload_regions_ (stage_chunk cfg a start prev st) <> [].
Proof.
  unfold stage_chunk. simpl.
  destruct (negb (prev =? Z.pos (upload_buffer a)) && negb (is_empty (upload_regions_ st)));
    simpl; intros H; try discriminate H;
    apply app_eq_nil in H as [_ H]; discriminate H.
Qed.

Lemma stage_chunk_coalesced a start prev st cs issued :
  coalesced cs issued prev (upload_regions_ st) ->
  coalesced (cs ++ chunks (chunk_calls cfg a start prev st))
    (issued ++ issued_runs (chunk_calls cfg a start prev st))
    (Z.pos (upload_buffer a))
    (upload_regions_ (stage_chunk cfg a start prev st)).
Proof.
  intros [Hruns Hnil]. unfold coalesced, stage_chunk, chunk_calls. simpl.
  destruct (upload_regions_ st) as [| r0 rs0] eqn:Hr; simpl.
  - rewrite andb_false_r. simpl. rewrite Hr. simpl.
    rewrite (Hnil eq_refl) in *. simpl in Hruns.
    destruct issued; [| discriminate]. simpl.
    split; [reflexivity | discriminate].
  - rewrite andb_true_r.
    destruct (Z.eqb_spec prev (Z.pos (upload_buffer a))) as [Heq | Hne];
      simpl; rewrite ?Hr; simpl; rewrite group_runs_snoc, Hruns; simpl;
      rewrite add_chunk_last.
    + rewrite <- Heq, Z.eqb_refl. unfold issued_runs. simpl. rewrite app_nil_r.
      split; [reflexivity | discriminate].
    + destruct (Z.eqb_spec prev (Z.pos (upload_buffer a))); [contradiction |].
      unfold issued_runs. simpl. rewrite <- app_assoc.
      split; [reflexivity | discriminate].
Qed.

(** *** Stretches of the loops compose *)

Lemma same_object_refl st : same_object st st.
Proof. unfold same_object. repeat split. Qed.

Lemma same_object_trans st1 st2 st3 :
  same_object st1 st2 -> same_object st2 st3 -> same_object st1 st3.
Proof. unfold same_object. intuition congruence. Qed.

Ltac loop_run_split :=
  unfold loop_run; split; [| split; [| split; [| split; [| split]]]].

Lemma loop_run_refl st prev : loop_run st st prev prev true [].
Proof.
  loop_run_split.
  - now rewrite app_nil_r.
  - apply same_object_refl.
  - reflexivity.
  - constructor.
  - constructor.
  - intros cs issued H. now rewrite !app_nil_r.
Qed.

Lemma loop_run_trans st1 st2 st3 p1 p2 p3 ok n1 n2 :
  loop_run st1 st2 p1 p2 true n1 ->
  loop_run st2 st3 p2 p3 ok n2 ->
  loop_run st1 st3 p1 p3 ok (n1 ++ n2).
Proof.
  intros (Hc1 & Hs1 & Hb1 & He1 & Hd1 & Hk1) (Hc2 & Hs2 & Hb2 & He2 & Hd2 & Hk2).
  loop_run_split.
  - now rewrite Hc2, Hc1, app_assoc.
  - eapply same_object_trans; eassumption.
  - now rewrite barriers_app, Hb1, Hb2.
  - simpl in He1. destruct ok; simpl in *.
    + rewrite requests_app. apply Forall_app. now split.
    + destruct He2 as (before & sub & size & al & -> & Hg).
      exists (n1 ++ before), sub, size, al. split; [now rewrite app_assoc |].
      rewrite requests_app. apply Forall_app. now split.
  - rewrite copy_commands_app. apply Forall_app. split; [assumption |].
    destruct Hs1 as (Hbuf & _). now rewrite Hbuf in Hd2.
  - intros cs issued H. rewrite chunks_app, issued_runs_app, !app_assoc.
    apply Hk2, Hk1, H.
Qed.

Lemma loop_run_notify st prev address length :
  loop_run st (record (WriteMemoryRead address length) st) prev prev true
    [WriteMemoryRead address length].
Proof.
  loop_run_split.
  - reflexivity.
  - unfold same_object. simpl. repeat split.
  - reflexivity.
  - constructor.
  - constructor.
  - intros cs issued H. simpl. now rewrite !app_nil_r.
Qed.

Lemma loop_run_failed st prev pool sub size al :
  loop_run st
    (record (PoolRequestPartial sub size al None)
       (set_upload_buffer_pool_ (Some pool) st))
    prev prev false [PoolRequestPartial sub size al None].
Proof.
  loop_run_split.
  - reflexivity.
  - unfold same_object. simpl. repeat split.
  - reflexivity.
  - exists [], sub, size, al. split; [reflexivity | constructor].
  - constructor.
  - intros cs issued H. simpl. now rewrite !app_nil_r.
Qed.

Ltac case_if :=
  match goal with |- context [if ?c then _ else _] => destruct c end.

Lemma loop_run_granted st prev pool sub size al a start :
  let st1 := record (PoolRequestPartial sub size al (Some a))
               (set_upload_buffer_pool_ (Some pool) st) in
  loop_run st (stage_chunk cfg a start prev st1) prev (Z.pos (upload_buffer a)) true
    (PoolRequestPartial sub size al (Some a) :: chunk_calls cfg a start prev st1).
Proof.
  intros st1. loop_run_split.
  - rewrite stage_chunk_calls. subst st1. simpl. now rewrite <- app_assoc.
  - eapply same_object_trans; [| apply stage_chunk_same].
    subst st1. unfold same_object. simpl. repeat split.
  - unfold chunk_calls. simpl. case_if; reflexivity.
  - simpl. unfold chunk_calls. simpl.
    case_if; simpl; repeat constructor; discriminate.
  - unfold chunk_calls. simpl. case_if; simpl; repeat constructor.
  - intros cs issued H.
    change (chunks (PoolRequestPartial sub size al (Some a) :: chunk_calls cfg a start prev st1))
      with (chunks (chunk_calls cfg a start prev st1)).
    change (issued_runs (PoolRequestPartial sub size al (Some a) :: chunk_calls cfg a start prev st1))
      with (issued_runs (chunk_calls cfg a start prev st1)).
    apply stage_chunk_coalesced. exact H.
Qed.

(** *** The loop of one range *)

Lemma upload_range_run fuel : forall sub start len prev st ok prev' st',
  upload_range cfg fuel sub start len prev st = Ok ((ok, prev'), st') ->
  exists new, loop_run st st' prev prev' ok new /\ notifications new = [].
Proof.
  induction fuel as [| fuel IH]; intros sub start len prev st ok prev' st' H.
  - discriminate H.
  - rewrite upload_range_unfold in H.
    destruct (len =? 0).
    { inversion H; subst. exists []. split; [apply loop_run_refl | reflexivity]. }
    destruct (upload_buffer_pool_ st) as [pool |]; [| discriminate H].
    cbv zeta in H.
    destruct (RequestPartial pool sub _ _) as [[a |] pool'].
    + destruct (asserts_enabled cfg && (prev =? VK_NULL_HANDLE)
                && negb (is_empty (upload_regions_ st))); [discriminate H |].
      apply IH in H as (new & Hrun & Hn).
      eexists. split.
      * eapply loop_run_trans; [apply loop_run_granted | exact Hrun].
      * rewrite notifications_app, Hn, app_nil_r. unfold chunk_calls. simpl.
        case_if; reflexivity.
    + inversion H; subst. eexists. split; [apply loop_run_failed | reflexivity].
Qed.

(** *** The loop over the ranges *)

Lemma upload_ranges_loop_run ranges : forall fuel sub prev st ok prev' st',
  upload_ranges_loop cfg fuel sub ranges prev st = Ok ((ok, prev'), st') ->
  exists new, loop_run st st' prev prev' ok new /\ notified_ranges cfg ok ranges new.
Proof.
  induction ranges as [| [start len] rest IH]; intros fuel sub prev st ok prev' st' H.
  - inversion H; subst. exists []. split; [apply loop_run_refl | reflexivity].
  - simpl in H. unfold bind at 1 in H. unfold call, modify in H.
    unfold bind at 1 in H.
    destruct (upload_range cfg fuel sub start len prev _)
      as [[[ok1 prev1] st1] | | |] eqn:Hr; try discriminate H.
    apply upload_range_run in Hr as (n1 & Hrun1 & Hn1).
    destruct ok1.
    + apply IH in H as (n2 & Hrun2 & Hnot2).
      exists ([WriteMemoryRead (shl32 start (page_size_log2 cfg))
                 (shl32 len (page_size_log2 cfg))] ++ n1 ++ n2).
      split.
      * eapply loop_run_trans; [apply loop_run_notify |].
        eapply loop_run_trans; eassumption.
      * destruct ok; simpl in *.
        -- rewrite notifications_app, Hn1, Hnot2. reflexivity.
        -- destruct Hnot2 as (done & r & rest' & head & tail & -> & -> & Hh & Ht & Hf).
           exists ((start, len) :: done), r, rest',
             (WriteMemoryRead (shl32 start (page_size_log2 cfg))
                (shl32 len (page_size_log2 cfg)) :: n1 ++ head), tail.
           repeat split; trivial.
           ++ simpl. now rewrite <- app_assoc.
           ++ simpl. rewrite notifications_app, Hn1, Hh. reflexivity.
    + inversion H; subst.
      exists ([WriteMemoryRead (shl32 start (page_size_log2 cfg))
                 (shl32 len (page_size_log2 cfg))] ++ n1).
      split.
      * eapply loop_run_trans; [apply loop_run_notify | eassumption].
      * exists [], (start, len), rest, [], n1. repeat split; trivial.
        destruct Hrun1 as (_ & _ & _ & He & _). simpl in He.
        destruct He as (before & s0 & z0 & a0 & -> & _).
        rewrite requests_app. apply in_or_app. right. now left.
Qed.

(** *** UploadRanges *)

Lemma Use_transfer_precondition written_range :
  Use_precondition cfg kTransferDestination written_range.
Proof. intros _ H. discriminate H. Qed.

(** The state in which [UploadRanges] enters its loops. *)
Lemma UploadRanges_unfold fuel r rs st :
  UploadRanges cfg fuel (r :: rs) st =
  match Use cfg kTransferDestination (upload_span cfg (r :: rs)) st with
  | Ok (_, st1) =>
      match upload_ranges_loop cfg fuel (submission_current st1) (r :: rs)
              VK_NULL_HANDLE (set_upload_regions_ [] st1) with
      | Ok ((successful, prev), st3) =>
          match upload_regions_ st3 with
          | [] => Ok (successful, st3)
          | _ :: _ =>
              if asserts_enabled cfg && (prev =? VK_NULL_HANDLE) then AssertionFailed
              else Ok (successful,
                       set_upload_regions_ []
                         (record (CmdVkCopyBuffer prev (buffer_ st3) (upload_regions_ st3))
                            st3))
          end
      | AssertionFailed => AssertionFailed
      | NullDereference => NullDereference
      | OutOfFuel => OutOfFuel
      end
  | AssertionFailed => AssertionFailed
  | NullDereference => NullDereference
  | OutOfFuel => OutOfFuel
  end.
Proof.
  unfold UploadRanges. unfold bind at 1.
  destruct (Use cfg kTransferDestination _ st) as [[[] st1] | | |]; try reflexivity.
  unfold bind at 1. unfold gets at 1. unfold bind at 1. unfold modify at 1.
  unfold bind at 1.
  destruct (upload_ranges_loop cfg fuel _ _ _ _) as [[[ok prev] st3] | | |];
    try reflexivity.
  unfold bind, gets, copy_upload_regions, assert_true, call, modify, ret.
  destruct (upload_regions_ st3) as [| x xs] eqn:Hx; simpl; [reflexivity |].
  destruct (asserts_enabled cfg); simpl; [| now rewrite Hx].
  destruct (prev =? VK_NULL_HANDLE); simpl; [reflexivity | now rewrite Hx].
Qed.

Lemma Use_same_buffer st usage written_range st1 :
  Use cfg usage written_range st = Ok (tt, st1) ->
  buffer_ st1 = buffer_ st /\ upload_buffer_pool_ st1 = upload_buffer_pool_ st.
Proof.
  unfold Use, bind, assert_true, gets, modify, call, ret.
  case_if; [discriminate |].
  destruct (GetBarrier cfg (last_usage_ st)), (GetBarrier cfg usage).
  repeat case_if; intros H; inversion H; subst; simpl; split; reflexivity.
Qed.

Lemma coalesced_start prev : coalesced [] [] prev [].
Proof. split; reflexivity. Qed.

(** What a returning call of [UploadRanges] on a non-empty batch did: one
    [Use], then the calls [new] of the loops, then the last flush. *)
Lemma UploadRanges_run fuel r rs st b st' :
  UploadRanges cfg fuel (r :: rs) st = Ok (b, st') ->
  exists st1 new flush,
    Use cfg kTransferDestination (upload_span cfg (r :: rs)) st = Ok (tt, st1) /\
    calls st' = calls st1 ++ new ++ flush /\
    same_object st1 st' /\
    upload_regions_ st' = [] /\
    barriers (new ++ flush) = [] /\
    ended b new /\
    notified_ranges cfg b (r :: rs) new /\
    (flush = [] \/
     exists src regions, flush = [CmdVkCopyBuffer src (buffer_ st) regions]) /\
    issued_runs (new ++ flush) = group_runs (chunks (new ++ flush)) /\
    Forall (fun c => snd (fst c) = buffer_ st) (copy_commands (new ++ flush)).
Proof.
  intros H. rewrite UploadRanges_unfold in H.
  destruct (Use cfg kTransferDestination _ st) as [[[] st1] | | |] eqn:HUse;
    try discriminate H.
  destruct (Use_same_buffer _ _ _ _ HUse) as [Hbuf _].
  destruct (upload_ranges_loop cfg fuel _ _ _ _) as [[[ok prev] st3] | | |] eqn:Hloop;
    try discriminate H.
  apply upload_ranges_loop_run in Hloop as (new & Hrun & Hnot).
  destruct Hrun as (Hc & Hs & Hb & He & Hd & Hk).
  specialize (Hk [] [] (coalesced_start _)). simpl in Hk, Hc, Hd.
  destruct Hk as [Hruns Hnil].
  assert (Hs1 : same_object st1 st3).
  { destruct Hs as (? & ? & ? & ? & ? & ? & ?). unfold same_object. simpl in *.
    repeat split; assumption. }
  exists st1, new.
  destruct (upload_regions_ st3) as [| x xs] eqn:Hx.
  - inversion H; subst. exists []. rewrite !app_nil_r.
    rewrite (Hnil eq_refl) in *. simpl in Hruns.
    splits; trivial.
    + now left.
    + rewrite app_nil_r in Hruns. now rewrite <- Hruns.
    + now rewrite <- Hbuf.
  - destruct (asserts_enabled cfg && (prev =? VK_NULL_HANDLE)); [discriminate H |].
    inversion H; subst.
    exists [CmdVkCopyBuffer prev (buffer_ st3) (x :: xs)].
    assert (Hb3 : buffer_ st3 = buffer_ st).
    { destruct Hs1 as (Hb3 & _). congruence. }
    splits; trivial.
    + simpl. now rewrite Hc, <- app_assoc.
    + rewrite barriers_app, Hb. reflexivity.
    + right. rewrite Hb3. eauto.
    + rewrite issued_runs_app, chunks_app. simpl. rewrite app_nil_r.
      symmetry. exact Hruns.
    + rewrite copy_commands_app. apply Forall_app. split.
      * now rewrite <- Hbuf.
      * simpl. constructor; [exact Hb3 | constructor].
Qed.

(** *** The loops return, given fuel and a pool that keeps its contract *)

Lemma page_size_value :
  Config_ok cfg ->
  wrap64 (Z.shiftl 1 (page_size_log2 cfg)) = 2 ^ page_size_log2 cfg /\
  0 < 2 ^ page_size_log2 cfg.
Proof.
  intros [[Hl0 Hl1] _]. unfold wrap64.
  rewrite Z.shiftl_mul_pow2, Z.mul_1_l by assumption.
  assert (0 < 2 ^ page_size_log2 cfg) by (apply Z.pow_pos_nonneg; lia).
  assert (2 ^ page_size_log2 cfg < 2 ^ 64) by (apply Z.pow_lt_mono_r; lia).
  split; [apply Z.mod_small; lia | assumption].
Qed.

Lemma request_size_value len :
  Config_ok cfg -> 0 <= len -> len * 2 ^ page_size_log2 cfg < 2 ^ 32 ->
  shl32 len (page_size_log2 cfg) = len * 2 ^ page_size_log2 cfg.
Proof.
  intros [[Hl0 Hl1] _] Hlen Hfit. unfold shl32, wrap32.
  rewrite Z.shiftl_mul_pow2 by assumption.
  apply Z.mod_small. split; [| assumption].
  apply Z.mul_nonneg_nonneg; [assumption |]. apply Z.pow_nonneg. lia.
Qed.

Lemma granted_pages_bounds a len :
  Config_ok cfg -> len * 2 ^ page_size_log2 cfg < 2 ^ 32 ->
  2 ^ page_size_log2 cfg <= upload_buffer_size a <= len * 2 ^ page_size_log2 cfg ->
  1 <= granted_pages cfg a <= len.
Proof.
  intros Hcfg Hfit [Hlo Hhi].
  destruct (page_size_value Hcfg) as [_ Hpos].
  destruct Hcfg as [[Hl0 Hl1] _].
  unfold granted_pages, wrap32. rewrite Z.shiftr_div_pow2 by assumption.
  set (p := 2 ^ page_size_log2 cfg) in *.
  assert (H1 : 1 <= upload_buffer_size a / p).
  { apply Z.div_le_lower_bound; lia. }
  assert (H2 : upload_buffer_size a / p <= len).
  { apply Z.div_le_upper_bound; lia. }
  assert (H3 : len < 2 ^ 32) by nia.
  rewrite Z.mod_small; lia.
Qed.

Lemma upload_range_returns fuel : forall sub start len prev st,
  Config_ok cfg -> @pool_grants_within Pool pool_ops ->
  0 <= len -> len * 2 ^ page_size_log2 cfg < 2 ^ 32 -> len < Z.of_nat fuel ->
  upload_buffer_pool_ st <> None ->
  upload_regions_ st = [] \/ prev <> VK_NULL_HANDLE ->
  exists ok prev' st',
    upload_range cfg fuel sub start len prev st = Ok ((ok, prev'), st') /\
    upload_buffer_pool_ st' <> None /\
    (upload_regions_ st' = [] \/ prev' <> VK_NULL_HANDLE).
Proof.
  induction fuel as [| fuel IH]; intros sub start len prev st Hcfg Hpool Hlen Hfit Hfuel Hp Hinv.
  - simpl in Hfuel. lia.
  - rewrite upload_range_unfold.
    destruct (Z.eqb_spec len 0) as [-> | Hnz]; [eauto 6 |].
    destruct (upload_buffer_pool_ st) as [pool |]; [| contradiction].
    cbv zeta.
    destruct (RequestPartial pool sub _ _) as [[a |] pool'] eqn:Hreq.
    + assert (Hnoassert : asserts_enabled cfg && (prev =? VK_NULL_HANDLE)
                          && negb (is_empty (upload_regions_ st)) = false).
      { destruct Hinv as [-> | Hprev]; [apply andb_false_r |].
        destruct (Z.eqb_spec prev VK_NULL_HANDLE); [contradiction |].
        now rewrite andb_false_r. }
      rewrite Hnoassert.
      destruct (page_size_value Hcfg) as [Hal Hpos].
      rewrite Hal, (request_size_value len Hcfg Hlen Hfit) in Hreq.
      apply Hpool in Hreq; [| nia].
      pose proof (granted_pages_bounds a len Hcfg Hfit Hreq) as Hpages.
      assert (Hlen' : wrap32 (len - granted_pages cfg a) = len - granted_pages cfg a).
      { unfold wrap32. apply Z.mod_small. nia. }
      rewrite Hlen'.
      apply IH; try assumption; try lia; try nia.
      * rewrite stage_chunk_pool. simpl. discriminate.
      * right. unfold VK_NULL_HANDLE. lia.
    + eexists _, _, _. split; [reflexivity |]. split; [simpl; discriminate |].
      simpl. exact Hinv.
Qed.

Lemma upload_ranges_loop_returns ranges : forall fuel sub prev st,
  Config_ok cfg -> @pool_grants_within Pool pool_ops ->
  Forall (fun r => 0 <= snd r /\ snd r * 2 ^ page_size_log2 cfg < 2 ^ 32) ranges ->
  enough_fuel fuel ranges ->
  upload_buffer_pool_ st <> None ->
  upload_regions_ st = [] \/ prev <> VK_NULL_HANDLE ->
  exists ok prev' st',
    upload_ranges_loop cfg fuel sub ranges prev st = Ok ((ok, prev'), st') /\
    (upload_regions_ st' = [] \/ prev' <> VK_NULL_HANDLE).
Proof.
  induction ranges as [| [start len] rest IH];
    intros fuel sub prev st Hcfg Hpool Hfit Hfuel Hp Hinv.
  - eexists _, _, _. split; [reflexivity | exact Hinv].
  - inversion Hfit as [| ? ? [Hlen Hsz] Hfit']; subst.
    inversion Hfuel as [| ? ? Hf Hfuel']; subst. simpl in *.
    unfold bind at 1. unfold call, modify. unfold bind at 1.
    destruct (upload_range_returns fuel sub start len prev
                (record (WriteMemoryRead (shl32 start (page_size_log2 cfg))
                           (shl32 len (page_size_log2 cfg))) st)
                Hcfg Hpool Hlen Hsz Hf)
      as (ok & prev1 & st1 & -> & Hp1 & Hinv1); try assumption.
    destruct ok.
    + apply IH; assumption.
    + eexists _, _, _. split; [reflexivity | exact Hinv1].
Qed.

Lemma ranges_sorted_lengths from ranges :
  ranges_sorted from ranges -> Forall (fun r => from <= fst r /\ 0 <= snd r) ranges.
Proof.
  revert from. induction ranges as [| [start len] rest IH]; intros from H.
  - constructor.
  - destruct H as (H1 & H2 & H3). constructor; [simpl; lia |].
    apply IH in H3. eapply Forall_impl; [| exact H3]. simpl. intros r. lia.
Qed.

Lemma upload_ranges_ok_fit ranges :
  Config_ok cfg -> upload_ranges_ok cfg ranges ->
  Forall (fun r => 0 <= snd r /\ snd r * 2 ^ page_size_log2 cfg < 2 ^ 32) ranges.
Proof.
  intros Hcfg [Hs Hb]. apply ranges_sorted_lengths in Hs.
  destruct (page_size_value Hcfg) as [_ Hpos]. destruct Hcfg as [_ Hk].
  unfold ranges_in_buffer in Hb. rewrite Forall_forall in *.
  intros r Hr. specialize (Hs r Hr). specialize (Hb r Hr). simpl in *.
  split; [lia | nia].
Qed.

Lemma UploadRanges_returns fuel ranges st :
  Config_ok cfg -> @pool_grants_within Pool pool_ops ->
  upload_ranges_ok cfg ranges -> enough_fuel fuel ranges ->
  upload_buffer_pool_ st <> None ->
  exists b st', UploadRanges cfg fuel ranges st = Ok (b, st').
Proof.
  intros Hcfg Hpool Hok Hfuel Hp.
  destruct ranges as [| r rs]; [eexists _, _; reflexivity |].
  rewrite UploadRanges_unfold.
  rewrite (Use_runs _ _ _ (Use_transfer_precondition _)).
  match goal with
  | |- context [upload_ranges_loop cfg fuel ?sub (r :: rs) ?prev ?s] =>
      destruct (upload_ranges_loop_returns (r :: rs) fuel sub prev s Hcfg Hpool
                  (upload_ranges_ok_fit (r :: rs) Hcfg Hok) Hfuel)
        as (ok & prev' & st3 & -> & Hinv)
  end.
  - simpl. repeat case_if; simpl; assumption.
  - left. reflexivity.
  - destruct (upload_regions_ st3) as [| x xs]; [eauto |].
    destruct Hinv as [Hnil | Hprev]; [discriminate Hnil |].
    destruct (Z.eqb_spec prev' VK_NULL_HANDLE); [contradiction |].
    rewrite andb_false_r. eauto.
Qed.

(** *** The hypotheses under which a call is known to return *)

Lemma ended_requests b new :
  ended b new -> (b = false <-> In None (requests new)).
Proof.
  destruct b; simpl.
  - intros H. split; [discriminate |]. intros Hin.
    rewrite Forall_forall in H. now specialize (H None Hin).
  - intros (before & s0 & z0 & a0 & -> & _). split; [| reflexivity].
    intros _. rewrite requests_app. apply in_or_app. right. now left.
Qed.

Lemma Use_calls st usage written_range st1 :
  Use cfg usage written_range st = Ok (tt, st1) ->
  exists barrier,
    calls st1 = calls st ++ barrier /\
    copy_commands barrier = [] /\ chunks barrier = [] /\
    requests barrier = [] /\ notifications barrier = [].
Proof.
  unfold Use, bind, assert_true, gets, modify, call, ret.
  case_if; [discriminate |].
  destruct (GetBarrier cfg (last_usage_ st)), (GetBarrier cfg usage).
  repeat case_if; intros H; inversion H; subst; simpl;
    (eexists; split; [reflexivity |]) || (exists []; split; [now rewrite app_nil_r |]);
    repeat split.
Qed.

Lemma ungroup_regions groups :
  map snd (ungroup groups) = concat (map snd groups).
Proof.
  unfold ungroup. induction groups as [| [b rs] gs IH]; [reflexivity |].
  simpl. rewrite map_app, IH, map_map. simpl. now rewrite map_id.
Qed.

(** The regions of the copy commands of a call are those of the chunks it
    staged, in order. *)
Lemma UploadRanges_copies_chunks fuel ranges st b st' :
  UploadRanges cfg fuel ranges st = Ok (b, st') ->
  exists new,
    calls st' = calls st ++ new /\
    concat (map snd (copy_commands new)) = map snd (chunks new).
Proof.
  intros H. destruct ranges as [| r rs].
  - inversion H; subst. exists []. now rewrite app_nil_r.
  - apply UploadRanges_run in H
      as (st1 & new & flush & HUse & Hc & _ & _ & _ & _ & _ & _ & Hruns & _).
    apply Use_calls in HUse as (barrier & Hc1 & Hcc & Hch & _ & _).
    exists (barrier ++ new ++ flush). split.
    + now rewrite Hc, Hc1, <- app_assoc.
    + rewrite copy_commands_app, chunks_app, Hcc, Hch. simpl.
      rewrite <- (group_runs_ungroup (chunks (new ++ flush))).
      rewrite ungroup_regions, <- Hruns. unfold issued_runs. now rewrite map_map.
Qed.

Lemma Use_state st usage written_range st1 :
  Use_precondition cfg usage written_range ->
  Use cfg usage written_range st = Ok (tt, st1) ->
  last_usage_ st1 = usage /\ last_written_range_ st1 = clip cfg written_range.
Proof.
  intros Hpre H. rewrite (Use_runs _ _ _ Hpre) in H. inversion H; subst. simpl.
  split; [| reflexivity].
  destruct (Usage_eqb_spec (last_usage_ st) usage) as [Heq | Hne];
    destruct (snd (last_written_range_ st) =? 0); simpl; congruence.
Qed.

(** C5: within one call of [UploadRanges], the copy commands are the
    maximal runs of consecutive chunks staged in the same staging buffer,
    one command per run, carrying the regions of the run in order and
    copying from the run's staging buffer to [buffer_]: a change of
    staging buffer closes the pending run as one command from the previous
    buffer, and what is pending after the last range goes out as a last
    command.  The call returns when the ranges are well-formed, the pool
    keeps its contract and the fuel covers the longest range. *)
Theorem UploadRanges_coalesces fuel ranges st :
  (Config_ok cfg -> @pool_grants_within Pool pool_ops ->
   upload_ranges_ok cfg ranges -> enough_fuel fuel ranges ->
   upload_buffer_pool_ st <> None ->
   exists b st', UploadRanges cfg fuel ranges st = Ok (b, st')) /\
  (forall b st',
      UploadRanges cfg fuel ranges st = Ok (b, st') ->
      exists new,
        calls st' = calls st ++ new /\
        copy_commands new =
          map (fun g => (fst g, buffer_ st, snd g)) (group_runs (chunks new)) /\
        runs_differ (group_runs (chunks new)) /\
        ungroup (group_runs (chunks new)) = chunks new /\
        Forall (fun g => snd g <> []) (group_runs (chunks new))).
Proof.
  split; [apply UploadRanges_returns |].
  intros b st' H. destruct ranges as [| r rs].
  - inversion H; subst. exists []. rewrite app_nil_r. simpl. repeat split; constructor.
  - apply UploadRanges_run in H
      as (st1 & new & flush & HUse & Hc & _ & _ & _ & _ & _ & _ & Hruns & Hdst).
    apply Use_calls in HUse as (barrier & Hc1 & Hcc & Hch & _ & _).
    exists (barrier ++ new ++ flush).
    rewrite chunks_app, Hch, copy_commands_app, Hcc. simpl.
    splits.
    + now rewrite Hc, Hc1, <- app_assoc.
    + rewrite <- Hruns. unfold issued_runs. rewrite map_map.
      clear Hruns. induction (copy_commands (new ++ flush)) as [| [[src dst] rs'] l IH];
        [reflexivity |].
      inversion Hdst; subst. simpl in *. subst dst. f_equal. now apply IH.
    + apply group_runs_differ.
    + apply group_runs_ungroup.
    + apply group_runs_nonempty.
Qed.

(** C6: when a staging request fails during [UploadRanges], the call
    returns false; the failed request is the last call on the pool and no
    chunk is staged nor range notified after it; the only call that can
    follow it is the copy command of the regions pending at that point, so
    that the region of every chunk staged before is in a copy command.
    Conversely the call returns true when no request failed. *)
Theorem UploadRanges_allocation_failure fuel ranges st :
  (Config_ok cfg -> @pool_grants_within Pool pool_ops ->
   upload_ranges_ok cfg ranges -> enough_fuel fuel ranges ->
   upload_buffer_pool_ st <> None ->
   exists b st', UploadRanges cfg fuel ranges st = Ok (b, st')) /\
  (forall b st',
      UploadRanges cfg fuel ranges st = Ok (b, st') ->
      exists new,
        calls st' = calls st ++ new /\
        (b = false <-> In None (requests new)) /\
        (b = false ->
           exists before submission size alignment flush,
             new = before ++
                   [PoolRequestPartial submission size alignment None] ++ flush /\
             Forall is_granted (requests before) /\
             (flush = [] \/
              exists src regions,
                flush = [CmdVkCopyBuffer src (buffer_ st) regions])) /\
        concat (map snd (copy_commands new)) = map snd (chunks new)).
Proof.
  split; [apply UploadRanges_returns |].
  intros b st' H. destruct ranges as [| r rs].
  - inversion H; subst. exists []. rewrite app_nil_r. simpl. splits; trivial.
    + split; [discriminate | contradiction].
    + discriminate.
  - apply UploadRanges_run in H
      as (st1 & new & flush & HUse & Hc & _ & _ & _ & He & _ & Hflush & Hruns & _).
    apply Use_calls in HUse as (barrier & Hc1 & Hcc & Hch & Hrq & _).
    exists (barrier ++ new ++ flush).
    assert (Hrf : requests flush = []).
    { destruct Hflush as [-> | (src & regions & ->)]; reflexivity. }
    splits.
    + now rewrite Hc, Hc1, <- app_assoc.
    + rewrite !requests_app, Hrq, Hrf, app_nil_r. simpl. now apply ended_requests.
    + intros ->. simpl in He. destruct He as (before & s0 & z0 & a0 & -> & Hg).
      exists (barrier ++ before), s0, z0, a0, flush. splits.
      * now rewrite <- !app_assoc.
      * rewrite requests_app, Hrq. exact Hg.
      * exact Hflush.
    + rewrite copy_commands_app, chunks_app, Hcc, Hch. simpl.
      rewrite <- (group_runs_ungroup (chunks (new ++ flush))).
      rewrite ungroup_regions, <- Hruns. unfold issued_runs. now rewrite map_map.
Qed.


(** *** The span handed to [Use] *)

Lemma last_In {A} (l : list A) (d : A) : l <> [] -> In (last l d) l.
Proof.
  induction l as [| x [| y l'] IH]; intros H; [contradiction | now left |].
  right. apply IH. discriminate.
Qed.

Lemma upload_span_value r rs :
  Config_ok cfg -> upload_ranges_ok cfg (r :: rs) ->
  let back := last (r :: rs) (0, 0) in
  clip cfg (upload_span cfg (r :: rs)) =
  (fst r * 2 ^ page_size_log2 cfg,
   (fst back + snd back - fst r) * 2 ^ page_size_log2 cfg).
Proof.
  intros Hcfg [Hs Hb] back.
  destruct (page_size_value Hcfg) as [_ Hpos]. destruct Hcfg as [[Hl0 Hl1] Hk].
  assert (Hin : In back (r :: rs)) by (apply last_In; discriminate).
  pose proof (ranges_sorted_lengths _ _ Hs) as Hall.
  unfold ranges_in_buffer in Hb. rewrite Forall_forall in Hb, Hall.
  pose proof (Hb back Hin) as Hbb. pose proof (Hall r (or_introl eq_refl)) as Hr.
  pose proof (Hb r (or_introl eq_refl)) as Hbr.
  assert (Hord : fst r <= fst back /\ 0 <= snd back).
  { destruct Hin as [<- | Hin]; [lia |].
    destruct r as [start len]. destruct Hs as (_ & _ & Hs').
    apply ranges_sorted_lengths in Hs'. rewrite Forall_forall in Hs'.
    specialize (Hs' back Hin). simpl in *. lia. }
  unfold clip, upload_span, shl32, wrap32. simpl hd. fold back. simpl fst. simpl snd.
  rewrite !Z.shiftl_mul_pow2 by assumption.
  set (p := 2 ^ page_size_log2 cfg) in *.
  rewrite (Z.mod_small (fst back + snd back - fst r)) by nia.
  rewrite !Z.mod_small by nia.
  f_equal; lia || nia.
Qed.

Lemma chunk_destinations_app l1 l2 :
  chunk_destinations (l1 ++ l2) = chunk_destinations l1 ++ chunk_destinations l2.
Proof. unfold chunk_destinations. now rewrite chunks_app, map_app. Qed.

(** *** Requests granted in full stage each range as one chunk *)

Lemma granted_in_full_app l1 l2 :
  granted_in_full (l1 ++ l2) <-> granted_in_full l1 /\ granted_in_full l2.
Proof. apply Forall_app. Qed.

Lemma upload_range_granted fuel sub start len prev st ok prev' st' :
  Config_ok cfg -> 0 <= len -> len * 2 ^ page_size_log2 cfg < 2 ^ 32 ->
  upload_range cfg fuel sub start len prev st = Ok ((ok, prev'), st') ->
  exists new,
    calls st' = calls st ++ new /\
    (granted_in_full new ->
     ok = true /\
     chunk_destinations new = map (notified cfg) (nonempty_ranges [(start, len)])).
Proof.
  intros Hcfg Hlen Hfit H.
  destruct fuel as [| fuel]; [discriminate H |].
  rewrite upload_range_unfold in H.
  unfold nonempty_ranges. simpl filter.
  destruct (Z.eqb_spec len 0) as [-> | Hnz].
  { injection H as <- <- <-. exists []. rewrite app_nil_r.
    split; [reflexivity |]. intros _. split; reflexivity. }
  simpl negb. cbv iota.
  destruct (upload_buffer_pool_ st) as [pool |]; [| discriminate H].
  cbv zeta in H.
  destruct (RequestPartial pool sub _ _) as [[a |] pool'].
  - destruct (asserts_enabled cfg && (prev =? VK_NULL_HANDLE)
              && negb (is_empty (upload_regions_ st))); [discriminate H |].
    pose proof H as Hrec.
    apply upload_range_run in Hrec as (new' & (Hc' & _) & _).
    pose proof Hc' as Hc. rewrite stage_chunk_calls in Hc. simpl in Hc.
    eexists. split; [rewrite Hc, <- !app_assoc; reflexivity |].
    intros Hfull.
    assert (Hsize : upload_buffer_size a = shl32 len (page_size_log2 cfg)).
    { apply Forall_inv in Hfull. destruct Hfull as (a0 & Ha & Hs).
      injection Ha as <-. exact Hs. }
    destruct (page_size_value Hcfg) as [_ Hpos].
    assert (Hpages : granted_pages cfg a = len).
    { unfold granted_pages, wrap32.
      rewrite Hsize, (request_size_value len Hcfg) by lia.
      destruct Hcfg as [[Hl0 Hl1] _].
      rewrite Z.shiftr_div_pow2, Z.div_mul by lia.
      apply Z.mod_small. nia. }
    rewrite Hpages, Z.sub_diag in H. change (wrap32 0) with 0 in H.
    destruct fuel as [| fuel]; [discriminate H |].
    rewrite upload_range_unfold in H. simpl in H. injection H as <- <- <-.
    rewrite <- (app_nil_r (calls (stage_chunk _ _ _ _ _))) in Hc' at 1.
    apply app_inv_head in Hc'. subst new'.
    split; [reflexivity |].
    unfold chunk_destinations, chunk_calls, notified. simpl.
    rewrite Hsize. case_if; reflexivity.
  - injection H as <- <- <-. eexists. split; [reflexivity |].
    intros Hfull. exfalso.
    apply Forall_inv in Hfull. destruct Hfull as (a0 & Ha & _). discriminate Ha.
Qed.

Lemma upload_ranges_loop_granted ranges : forall fuel sub prev st ok prev' st',
  Config_ok cfg ->
  Forall (fun r => 0 <= snd r /\ snd r * 2 ^ page_size_log2 cfg < 2 ^ 32) ranges ->
  upload_ranges_loop cfg fuel sub ranges prev st = Ok ((ok, prev'), st') ->
  exists new,
    calls st' = calls st ++ new /\
    (granted_in_full new ->
     ok = true /\
     chunk_destinations new = map (notified cfg) (nonempty_ranges ranges)).
Proof.
  induction ranges as [| [start len] rest IH];
    intros fuel sub prev st ok prev' st' Hcfg Hfit H.
  - injection H as <- <- <-. exists []. rewrite app_nil_r.
    split; [reflexivity |]. intros _. split; reflexivity.
  - inversion Hfit as [| ? ? [Hlen Hsz] Hfit']; subst. cbn [snd] in Hlen, Hsz.
    simpl in H. unfold bind at 1 in H. unfold call, modify in H.
    unfold bind at 1 in H.
    destruct (upload_range cfg fuel sub start len prev _)
      as [[[ok1 prev1] st1] | | |] eqn:Hr; try discriminate H.
    apply (upload_range_granted _ _ _ _ _ _ _ _ _ Hcfg Hlen Hsz) in Hr
      as (n1 & Hc1 & Hg1).
    simpl in Hc1.
    assert (Hsplit : map (notified cfg) (nonempty_ranges ((start, len) :: rest)) =
                     map (notified cfg) (nonempty_ranges [(start, len)]) ++
                     map (notified cfg) (nonempty_ranges rest)).
    { unfold nonempty_ranges. simpl. destruct (len =? 0); reflexivity. }
    destruct ok1.
    + apply IH in H as (n2 & Hc2 & Hg2); try assumption.
      exists ([WriteMemoryRead (shl32 start (page_size_log2 cfg))
                 (shl32 len (page_size_log2 cfg))] ++ n1 ++ n2).
      split; [rewrite Hc2, Hc1, <- !app_assoc; reflexivity |].
      intros Hfull. apply granted_in_full_app in Hfull as [_ Hfull].
      apply granted_in_full_app in Hfull as [Hf1 Hf2].
      destruct (Hg1 Hf1) as [_ Hd1]. destruct (Hg2 Hf2) as [-> Hd2].
      split; [reflexivity |].
      rewrite !chunk_destinations_app, Hd1, Hd2, Hsplit. reflexivity.
    + injection H as <- <- <-.
      exists ([WriteMemoryRead (shl32 start (page_size_log2 cfg))
                 (shl32 len (page_size_log2 cfg))] ++ n1).
      split; [rewrite Hc1, <- !app_assoc; reflexivity |].
      intros Hfull. apply granted_in_full_app in Hfull as [_ Hf1].
      destruct (Hg1 Hf1) as [Hok _]. discriminate Hok.
Qed.

Lemma UploadRanges_granted fuel ranges st b st' :
  Config_ok cfg -> upload_ranges_ok cfg ranges ->
  UploadRanges cfg fuel ranges st = Ok (b, st') ->
  exists new,
    calls st' = calls st ++ new /\
    (granted_in_full new ->
     b = true /\
     copy_destinations new = map (notified cfg) (nonempty_ranges ranges)).
Proof.
  intros Hcfg Hok H.
  destruct (UploadRanges_copies_chunks _ _ _ _ _ H) as (new & Hcn & Hcc).
  assert (Hcd : copy_destinations new = chunk_destinations new).
  { unfold copy_destinations, chunk_destinations. now rewrite Hcc, map_map. }
  exists new. split; [exact Hcn |].
  destruct ranges as [| r rs].
  { injection H as <- <-.
    rewrite <- (app_nil_r (calls st)) in Hcn at 1. apply app_inv_head in Hcn.
    subst new. intros _. split; reflexivity. }
  rewrite UploadRanges_unfold in H.
  destruct (Use cfg kTransferDestination _ st) as [[[] st1] | | |] eqn:HUse;
    try discriminate H.
  destruct (Use_calls _ _ _ _ HUse) as (barrier & Hc1 & _ & Hchb & _).
  destruct (upload_ranges_loop cfg fuel _ _ _ _) as [[[ok prev] st3] | | |] eqn:Hloop;
    try discriminate H.
  assert (Hend : ok = b /\
                 exists flush, calls st' = calls st3 ++ flush /\ chunks flush = []).
  { destruct (upload_regions_ st3) as [| x xs].
    - injection H as <- <-. split; [reflexivity |]. exists []. now rewrite app_nil_r.
    - destruct (asserts_enabled cfg && (prev =? VK_NULL_HANDLE)); [discriminate H |].
      injection H as <- <-. split; [reflexivity |]. eexists. split; reflexivity. }
  destruct Hend as (<- & flush & Hc3 & Hchf).
  apply (upload_ranges_loop_granted _ _ _ _ _ _ _ _ Hcfg
           (upload_ranges_ok_fit (r :: rs) Hcfg Hok)) in Hloop as (loop & Hc2 & Hg).
  simpl in Hc2.
  assert (Hnew : new = barrier ++ loop ++ flush).
  { apply (app_inv_head (calls st)).
    now rewrite <- Hcn, Hc3, Hc2, Hc1, <- !app_assoc. }
  intros Hfull. rewrite Hnew in Hfull.
  apply granted_in_full_app in Hfull as [_ Hfull].
  apply granted_in_full_app in Hfull as [Hfull _].
  destruct (Hg Hfull) as [-> Hd]. split; [reflexivity |].
  assert (Hdb : chunk_destinations barrier = [])
    by (unfold chunk_destinations; now rewrite Hchb).
  assert (Hdf : chunk_destinations flush = [])
    by (unfold chunk_destinations; now rewrite Hchf).
  rewrite Hcd, Hnew, !chunk_destinations_app, Hd, Hdb, Hdf. simpl.
  now rewrite app_nil_r.
Qed.

(** C4, as the code has it: on a batch that is not empty, [UploadRanges]
    returns (for ascending ranges inside the buffer, a pool that keeps its
    contract and fuel for the longest range) and calls
    [Use(kTransferDestination, span)] once, before anything else: nothing
    after that call records a barrier, and the span, clipped, is what the
    call leaves in [last_written_range_].  The single up-front barrier is
    the one this [Use] records: none when the usage was already
    [kTransferDestination] and the stored written range is empty, one over
    the stored written range when the usage was already
    [kTransferDestination] and that range is not empty, one over the whole
    buffer when the usage changes.  For ascending ranges inside the buffer
    the span starts at the first range's first byte and is as long as up
    to the last range's end.  With 4096-byte pages and the ranges
    [(0,4); (10,2)], the written range handed to [Use] and recorded is
    (0, 49152) and, when every request of the call is granted in full,
    the call returns true and the copy destinations are exactly
    (0, 16384) and (40960, 8192). *)
Theorem UploadRanges_single_Use fuel r rs st :
  (Config_ok cfg -> @pool_grants_within Pool pool_ops ->
   upload_ranges_ok cfg (r :: rs) -> enough_fuel fuel (r :: rs) ->
   upload_buffer_pool_ st <> None ->
   exists b st', UploadRanges cfg fuel (r :: rs) st = Ok (b, st')) /\
  (forall b st',
      UploadRanges cfg fuel (r :: rs) st = Ok (b, st') ->
      exists st1 rest,
        Use cfg kTransferDestination (upload_span cfg (r :: rs)) st = Ok (tt, st1) /\
        calls st' = calls st1 ++ rest /\
        barriers rest = [] /\
        (last_usage_ st = kTransferDestination ->
         snd (last_written_range_ st) = 0 -> calls st1 = calls st) /\
        (last_usage_ st = kTransferDestination ->
         snd (last_written_range_ st) <> 0 ->
         calls st1 = calls st ++
           [CmdVkPipelineBarrier VK_PIPELINE_STAGE_TRANSFER_BIT VK_PIPELINE_STAGE_TRANSFER_BIT
              (VkBufferMemoryBarrier.mk
                 VK_ACCESS_TRANSFER_WRITE_BIT VK_ACCESS_TRANSFER_WRITE_BIT
                 VK_QUEUE_FAMILY_IGNORED VK_QUEUE_FAMILY_IGNORED (buffer_ st)
                 (fst (last_written_range_ st)) (snd (last_written_range_ st)))]) /\
        (last_usage_ st <> kTransferDestination ->
         calls st1 = calls st ++
           [CmdVkPipelineBarrier
              (fst (GetBarrier cfg (last_usage_ st))) VK_PIPELINE_STAGE_TRANSFER_BIT
              (VkBufferMemoryBarrier.mk
                 (snd (GetBarrier cfg (last_usage_ st))) VK_ACCESS_TRANSFER_WRITE_BIT
                 VK_QUEUE_FAMILY_IGNORED VK_QUEUE_FAMILY_IGNORED (buffer_ st)
                 0 VK_WHOLE_SIZE)]) /\
        last_usage_ st' = kTransferDestination /\
        last_written_range_ st' = clip cfg (upload_span cfg (r :: rs))) /\
  (Config_ok cfg -> upload_ranges_ok cfg (r :: rs) ->
   clip cfg (upload_span cfg (r :: rs)) =
   (fst r * 2 ^ page_size_log2 cfg,
    (fst (last (r :: rs) (0, 0)) + snd (last (r :: rs) (0, 0)) - fst r)
    * 2 ^ page_size_log2 cfg)) /\
  (page_size_log2 cfg = 12 -> 49152 <= kBufferSize cfg < 2 ^ 32 ->
   forall b st',
     UploadRanges cfg fuel [(0, 4); (10, 2)] st = Ok (b, st') ->
     exists new,
       calls st' = calls st ++ new /\
       last_written_range_ st' = (0, 49152) /\
       (granted_in_full new ->
        b = true /\ copy_destinations new = [(0, 16384); (40960, 8192)])).
Proof.
  split; [apply UploadRanges_returns |]. splits.
  - intros b st' H.
    apply UploadRanges_run in H
      as (st1 & new & flush & HUse & Hc & Hs & _ & Hb & _).
    exists st1, (new ++ flush).
    destruct (Use_state _ _ _ _ (Use_transfer_precondition _) HUse) as [Hu Hw].
    destruct Hs as (_ & _ & _ & Hlu & Hlw & _).
    pose proof HUse as HUse'.
    rewrite (Use_runs _ _ _ (Use_transfer_precondition _)) in HUse'.
    injection HUse' as Hst1. unfold Use_barrier in Hst1.
    split; [exact HUse |]. split; [exact Hc |]. split; [exact Hb |].
    split; [| split; [| split; [| split; congruence]]];
      destruct (Usage_eqb_spec (last_usage_ st) kTransferDestination) as [Heq | Hne];
      destruct (Z.eqb_spec (snd (last_written_range_ st)) 0) as [Hz | Hnz];
      simpl in Hst1; rewrite <- Hst1; intros; try contradiction; try congruence;
      simpl; rewrite ?Heq; reflexivity.
  - apply upload_span_value.
  - intros Hl Hk b st' H.
    assert (Hcfg : Config_ok cfg) by (unfold Config_ok; rewrite Hl; lia).
    assert (Hok : upload_ranges_ok cfg [(0, 4); (10, 2)]).
    { split; [simpl; lia |]. unfold ranges_in_buffer. rewrite Hl.
      repeat constructor; simpl; lia. }
    destruct (UploadRanges_granted _ _ _ _ _ Hcfg Hok H) as (new & Hc & Hg).
    exists new. splits; trivial.
    + apply UploadRanges_run in H as (st1 & n & f & HUse & _ & Hs & _).
      destruct (Use_state _ _ _ _ (Use_transfer_precondition _) HUse) as [_ Hw].
      destruct Hs as (_ & _ & _ & _ & Hlw & _). rewrite Hlw, Hw.
      rewrite (upload_span_value (0, 4) [(10, 2)] Hcfg Hok). simpl. rewrite Hl.
      reflexivity.
    + intros Hfull. destruct (Hg Hfull) as [-> Hd]. split; [reflexivity |].
      rewrite Hd. unfold nonempty_ranges, notified. simpl. rewrite Hl. reflexivity.
Qed.

(** ** Shutdown and Initialize *)

Lemma for_each_free l : forall st,
  for_each l (fun memory => call (vkFreeMemory memory)) st =
  Ok (tt, set_calls (calls st ++ map vkFreeMemory l) st).
Proof.
  induction l as [| m l IH]; intros st.
  - simpl. rewrite app_nil_r. destruct st; reflexivity.
  - simpl. unfold bind, call, modify. rewrite IH. simpl.
    now rewrite <- app_assoc.
Qed.

(** Stepping through a monadic program. *)
Lemma bind_modify {A} f (k : unit -> M A) st : bind (modify f) k st = k tt (f st).
Proof. reflexivity. Qed.

Lemma bind_gets {A B} (f : State -> A) (k : A -> M B) st : bind (gets f) k st = k (f st) st.
Proof. reflexivity. Qed.

Lemma bind_call {A} c (k : unit -> M A) st : bind (call c) k st = k tt (record c st).
Proof. reflexivity. Qed.

Lemma bind_ret {A B} (a : A) (k : A -> M B) st : bind (ret a) k st = k a st.
Proof. reflexivity. Qed.

Lemma bind_assoc {A B C} (m : M A) (k1 : A -> M B) (k2 : B -> M C) st :
  bind (bind m k1) k2 st = bind m (fun a => bind (k1 a) k2) st.
Proof. unfold bind. destruct (m st) as [[a s'] | | |]; reflexivity. Qed.

Lemma bind_ok {A B} (m : M A) (k : A -> M B) st a st' :
  m st = Ok (a, st') -> bind m k st = k a st'.
Proof. unfold bind. now intros ->. Qed.

Ltac mstep :=
  repeat first [ rewrite bind_assoc | rewrite bind_modify | rewrite bind_gets
               | rewrite bind_call | rewrite bind_ret ];
  cbv beta.

Lemma nth_hd_tl {A} (l : list A) d :
  nth 0 l d = hd d l /\ nth 1 l d = hd d (tl l) /\ nth 2 l d = hd d (tl (tl l)).
Proof. destruct l as [| a [| b [| c l]]]; repeat split. Qed.

Lemma State_eq st1 st2 :
  buffer_ st1 = buffer_ st2 ->
  buffer_memory_type_ st1 = buffer_memory_type_ st2 ->
  buffer_memory_ st1 = buffer_memory_ st2 ->
  buffer_memory_allocated_ st1 = buffer_memory_allocated_ st2 ->
  last_usage_ st1 = last_usage_ st2 ->
  last_written_range_ st1 = last_written_range_ st2 ->
  upload_buffer_pool_ st1 = upload_buffer_pool_ st2 ->
  upload_regions_ st1 = upload_regions_ st2 ->
  calls st1 = calls st2 ->
  device st1 = device st2 ->
  submission_current st1 = submission_current st2 ->
  submission_completed st1 = submission_completed st2 ->
  st1 = st2.
Proof. destruct st1, st2. simpl. intros. subst. reflexivity. Qed.

Lemma Shutdown_eq from_destructor st :
  Shutdown from_destructor st = Ok (tt, shut_down from_destructor st).
Proof.
  unfold Shutdown, DestroyAndNullHandle_buffer_.
  mstep. simpl buffer_.
  destruct (Z.eqb_spec (buffer_ st) VK_NULL_HANDLE) as [Hb | Hb]; mstep;
    rewrite (bind_ok _ _ _ _ _ (for_each_free _ _)); mstep;
    destruct from_destructor; cbn [negb]; unfold call, modify, ret;
    do 2 f_equal; apply State_eq; unfold shut_down, Shutdown_calls; simpl;
    try reflexivity; try exact Hb;
    destruct (Z.eqb_spec (buffer_ st) VK_NULL_HANDLE); try contradiction;
    simpl; rewrite <- ?app_assoc, ?app_nil_r; reflexivity.
Qed.

Local Arguments Shutdown : simpl never.

(** *** Stepping through the device calls *)

Lemma bind_create {A} info (k : VkResult -> M A) st :
  bind (dfn_vkCreateBuffer info) k st =
  if next_results st 0 =? VK_SUCCESS
  then k (next_results st 0)
         (record (vkCreateBuffer info (next_results st 0)
                    (Z.pos (vk_next_handle (device st))))
            (set_buffer_ (Z.pos (vk_next_handle (device st)))
               (set_device (use_handle (use_result (device st))) st)))
  else k (next_results st 0)
         (record (vkCreateBuffer info (next_results st 0) VK_NULL_HANDLE)
            (set_device (use_result (device st)) st)).
Proof.
  unfold bind, dfn_vkCreateBuffer, next_results.
  destruct (nth_hd_tl (vk_results (device st)) VK_SUCCESS) as (-> & _).
  cbv zeta. now destruct (hd VK_SUCCESS (vk_results (device st)) =? VK_SUCCESS).
Qed.

Lemma bind_requirements {A} (k : VkMemoryRequirements.t -> M A) st :
  bind dfn_vkGetBufferMemoryRequirements k st =
  k (vk_requirements (device st))
    (record (vkGetBufferMemoryRequirements (buffer_ st)) st).
Proof. reflexivity. Qed.

Lemma bind_allocate {A} size type (k : VkResult * VkDeviceMemory -> M A) st :
  bind (dfn_vkAllocateMemory size type) k st =
  if next_results st 0 =? VK_SUCCESS
  then k (next_results st 0, Z.pos (vk_next_handle (device st)))
         (record (vkAllocateMemory size type (next_results st 0)
                    (Z.pos (vk_next_handle (device st))))
            (set_device (use_handle (use_result (device st))) st))
  else k (next_results st 0, VK_NULL_HANDLE)
         (record (vkAllocateMemory size type (next_results st 0) VK_NULL_HANDLE)
            (set_device (use_result (device st)) st)).
Proof.
  unfold bind, dfn_vkAllocateMemory, next_results.
  destruct (nth_hd_tl (vk_results (device st)) VK_SUCCESS) as (-> & _).
  cbv zeta. now destruct (hd VK_SUCCESS (vk_results (device st)) =? VK_SUCCESS).
Qed.

Lemma bind_bind_memory {A} memory offset (k : VkResult -> M A) st :
  bind (dfn_vkBindBufferMemory memory offset) k st =
  k (next_results st 0)
    (record (vkBindBufferMemory (buffer_ st) memory offset (next_results st 0))
       (set_device (use_result (device st)) st)).
Proof.
  unfold bind, dfn_vkBindBufferMemory, next_results.
  destruct (nth_hd_tl (vk_results (device st)) VK_SUCCESS) as (-> & _).
  reflexivity.
Qed.

Lemma bind_if {A B} (c : bool) (m1 m2 : M A) (k : A -> M B) st :
  bind (if c then m1 else m2) k st = if c then bind m1 k st else bind m2 k st.
Proof. now destruct c. Qed.

Lemma bind_Shutdown {A} from_destructor (k : unit -> M A) st :
  bind (Shutdown from_destructor) k st = k tt (shut_down from_destructor st).
Proof. apply bind_ok, Shutdown_eq. Qed.

Ltac istep :=
  repeat first [ rewrite bind_assoc | rewrite bind_modify | rewrite bind_gets
               | rewrite bind_call | rewrite bind_ret | rewrite bind_Shutdown
               | rewrite bind_requirements | rewrite bind_bind_memory ];
  cbv beta iota zeta.

(** The result the device gives to the call made in state [S] is the
    [k]-th of those it held in [st]. *)
Lemma next_results_shift st (st' : @State Pool) k :
  vk_results (device st') = Nat.iter k (@tl VkResult) (vk_results (device st)) ->
  next_results st' 0 = next_results st k.
Proof.
  unfold next_results. intros ->. generalize (vk_results (device st)).
  induction k as [| k IH]; intros l; [reflexivity |].
  rewrite Nat.iter_succ_r, IH. destruct l as [| r l]; [| reflexivity].
  now destruct k.
Qed.

Ltac result_at st k :=
  match goal with
  | |- context [next_results ?S 0] =>
      lazymatch S with
      | st => fail
      | _ => rewrite (next_results_shift st S k) by reflexivity
      end
  end.

Ltac known :=
  repeat match goal with
         | H : (_ =? _) = _ |- _ => rewrite H
         | H : bit_scan_forward _ = _ |- _ => rewrite H
         end;
  cbn [negb]; cbv beta iota zeta.

Ltac go :=
  repeat (progress (known; istep; try change (Z.land 0 sparse_flags =? 0) with true)).

Lemma flat_map_free {B} (f : Call -> list B) l rest :
  (forall m, f (vkFreeMemory m) = []) ->
  flat_map f (map vkFreeMemory l ++ rest) = flat_map f rest.
Proof.
  intros Hf. induction l as [| m l IH]; [reflexivity |].
  simpl. now rewrite Hf, IH.
Qed.

Lemma freed_memory_free l rest :
  freed_memory (map vkFreeMemory l ++ rest) = l ++ freed_memory rest.
Proof.
  induction l as [| m l IH]; [reflexivity |]. simpl. now rewrite <- IH.
Qed.

Lemma ends_single {A} (x : A) : exists before, [x] = before ++ [x].
Proof. now exists []. Qed.

Lemma ends_cons {A} (a x : A) l :
  (exists before, l = before ++ [x]) -> exists before, a :: l = before ++ [x].
Proof. intros [b ->]. now exists (a :: b). Qed.

Lemma ends_app {A} (x : A) l1 l2 :
  (exists before, l2 = before ++ [x]) -> exists before, l1 ++ l2 = before ++ [x].
Proof. intros [b ->]. exists (l1 ++ b). now rewrite app_assoc. Qed.

Ltac solve_ends := repeat first [ apply ends_single | apply ends_cons | apply ends_app ].

Ltac log_norm :=
  unfold created_buffers, created_handles, allocated_handles, destroyed_buffers,
    Shutdown_calls, VK_SUCCESS in *;
  simpl;
  repeat match goal with
         | H : (_ =? _) = _ |- _ => rewrite H
         end;
  simpl;
  rewrite ?flat_map_free by reflexivity;
  rewrite ?freed_memory_free;
  simpl.

Ltac eqb_hyps :=
  repeat match goal with
         | H : (_ =? _) = true |- _ => apply Z.eqb_eq in H
         | H : (_ =? _) = false |- _ => apply Z.eqb_neq in H
         end.

Ltac solve_incl :=
  let x := fresh "x" in
  let Hx := fresh "Hx" in
  intros x Hx; simpl in Hx |- *; rewrite ?in_app_iff; simpl; intuition.

Ltac finish_run :=
  unfold ret; eexists _, _, _; split; [reflexivity |];
  split; [simpl; unfold Shutdown_calls; simpl; rewrite <- ?app_assoc; simpl; reflexivity |].

Ltac finish_failed :=
  intros _; split; [eexists; apply Shutdown_eq |];
  simpl; splits; try reflexivity;
  [ log_norm; solve_incl | log_norm; solve_incl | log_norm; solve_ends ].

(** What [Initialize] does, by the results the device gives. *)
Lemma Initialize_result st :
  exists b st' new,
    Initialize cfg st = Ok (b, st') /\
    calls st' = calls st ++ new /\
    created_buffers new = [(buffer_create_info cfg 0, next_results st 0)] /\
    (b = true <->
       next_results st 0 = VK_SUCCESS /\ device_local_type cfg st <> None /\
       next_results st 1 = VK_SUCCESS /\ next_results st 2 = VK_SUCCESS) /\
    (b = false ->
       (exists mid, Shutdown false mid = Ok (tt, st')) /\
       buffer_ st' = VK_NULL_HANDLE /\ buffer_memory_ st' = [] /\
       upload_buffer_pool_ st' = None /\
       last_usage_ st' = kTransferDestination /\ last_written_range_ st' = (0, 0) /\
       incl (created_handles new) (destroyed_buffers new) /\
       incl (allocated_handles new) (freed_memory new) /\
       exists before, new = before ++ [ShutdownCommon]).
Proof.
  unfold Initialize, InitializeWithFlags.
  istep. rewrite bind_create. result_at st 0%nat.
  destruct (next_results st 0 =? VK_SUCCESS) eqn:E1; go.
  - match goal with
    | |- context [vk_requirements (device ?S)] =>
        change (vk_requirements (device S)) with (vk_requirements (device st))
    end.
    fold (device_local_type cfg st).
    destruct (device_local_type cfg st) as [memory_type |] eqn:Eb; go.
    + rewrite bind_allocate. result_at st 1%nat.
      destruct (next_results st 1 =? VK_SUCCESS) eqn:E2; go.
      * result_at st 2%nat.
        destruct (next_results st 2 =? VK_SUCCESS) eqn:E3; go.
        -- finish_run. split; [log_norm; reflexivity |].
           eqb_hyps. split; [| discriminate].
           split; [intros _; splits; congruence | reflexivity].
        -- finish_run. split; [log_norm; reflexivity |].
           split; [eqb_hyps; split; [discriminate | intros (_ & _ & _ & ?); congruence] |].
           finish_failed.
      * finish_run. split; [log_norm; reflexivity |].
        split; [eqb_hyps; split; [discriminate | intros (_ & _ & ? & _); congruence] |].
        finish_failed.
    + finish_run. split; [log_norm; reflexivity |].
      split; [split; [discriminate | intros (_ & ? & _); congruence] |].
      finish_failed.
  - destruct (buffer_ st =? VK_NULL_HANDLE) eqn:Eb0;
      finish_run; (split; [log_norm; reflexivity |]);
      (split; [eqb_hyps; split; [discriminate | intros (? & _); congruence] |]);
      finish_failed.
Qed.

Lemma Shutdown_calls_released from_destructor st :
  destroyed_buffers (Shutdown_calls from_destructor st) =
    (if buffer_ st =? VK_NULL_HANDLE then [] else [buffer_ st]) /\
  freed_memory (Shutdown_calls from_destructor st) = buffer_memory_ st.
Proof.
  unfold Shutdown_calls, destroyed_buffers. split.
  - rewrite flat_map_app, flat_map_free by reflexivity.
    destruct (buffer_ st =? VK_NULL_HANDLE), from_destructor; reflexivity.
  - unfold freed_memory. rewrite flat_map_app. fold (freed_memory
      (map vkFreeMemory (buffer_memory_ st) ++ (if from_destructor then [] else [ShutdownCommon]))).
    rewrite freed_memory_free.
    destruct (buffer_ st =? VK_NULL_HANDLE), from_destructor; simpl;
      now rewrite app_nil_r.
Qed.

(** C7, as the code has it: [Initialize] attempts the creation of the
    buffer once, with flags 0, and does not retry it when it fails (the
    retry is for a creation with the sparse flags set, which this
    [Initialize] never requests).  It returns false exactly when the
    creation fails, no device-local memory type is found, the allocation
    fails or the binding fails; it then has called [Shutdown], which leaves
    no resource behind: the buffer handle is null, the list of allocations
    is empty, the pool is released, and every handle the device handed out
    during the call was destroyed or freed. *)
Theorem Initialize_failure st :
  exists b st' new,
    Initialize cfg st = Ok (b, st') /\
    calls st' = calls st ++ new /\
    created_buffers new = [(buffer_create_info cfg 0, next_results st 0)] /\
    (b = false <->
       next_results st 0 <> VK_SUCCESS \/ device_local_type cfg st = None \/
       next_results st 1 <> VK_SUCCESS \/ next_results st 2 <> VK_SUCCESS) /\
    (b = false ->
       (exists mid, Shutdown false mid = Ok (tt, st')) /\
       (exists before, new = before ++ [ShutdownCommon]) /\
       buffer_ st' = VK_NULL_HANDLE /\ buffer_memory_ st' = [] /\
       upload_buffer_pool_ st' = None /\
       incl (created_handles new) (destroyed_buffers new) /\
       incl (allocated_handles new) (freed_memory new)).
Proof.
  destruct (Initialize_result st)
    as (b & st' & new & Hrun & Hc & Hcreate & Htrue & Hfalse).
  exists b, st', new. splits; trivial.
  - split.
    + intros ->.
      destruct (Z.eq_dec (next_results st 0) VK_SUCCESS) as [H1 | H1]; [| now left].
      destruct (device_local_type cfg st) as [t |] eqn:Ht; [| right; now left].
      destruct (Z.eq_dec (next_results st 1) VK_SUCCESS) as [H2 | H2];
        [| right; right; now left].
      destruct (Z.eq_dec (next_results st 2) VK_SUCCESS) as [H3 | H3];
        [| right; right; now right].
      assert (false = true) by (apply Htrue; splits; congruence). discriminate.
    + intros Hfail. destruct b; [| reflexivity].
      destruct (proj1 Htrue eq_refl) as (H1 & H2 & H3 & H4).
      destruct Hfail as [H | [H | [H | H]]]; contradiction.
  - intros Hb. destruct (Hfalse Hb) as (H1 & H2 & H3 & H4 & _ & _ & H7 & H8 & H9).
    splits; assumption.
Qed.

(** C9: [Shutdown] can be called twice in a row, or after an [Initialize]
    that failed: the first call destroys the buffer if there is one and
    frees each backing allocation once, the second call destroys and frees
    nothing, and a call after a failed [Initialize] destroys and frees
    nothing either.  After each call the buffer handle is null, the usage
    state is (kTransferDestination, (0, 0)) and the list of allocations is
    empty. *)
Theorem Shutdown_idempotent from_destructor1 from_destructor2 st :
  exists st1 st2 new1 new2,
    Shutdown from_destructor1 st = Ok (tt, st1) /\
    Shutdown from_destructor2 st1 = Ok (tt, st2) /\
    calls st1 = calls st ++ new1 /\ calls st2 = calls st1 ++ new2 /\
    destroyed_buffers new1 =
      (if buffer_ st =? VK_NULL_HANDLE then [] else [buffer_ st]) /\
    freed_memory new1 = buffer_memory_ st /\
    destroyed_buffers new2 = [] /\ freed_memory new2 = [] /\
    (forall s, s = st1 \/ s = st2 ->
       buffer_ s = VK_NULL_HANDLE /\ buffer_memory_ s = [] /\
       buffer_memory_allocated_ s = [] /\ upload_buffer_pool_ s = None /\
       last_usage_ s = kTransferDestination /\ last_written_range_ s = (0, 0)) /\
    (forall st0, Initialize cfg st0 = Ok (false, st) ->
       destroyed_buffers new1 = [] /\ freed_memory new1 = []) /\
    (NoDup (buffer_memory_ st) ->
       NoDup (freed_memory (new1 ++ new2)) /\
       NoDup (destroyed_buffers (new1 ++ new2))).
Proof.
  exists (shut_down from_destructor1 st),
         (shut_down from_destructor2 (shut_down from_destructor1 st)),
         (Shutdown_calls from_destructor1 st),
         (Shutdown_calls from_destructor2 (shut_down from_destructor1 st)).
  destruct (Shutdown_calls_released from_destructor1 st) as [Hd1 Hf1].
  destruct (Shutdown_calls_released from_destructor2 (shut_down from_destructor1 st))
    as [Hd2 Hf2].
  simpl in Hd2, Hf2.
  splits; trivial; try apply Shutdown_eq.
  - intros s [-> | ->]; simpl; splits; reflexivity.
  - intros st0 Hinit.
    destruct (Initialize_result st0) as (b & st' & new & Hrun & _ & _ & _ & Hfalse).
    rewrite Hinit in Hrun. inversion Hrun; subst b st'.
    destruct (Hfalse eq_refl) as (_ & Hbuf & Hmem & _).
    rewrite Hd1, Hf1, Hbuf, Hmem. split; reflexivity.
  - intros Hnd. unfold freed_memory, destroyed_buffers in *.
    rewrite !flat_map_app.
    fold (freed_memory (Shutdown_calls from_destructor1 st)).
    fold (freed_memory (Shutdown_calls from_destructor2 (shut_down from_destructor1 st))).
    fold (destroyed_buffers (Shutdown_calls from_destructor1 st)).
    fold (destroyed_buffers (Shutdown_calls from_destructor2 (shut_down from_destructor1 st))).
    unfold freed_memory, destroyed_buffers in Hd1, Hf1, Hd2, Hf2.
    unfold freed_memory, destroyed_buffers.
    rewrite Hd1, Hf1, Hd2, Hf2, !app_nil_r. split; [exact Hnd |].
    destruct (buffer_ st =? VK_NULL_HANDLE); repeat constructor. intros [].
Qed.

(** *** The pending regions across calls *)

Lemma Initialize_regions st b st' :
  Initialize cfg st = Ok (b, st') -> upload_regions_ st' = upload_regions_ st.
Proof.
  unfold Initialize, InitializeWithFlags.
  istep. rewrite bind_create. result_at st 0%nat.
  destruct (next_results st 0 =? VK_SUCCESS) eqn:E1; go.
  - match goal with
    | |- context [vk_requirements (device ?S)] =>
        change (vk_requirements (device S)) with (vk_requirements (device st))
    end.
    fold (device_local_type cfg st).
    destruct (device_local_type cfg st) as [memory_type |] eqn:Eb; go.
    + rewrite bind_allocate. result_at st 1%nat.
      destruct (next_results st 1 =? VK_SUCCESS) eqn:E2; go.
      * result_at st 2%nat.
        destruct (next_results st 2 =? VK_SUCCESS) eqn:E3; go;
          unfold ret; intros [= _ <-]; reflexivity.
      * unfold ret; intros [= _ <-]; reflexivity.
    + unfold ret; intros [= _ <-]; reflexivity.
  - unfold ret; intros [= _ <-]; reflexivity.
Qed.

Lemma Use_regions st usage written_range st1 :
  Use cfg usage written_range st = Ok (tt, st1) ->
  upload_regions_ st1 = upload_regions_ st.
Proof.
  unfold Use, bind, assert_true, gets, modify, call, ret.
  case_if; [discriminate |].
  destruct (GetBarrier cfg (last_usage_ st)), (GetBarrier cfg usage).
  repeat case_if; intros [= <-]; reflexivity.
Qed.

Lemma UploadRanges_regions fuel ranges st b st' :
  UploadRanges cfg fuel ranges st = Ok (b, st') ->
  upload_regions_ st = [] \/ ranges <> [] ->
  upload_regions_ st' = [].
Proof.
  intros H Hentry. destruct ranges as [| r rs].
  - inversion H; subst. destruct Hentry as [He | Hne]; [exact He | contradiction].
  - apply UploadRanges_run in H as (st1 & new & flush & _ & _ & _ & Hreg & _).
    exact Hreg.
Qed.

Lemma method_call_regions st st' :
  method_call cfg st st' -> upload_regions_ st = [] -> upload_regions_ st' = [].
Proof.
  intros Hcall He. destruct Hcall as [st b st' H | fd st st' H | usage wr st st' H
                                      | fuel ranges st b st' H | st st' H | st st' H].
  - now rewrite (Initialize_regions _ _ _ H).
  - rewrite Shutdown_eq in H. injection H as <-. exact He.
  - now rewrite (Use_regions _ _ _ _ H).
  - apply (UploadRanges_regions _ _ _ _ _ H). now left.
  - unfold CompletedSubmissionUpdated in H.
    destruct (upload_buffer_pool_ st); [| discriminate]. injection H as <-. exact He.
  - unfold EndSubmission in H.
    destruct (upload_buffer_pool_ st); [| discriminate]. injection H as <-. exact He.
Qed.

Lemma method_calls_regions st0 st :
  method_calls cfg st0 st -> upload_regions_ st0 = [] -> upload_regions_ st = [].
Proof.
  induction 1 as [| st1 st2 st3 _ IH Hcall]; [trivial |].
  intros He. exact (method_call_regions _ _ Hcall (IH He)).
Qed.

(** C10: [upload_regions_] is empty whenever [UploadRanges] returns, on
    the success path and on the allocation-failure path alike.  A call on
    a batch that is not empty clears the list on entry and flushes what it
    accumulates: the regions of the copy commands it records are, in order,
    exactly the regions of the chunks it staged, each once, whatever the
    list held before, and the list is empty when it returns.  A call on
    the empty batch leaves the list as it was.  It is empty at construction
    and no method puts a region in it that it does not flush, so it is
    empty after every call of [UploadRanges] in the life of the object and
    no region of one call is copied by a later one. *)
Theorem UploadRanges_regions_empty fuel ranges st :
  (Config_ok cfg -> @pool_grants_within Pool pool_ops ->
   upload_ranges_ok cfg ranges -> enough_fuel fuel ranges ->
   upload_buffer_pool_ st <> None ->
   exists b st', UploadRanges cfg fuel ranges st = Ok (b, st')) /\
  (forall b st',
      UploadRanges cfg fuel ranges st = Ok (b, st') ->
      (upload_regions_ st = [] \/ ranges <> [] -> upload_regions_ st' = []) /\
      exists new,
        calls st' = calls st ++ new /\
        concat (map snd (copy_commands new)) = map snd (chunks new) /\
        Forall (fun c => snd c <> []) (copy_commands new)) /\
  (forall st0 b st',
      upload_regions_ st0 = [] -> method_calls cfg st0 st ->
      UploadRanges cfg fuel ranges st = Ok (b, st') ->
      upload_regions_ st' = []).
Proof.
  split; [apply UploadRanges_returns |]. split.
  - intros b st' H. split; [exact (UploadRanges_regions _ _ _ _ _ H) |].
    destruct (UploadRanges_copies_chunks _ _ _ _ _ H) as (new & Hcn & Hcc).
    exists new. splits; trivial.
    destruct ranges as [| r rs].
    + injection H as <- <-.
      rewrite <- (app_nil_r (calls st)) in Hcn at 1. apply app_inv_head in Hcn.
      subst new. constructor.
    + apply UploadRanges_run in H
        as (st1 & new' & flush & HUse & Hc & _ & _ & _ & _ & _ & _ & Hruns & _).
      apply Use_calls in HUse as (barrier & Hc1 & Hcb & _).
      assert (Hnew : new = barrier ++ new' ++ flush).
      { apply (app_inv_head (calls st)). now rewrite <- Hcn, Hc, Hc1, <- app_assoc. }
      rewrite Hnew, copy_commands_app, Hcb. simpl.
      pose proof (group_runs_nonempty (chunks (new' ++ flush))) as Hne.
      rewrite <- Hruns in Hne. unfold issued_runs in Hne.
      rewrite Forall_map in Hne. exact Hne.
  - intros st0 b st' He Hcalls H.
    apply (UploadRanges_regions _ _ _ _ _ H). left.
    exact (method_calls_regions _ _ Hcalls He).
Qed.

(** * More of the code's behaviour *)

(** ** Use: clipping, the assertion, and consecutive calls *)

Lemma Use_fails st usage written_range :
  asserts_enabled cfg = true -> usage = kRead ->
  snd (clip cfg written_range) <> 0 ->
  Use cfg usage written_range st = AssertionFailed.
Proof.
  intros Ha -> Hs. unfold clip in Hs. simpl in Hs.
  unfold Use, bind, assert_true. rewrite Ha. simpl.
  destruct (Z.eqb_spec
              (Z.min (snd written_range)
                 (kBufferSize cfg - Z.min (fst written_range) (kBufferSize cfg))) 0);
    [contradiction | reflexivity].
Qed.

Lemma Use_returned st usage written_range st' :
  Use cfg usage written_range st = Ok (tt, st') ->
  Use_precondition cfg usage written_range.
Proof.
  intros H Ha Hu.
  destruct (Z.eq_dec (snd (clip cfg written_range)) 0) as [Hz | Hnz]; [exact Hz |].
  rewrite (Use_fails _ _ _ Ha Hu Hnz) in H. discriminate H.
Qed.

(** What [Use] leaves alone. *)
Lemma Use_frame st usage written_range st' :
  Use cfg usage written_range st = Ok (tt, st') ->
  buffer_ st' = buffer_ st /\
  buffer_memory_type_ st' = buffer_memory_type_ st /\
  buffer_memory_ st' = buffer_memory_ st /\
  upload_buffer_pool_ st' = upload_buffer_pool_ st /\
  upload_regions_ st' = upload_regions_ st /\
  device st' = device st /\
  submission_current st' = submission_current st /\
  (calls st' = calls st \/
   exists src dst b, calls st' = calls st ++ [CmdVkPipelineBarrier src dst b]).
Proof.
  intros H. pose proof (Use_returned _ _ _ _ H) as Hpre.
  rewrite (Use_runs _ _ _ Hpre) in H. injection H as <-.
  unfold Use_barrier.
  destruct (negb (Usage_eqb (last_usage_ st) usage)
            || negb (snd (last_written_range_ st) =? 0));
    destruct (Usage_eqb (last_usage_ st) usage); simpl; splits; trivial;
    solve [now left | right; eauto].
Qed.

(** [Use] records a written range that lies inside the buffer: the start
    is clipped to the buffer size and the length to what is left after the
    start.  A range inside the buffer is recorded as it is; a range that
    starts at or after the end is recorded as the empty range at the end. *)
Theorem Use_clips st usage written_range st' :
  0 <= kBufferSize cfg -> 0 <= fst written_range -> 0 <= snd written_range ->
  Use cfg usage written_range st = Ok (tt, st') ->
  0 <= fst (last_written_range_ st') <= kBufferSize cfg /\
  0 <= snd (last_written_range_ st') /\
  fst (last_written_range_ st') + snd (last_written_range_ st') <= kBufferSize cfg /\
  fst (last_written_range_ st') <= fst written_range /\
  snd (last_written_range_ st') <= snd written_range /\
  (fst written_range + snd written_range <= kBufferSize cfg ->
   last_written_range_ st' = written_range) /\
  (kBufferSize cfg <= fst written_range ->
   last_written_range_ st' = (kBufferSize cfg, 0)).
Proof.
  intros Hk H1 H2 H.
  destruct (Use_state _ _ _ _ (Use_returned _ _ _ _ H) H) as [_ ->].
  unfold clip. destruct written_range as [first second]. simpl in *.
  splits; try lia.
  - intros Hin. f_equal; lia.
  - intros Hout. f_equal; lia.
Qed.

(** [Use] fails its assertion exactly when assertions are compiled in, the
    usage is [kRead] and the written range, once clipped, is not empty; in
    every other case it returns.  A read whose written range starts at or
    after the end of the buffer passes, whatever its length, because the
    length is clipped to zero before the assertion. *)
Theorem Use_assertion st usage written_range :
  (Use cfg usage written_range st = AssertionFailed <->
   asserts_enabled cfg = true /\ usage = kRead /\ snd (clip cfg written_range) <> 0) /\
  (Use cfg usage written_range st <> AssertionFailed ->
   exists st', Use cfg usage written_range st = Ok (tt, st')) /\
  (0 <= snd written_range -> 0 <= kBufferSize cfg <= fst written_range ->
   exists st', Use cfg kRead written_range st = Ok (tt, st')).
Proof.
  assert (Hdec : Use_precondition cfg usage written_range \/
                 (asserts_enabled cfg = true /\ usage = kRead /\
                  snd (clip cfg written_range) <> 0)).
  { unfold Use_precondition.
    destruct (asserts_enabled cfg); [| left; discriminate].
    destruct (Usage_eqb_spec usage kRead) as [-> | Hu]; [| left; congruence].
    destruct (Z.eq_dec (snd (clip cfg written_range)) 0); [left; trivial | right; auto]. }
  splits.
  - split.
    + intros H. destruct Hdec as [Hpre | Hbad]; [| exact Hbad].
      rewrite (Use_runs _ _ _ Hpre) in H. discriminate H.
    + intros (Ha & Hu & Hs). now apply Use_fails.
  - intros H. destruct Hdec as [Hpre | (Ha & Hu & Hs)].
    + rewrite (Use_runs _ _ _ Hpre). eauto.
    + exfalso. apply H. now apply Use_fails.
  - intros Hs Hk. rewrite Use_runs; [eauto |].
    intros _ _. unfold clip. simpl. lia.
Qed.

(** Two calls of [Use] in a row with the same usage: the second records a
    barrier exactly when the written range of the first, clipped, is not
    empty, and that barrier covers exactly that range, with the masks of
    the usage on both sides. *)
Theorem Use_then_Use st usage written_range1 written_range2 st1 st2 :
  Use cfg usage written_range1 st = Ok (tt, st1) ->
  Use cfg usage written_range2 st1 = Ok (tt, st2) ->
  (snd (clip cfg written_range1) = 0 -> calls st2 = calls st1) /\
  (snd (clip cfg written_range1) <> 0 ->
   calls st2 = calls st1 ++
     [CmdVkPipelineBarrier (fst (GetBarrier cfg usage)) (fst (GetBarrier cfg usage))
        (VkBufferMemoryBarrier.mk
           (snd (GetBarrier cfg usage)) (snd (GetBarrier cfg usage))
           VK_QUEUE_FAMILY_IGNORED VK_QUEUE_FAMILY_IGNORED (buffer_ st)
           (fst (clip cfg written_range1)) (snd (clip cfg written_range1)))]) /\
  last_usage_ st2 = usage /\
  last_written_range_ st2 = clip cfg written_range2.
Proof.
  intros H1 H2.
  destruct (Use_state _ _ _ _ (Use_returned _ _ _ _ H1) H1) as [Hu1 Hw1].
  destruct (Use_frame _ _ _ _ H1) as (Hb1 & _).
  destruct (Use_state _ _ _ _ (Use_returned _ _ _ _ H2) H2) as [Hu2 Hw2].
  rewrite (Use_runs _ _ _ (Use_returned _ _ _ _ H2)) in H2. injection H2 as <-.
  unfold Use_barrier. rewrite Hu1, Hw1, Hb1.
  destruct (Z.eqb_spec (snd (clip cfg written_range1)) 0) as [Hz | Hnz];
    (destruct (Usage_eqb_spec usage usage) as [_ | Hne]; [| congruence]);
    simpl; splits; trivial; try congruence; intros; try contradiction; reflexivity.
Qed.

(** ** UploadRanges: what the loops put in the log *)

Lemma validated_app l1 l2 : validated (l1 ++ l2) = validated l1 ++ validated l2.
Proof. apply flat_map_app. Qed.

Lemma request_calls_app l1 l2 :
  request_calls (l1 ++ l2) = request_calls l1 ++ request_calls l2.
Proof. apply flat_map_app. Qed.

Lemma loop_log_nil sub : loop_log cfg sub [].
Proof. unfold loop_log. splits; constructor. Qed.

Lemma loop_log_app sub l1 l2 : loop_log cfg sub l1 -> loop_log cfg sub l2 -> loop_log cfg sub (l1 ++ l2).
Proof.
  intros (Ha1 & Hb1 & Hc1) (Ha2 & Hb2 & Hc2). unfold loop_log. splits.
  - apply Forall_app. now split.
  - rewrite request_calls_app. apply Forall_app. now split.
  - now rewrite validated_app, chunks_app, map_app, Hc1, Hc2.
Qed.

Lemma loop_log_chunk sub size a granted start prev st :
  loop_log cfg sub
    (PoolRequestPartial sub size (wrap64 (Z.shiftl 1 (page_size_log2 cfg))) granted
     :: chunk_calls cfg a start prev st).
Proof.
  unfold loop_log, chunk_calls.
  destruct (negb (prev =? Z.pos (upload_buffer a)) && negb (is_empty (upload_regions_ st)));
    simpl; splits; repeat constructor.
Qed.

Lemma upload_range_log fuel : forall sub start len prev st ok prev' st',
  upload_range cfg fuel sub start len prev st = Ok ((ok, prev'), st') ->
  exists new,
    calls st' = calls st ++ new /\ loop_log cfg sub new /\
    (upload_buffer_pool_ st = None <-> upload_buffer_pool_ st' = None).
Proof.
  induction fuel as [| fuel IH]; intros sub start len prev st ok prev' st' H.
  - discriminate H.
  - rewrite upload_range_unfold in H.
    destruct (len =? 0).
    { injection H as <- <- <-. exists []. rewrite app_nil_r.
      splits; [reflexivity | apply loop_log_nil | reflexivity]. }
    destruct (upload_buffer_pool_ st) as [pool |] eqn:Hp; [| discriminate H].
    cbv zeta in H.
    destruct (RequestPartial pool sub _ _) as [[a |] pool'].
    + destruct (asserts_enabled cfg && (prev =? VK_NULL_HANDLE)
                && negb (is_empty (upload_regions_ st))); [discriminate H |].
      apply IH in H as (new & Hc & Hlog & Hpool).
      rewrite stage_chunk_calls in Hc. rewrite stage_chunk_pool in Hpool.
      simpl in Hc, Hpool.
      eexists. splits.
      * rewrite Hc, <- !app_assoc. reflexivity.
      * exact (loop_log_app sub (_ :: chunk_calls cfg a start prev _) new
                 (loop_log_chunk _ _ _ _ _ _ _) Hlog).
      * split; [discriminate |]. intros Hn. apply (proj2 Hpool) in Hn. discriminate Hn.
    + injection H as <- <- <-. eexists. splits.
      * reflexivity.
      * unfold loop_log. simpl. splits; repeat constructor.
      * simpl. split; discriminate.
Qed.

Lemma upload_ranges_loop_log ranges : forall fuel sub prev st ok prev' st',
  upload_ranges_loop cfg fuel sub ranges prev st = Ok ((ok, prev'), st') ->
  exists new,
    calls st' = calls st ++ new /\ loop_log cfg sub new /\
    (upload_buffer_pool_ st = None <-> upload_buffer_pool_ st' = None).
Proof.
  induction ranges as [| [start len] rest IH]; intros fuel sub prev st ok prev' st' H.
  - injection H as <- <- <-. exists []. rewrite app_nil_r.
    splits; [reflexivity | apply loop_log_nil | reflexivity].
  - simpl in H. unfold bind at 1 in H. unfold call, modify in H.
    unfold bind at 1 in H.
    destruct (upload_range cfg fuel sub start len prev _)
      as [[[ok1 prev1] st1] | | |] eqn:Hr; try discriminate H.
    apply upload_range_log in Hr as (n1 & Hc1 & Hlog1 & Hp1).
    simpl in Hc1, Hp1.
    assert (Hnote : loop_log cfg sub
                      [WriteMemoryRead (shl32 start (page_size_log2 cfg))
                         (shl32 len (page_size_log2 cfg))]).
    { unfold loop_log. simpl. splits; repeat constructor. }
    destruct ok1.
    + apply IH in H as (n2 & Hc2 & Hlog2 & Hp2).
      eexists. splits.
      * rewrite Hc2, Hc1, <- !app_assoc. reflexivity.
      * apply loop_log_app; [exact Hnote |]. apply loop_log_app; assumption.
      * tauto.
    + injection H as <- <- <-. eexists. splits.
      * rewrite Hc1, <- !app_assoc. reflexivity.
      * apply loop_log_app; assumption.
      * exact Hp1.
Qed.

(** What a returning call of [UploadRanges] put in the log: the barrier of
    its [Use], if one was due, then calls of the loops. *)
Lemma UploadRanges_log fuel ranges st b st' :
  UploadRanges cfg fuel ranges st = Ok (b, st') ->
  exists barrier rest,
    calls st' = calls st ++ barrier ++ rest /\
    (barrier = [] \/ exists src dst bb, barrier = [CmdVkPipelineBarrier src dst bb]) /\
    loop_log cfg (submission_current st) rest /\
    (upload_buffer_pool_ st = None <-> upload_buffer_pool_ st' = None) /\
    buffer_ st' = buffer_ st /\ buffer_memory_ st' = buffer_memory_ st /\
    buffer_memory_type_ st' = buffer_memory_type_ st /\ device st' = device st.
Proof.
  intros H. destruct ranges as [| r rs].
  { injection H as <- <-. exists [], []. rewrite app_nil_r.
    splits; trivial; [now left | apply loop_log_nil | reflexivity]. }
  rewrite UploadRanges_unfold in H.
  destruct (Use cfg kTransferDestination _ st) as [[[] st1] | | |] eqn:HUse;
    try discriminate H.
  destruct (Use_frame _ _ _ _ HUse) as (Hb & Ht & Hm & Hp & _ & Hd & Hs & Hcalls).
  destruct (upload_ranges_loop cfg fuel _ _ _ _) as [[[ok prev] st3] | | |] eqn:Hloop;
    try discriminate H.
  pose proof Hloop as Hloop'.
  apply upload_ranges_loop_log in Hloop as (new & Hc & Hlog & Hpool).
  apply upload_ranges_loop_run in Hloop' as (new' & (_ & Hsame & _) & _).
  destruct Hsame as (Hb3 & Ht3 & Hm3 & _ & _ & Hd3 & _). simpl in *.
  assert (Hbar : exists barrier,
             calls st1 = calls st ++ barrier /\
             (barrier = [] \/
              exists src dst bb, barrier = [CmdVkPipelineBarrier src dst bb])).
  { destruct Hcalls as [-> | (src & dst & bb & ->)].
    - exists []. rewrite app_nil_r. split; [reflexivity | now left].
    - eexists. split; [reflexivity |]. right. eauto. }
  destruct Hbar as (barrier & Hc1 & Hshape).
  rewrite Hs in Hlog. rewrite Hp in Hpool.
  destruct (upload_regions_ st3) as [| x xs] eqn:Hx.
  - injection H as <- <-. exists barrier, new.
    splits; trivial; try congruence. now rewrite Hc, Hc1, <- app_assoc.
  - destruct (asserts_enabled cfg && (prev =? VK_NULL_HANDLE)); [discriminate H |].
    injection H as <- <-.
    exists barrier, (new ++ [CmdVkCopyBuffer prev (buffer_ st3) (x :: xs)]).
    simpl. splits; trivial; try congruence.
    + now rewrite Hc, Hc1, <- !app_assoc.
    + apply loop_log_app; [exact Hlog |].
      unfold loop_log. simpl. splits; repeat constructor.
Qed.

(** [UploadRanges] touches nothing but the usage state, the staging pool
    and the log: the buffer, its memory and the memory type are as before,
    and so is the device, on which no call is made; the pool is there
    after the call exactly when it was before; and the log gains at most
    one barrier, first, then only notifications, pool requests, range
    validations, host copies and copy commands. *)
Theorem UploadRanges_frame fuel ranges st b st' :
  UploadRanges cfg fuel ranges st = Ok (b, st') ->
  exists barrier rest,
    calls st' = calls st ++ barrier ++ rest /\
    (barrier = [] \/ exists src dst bb, barrier = [CmdVkPipelineBarrier src dst bb]) /\
    Forall (fun c => upload_call c = true) rest /\
    Forall (fun c => device_call c = false) (barrier ++ rest) /\
    buffer_ st' = buffer_ st /\ buffer_memory_ st' = buffer_memory_ st /\
    buffer_memory_type_ st' = buffer_memory_type_ st /\ device st' = device st /\
    (upload_buffer_pool_ st = None <-> upload_buffer_pool_ st' = None).
Proof.
  intros H.
  apply UploadRanges_log in H
    as (barrier & rest & Hc & Hshape & (Hup & _) & Hpool & Hb & Hm & Ht & Hd).
  exists barrier, rest. splits; trivial.
  apply Forall_app. split.
  - destruct Hshape as [-> | (src & dst & bb & ->)]; repeat constructor.
  - eapply Forall_impl; [| exact Hup]. intros c. now destruct c.
Qed.

(** Every request [UploadRanges] makes on the staging pool carries the
    submission number that was current when the call began and asks for
    the alignment of one page. *)
Theorem UploadRanges_requests fuel ranges st b st' :
  UploadRanges cfg fuel ranges st = Ok (b, st') ->
  exists new,
    calls st' = calls st ++ new /\
    Forall (fun q => fst (fst q) = submission_current st /\
                     snd q = wrap64 (Z.shiftl 1 (page_size_log2 cfg)))
           (request_calls new) /\
    (Config_ok cfg ->
     Forall (fun q => snd q = 2 ^ page_size_log2 cfg) (request_calls new)).
Proof.
  intros H.
  apply UploadRanges_log in H as (barrier & rest & Hc & Hshape & (_ & Hrq & _) & _).
  exists (barrier ++ rest).
  assert (Hrb : request_calls barrier = []).
  { destruct Hshape as [-> | (src & dst & bb & ->)]; reflexivity. }
  rewrite request_calls_app, Hrb. simpl. splits; trivial.
  intros Hcfg. destruct (page_size_value Hcfg) as [Hal _].
  eapply Forall_impl; [| exact Hrq]. intros q [_ Hq]. congruence.
Qed.

(** For every chunk it stages, [UploadRanges] marks valid, as not written
    by the GPU, the range at which the chunk's region is copied into the
    buffer, as long as the region (cast to 32 bits): the ranges marked
    valid are those of the chunks, in order, also when the call fails. *)
Theorem UploadRanges_validates fuel ranges st b st' :
  UploadRanges cfg fuel ranges st = Ok (b, st') ->
  exists new,
    calls st' = calls st ++ new /\
    validated new =
      map (fun r => (VkBufferCopy.dstOffset r, wrap32 (VkBufferCopy.size r), false))
          (concat (map snd (copy_commands new))).
Proof.
  intros H.
  destruct (UploadRanges_copies_chunks _ _ _ _ _ H) as (new & Hcn & Hcc).
  apply UploadRanges_log in H as (barrier & rest & Hc & Hshape & (_ & _ & Hv) & _).
  assert (Hnew : new = barrier ++ rest).
  { apply (app_inv_head (calls st)). now rewrite <- Hcn, Hc. }
  exists new. split; [exact Hcn |].
  rewrite Hcc, map_map. subst new.
  assert (Hvb : validated barrier = [] /\ chunks barrier = []).
  { destruct Hshape as [-> | (src & dst & bb & ->)]; split; reflexivity. }
  destruct Hvb as [Hvb Hcb].
  rewrite validated_app, chunks_app, Hvb, Hcb. simpl. exact Hv.
Qed.

(** ** UploadRanges: the assertions hold *)

Lemma upload_range_safe fuel : forall sub start len prev st,
  upload_regions_ st = [] \/ prev <> VK_NULL_HANDLE ->
  match upload_range cfg fuel sub start len prev st with
  | Ok ((_, prev'), st') => upload_regions_ st' = [] \/ prev' <> VK_NULL_HANDLE
  | AssertionFailed => False
  | _ => True
  end.
Proof.
  induction fuel as [| fuel IH]; intros sub start len prev st Hinv; [exact I |].
  rewrite upload_range_unfold.
  destruct (len =? 0); [exact Hinv |].
  destruct (upload_buffer_pool_ st) as [pool |]; [| exact I].
  cbv zeta.
  destruct (RequestPartial pool sub _ _) as [[a |] pool']; [| exact Hinv].
  assert (Hnoassert : asserts_enabled cfg && (prev =? VK_NULL_HANDLE)
                      && negb (is_empty (upload_regions_ st)) = false).
  { destruct Hinv as [-> | Hprev]; [apply andb_false_r |].
    destruct (Z.eqb_spec prev VK_NULL_HANDLE); [contradiction |].
    now rewrite andb_false_r. }
  rewrite Hnoassert. apply IH. right. discriminate.
Qed.

Lemma upload_ranges_loop_safe ranges : forall fuel sub prev st,
  upload_regions_ st = [] \/ prev <> VK_NULL_HANDLE ->
  match upload_ranges_loop cfg fuel sub ranges prev st with
  | Ok ((_, prev'), st') => upload_regions_ st' = [] \/ prev' <> VK_NULL_HANDLE
  | AssertionFailed => False
  | _ => True
  end.
Proof.
  induction ranges as [| [start len] rest IH]; intros fuel sub prev st Hinv;
    [exact Hinv |].
  simpl. unfold bind at 1. unfold call, modify. unfold bind at 1.
  pose proof (upload_range_safe fuel sub start len prev
                (record (WriteMemoryRead (shl32 start (page_size_log2 cfg))
                           (shl32 len (page_size_log2 cfg))) st) Hinv) as Hsafe.
  destruct (upload_range cfg fuel sub start len prev _)
    as [[[ok1 prev1] st1] | | |]; try exact Hsafe.
  destruct ok1; [apply IH; exact Hsafe | exact Hsafe].
Qed.

(** No assertion fails in [UploadRanges], whatever the state, the ranges
    and the pool: its [Use] is not a read, and a copy command is only
    recorded for regions staged from a buffer the pool handed out, which is
    not the null handle. *)
Theorem UploadRanges_asserts_hold fuel ranges st :
  UploadRanges cfg fuel ranges st <> AssertionFailed.
Proof.
  destruct ranges as [| r rs]; [discriminate |].
  rewrite UploadRanges_unfold.
  rewrite (Use_runs _ _ _ (Use_transfer_precondition _)).
  match goal with
  | |- context [upload_ranges_loop cfg fuel ?sub (r :: rs) ?prev ?s] =>
      pose proof (upload_ranges_loop_safe (r :: rs) fuel sub prev s
                    (or_introl eq_refl)) as Hsafe;
      destruct (upload_ranges_loop cfg fuel sub (r :: rs) prev s)
        as [[[ok prev'] st3] | | |]
  end; try discriminate; try contradiction.
  destruct (upload_regions_ st3) as [| x xs]; [discriminate |].
  destruct Hsafe as [Hnil | Hprev]; [discriminate Hnil |].
  destruct (Z.eqb_spec prev' VK_NULL_HANDLE); [contradiction |].
  rewrite andb_false_r. discriminate.
Qed.

(** ** UploadRanges without a staging pool *)

Lemma upload_ranges_loop_step_no_pool fuel sub start len rest prev st :
  upload_buffer_pool_ st = None ->
  upload_ranges_loop cfg (S fuel) sub ((start, len) :: rest) prev st =
  if len =? 0
  then upload_ranges_loop cfg (S fuel) sub rest prev
         (record (WriteMemoryRead (shl32 start (page_size_log2 cfg))
                    (shl32 len (page_size_log2 cfg))) st)
  else NullDereference.
Proof.
  intros Hp. cbn [upload_ranges_loop]. unfold bind at 1. unfold call, modify.
  unfold bind at 1. rewrite upload_range_unfold.
  unfold record at 1 2. cbn [upload_buffer_pool_ set_calls]. rewrite Hp.
  destruct (len =? 0); reflexivity.
Qed.

Lemma upload_ranges_loop_no_pool ranges : forall fuel sub prev st,
  upload_buffer_pool_ st = None ->
  (Exists (fun r => snd r <> 0) ranges ->
   upload_ranges_loop cfg (S fuel) sub ranges prev st = NullDereference) /\
  (Forall (fun r => snd r = 0) ranges ->
   upload_ranges_loop cfg (S fuel) sub ranges prev st =
   Ok ((true, prev),
       set_calls (calls st ++
                  map (fun r => WriteMemoryRead (fst (notified cfg r))
                                  (snd (notified cfg r))) ranges) st)).
Proof.
  induction ranges as [| [start len] rest IH]; intros fuel sub prev st Hp.
  - split; [intros H; inversion H |].
    intros _. simpl. unfold ret. rewrite app_nil_r. now destruct st.
  - rewrite (upload_ranges_loop_step_no_pool _ _ _ _ _ _ _ Hp).
    destruct (IH fuel sub prev
                (record (WriteMemoryRead (shl32 start (page_size_log2 cfg))
                           (shl32 len (page_size_log2 cfg))) st) Hp) as [IHe IHf].
    destruct (Z.eqb_spec len 0) as [Hz | Hnz].
    + split.
      * intros H. inversion H as [? ? H0 | ? ? H0]; subst;
          [simpl in H0; contradiction | now apply IHe].
      * intros H. inversion H; subst. rewrite IHf by assumption.
        do 2 f_equal. unfold record, notified. simpl.
        now rewrite <- app_assoc.
    + split; [reflexivity |].
      intros H. inversion H; subst. simpl in *. contradiction.
Qed.

(** Without a staging pool (before [Initialize], after a failed
    [Initialize], after [Shutdown]) the submission callbacks dereference
    the null pool, and so does [UploadRanges] as soon as a range holds a
    page.  A batch of ranges of length zero needs no pool: the call
    records its barrier, notifies each range and returns true without a
    request or a copy. *)
Theorem UploadRanges_without_pool fuel ranges st :
  upload_buffer_pool_ st = None ->
  CompletedSubmissionUpdated st = NullDereference /\
  EndSubmission st = NullDereference /\
  (Exists (fun r => snd r <> 0) ranges ->
   UploadRanges cfg (S fuel) ranges st = NullDereference) /\
  (Forall (fun r => snd r = 0) ranges ->
   exists st' new,
     UploadRanges cfg (S fuel) ranges st = Ok (true, st') /\
     calls st' = calls st ++ new /\
     requests new = [] /\ copy_commands new = [] /\ chunks new = [] /\
     (ranges <> [] -> notifications new = map (notified cfg) ranges) /\
     upload_buffer_pool_ st' = None).
Proof.
  intros Hp. splits.
  - unfold CompletedSubmissionUpdated. now rewrite Hp.
  - unfold EndSubmission. now rewrite Hp.
  - intros Hex. destruct ranges as [| r rs]; [inversion Hex |].
    rewrite UploadRanges_unfold.
    destruct (Use cfg kTransferDestination _ st) as [[[] st1] | | |] eqn:HUse;
      try (rewrite (Use_runs _ _ _ (Use_transfer_precondition _)) in HUse;
           discriminate HUse).
    destruct (Use_frame _ _ _ _ HUse) as (_ & _ & _ & Hp1 & _).
    assert (Hp2 : upload_buffer_pool_ (set_upload_regions_ [] st1) = None)
      by (simpl; congruence).
    destruct (upload_ranges_loop_no_pool (r :: rs) fuel (submission_current st1)
                VK_NULL_HANDLE _ Hp2) as [-> _]; trivial.
  - intros Hall. destruct ranges as [| r rs].
    { exists st, []. rewrite app_nil_r. splits; trivial; congruence. }
    rewrite UploadRanges_unfold.
    destruct (Use cfg kTransferDestination _ st) as [[[] st1] | | |] eqn:HUse;
      try (rewrite (Use_runs _ _ _ (Use_transfer_precondition _)) in HUse;
           discriminate HUse).
    destruct (Use_frame _ _ _ _ HUse) as (_ & _ & _ & Hp1 & _).
    destruct (Use_calls _ _ _ _ HUse) as (barrier & Hc1 & Hcc & Hch & Hrq & Hnb).
    assert (Hp2 : upload_buffer_pool_ (set_upload_regions_ [] st1) = None)
      by (simpl; congruence).
    destruct (upload_ranges_loop_no_pool (r :: rs) fuel (submission_current st1)
                VK_NULL_HANDLE _ Hp2) as [_ ->]; trivial.
    cbn [upload_regions_ set_calls set_upload_regions_].
    eexists _, _. split; [reflexivity |].
    cbn [calls set_calls set_upload_regions_ upload_buffer_pool_].
    split; [rewrite Hc1, <- app_assoc; reflexivity |].
    set (notes := map _ (r :: rs)).
    assert (Hn : requests notes = [] /\ copy_commands notes = [] /\
                 chunks notes = [] /\
                 notifications notes = map (notified cfg) (r :: rs)).
    { subst notes. clear. unfold requests, copy_commands, chunks, notifications.
      induction (r :: rs) as [| x l IH]; [repeat split |].
      destruct IH as (H1 & H2 & H3 & H4). cbn [map flat_map app].
      rewrite H1, H2, H3, H4. destruct x. splits; reflexivity. }
    destruct Hn as (H1 & H2 & H3 & H4).
    rewrite requests_app, copy_commands_app, chunks_app, notifications_app.
    rewrite Hrq, Hcc, Hch, Hnb, H1, H2, H3, H4. splits; trivial.
Qed.

(** ** UploadRanges: a successful call copies every page once *)

Lemma chunk_destinations_chunk sub size al a start prev st new :
  chunk_destinations
    ((PoolRequestPartial sub size al (Some a) :: chunk_calls cfg a start prev st) ++ new) =
  (shl32 start (page_size_log2 cfg), upload_buffer_size a) :: chunk_destinations new.
Proof.
  unfold chunk_destinations, chunk_calls.
  destruct (negb (prev =? Z.pos (upload_buffer a)) && negb (is_empty (upload_regions_ st)));
    reflexivity.
Qed.

Lemma upload_range_tiles fuel : forall sub start len prev st prev' st',
  Config_ok cfg -> @pool_grants_within Pool pool_ops ->
  @pool_grants_aligned Pool pool_ops ->
  0 <= start -> 0 <= len -> (start + len) * 2 ^ page_size_log2 cfg < 2 ^ 32 ->
  upload_range cfg fuel sub start len prev st = Ok ((true, prev'), st') ->
  exists new,
    calls st' = calls st ++ new /\
    tiles (start * 2 ^ page_size_log2 cfg) (len * 2 ^ page_size_log2 cfg)
      (chunk_destinations new).
Proof.
  induction fuel as [| fuel IH];
    intros sub start len prev st prev' st' Hcfg Hwithin Haligned Hstart Hlen Hfit H.
  - discriminate H.
  - rewrite upload_range_unfold in H.
    destruct (page_size_value Hcfg) as [Hal Hpos].
    destruct (Z.eqb_spec len 0) as [-> | Hnz].
    { injection H as <- <-. exists []. rewrite app_nil_r. split; reflexivity. }
    destruct (upload_buffer_pool_ st) as [pool |]; [| discriminate H].
    cbv zeta in H.
    destruct (RequestPartial pool sub _ _) as [[a |] pool'] eqn:Hreq;
      [| discriminate H].
    destruct (asserts_enabled cfg && (prev =? VK_NULL_HANDLE)
              && negb (is_empty (upload_regions_ st))); [discriminate H |].
    assert (Hlenfit : len * 2 ^ page_size_log2 cfg < 2 ^ 32) by nia.
    rewrite Hal, (request_size_value len Hcfg Hlen Hlenfit) in Hreq.
    pose proof (Haligned _ _ _ _ _ _ Hreq) as [k Hk].
    apply Hwithin in Hreq; [| nia].
    pose proof (granted_pages_bounds a len Hcfg Hlenfit Hreq) as Hpages.
    assert (Hgp : granted_pages cfg a = k).
    { unfold granted_pages, wrap32. destruct Hcfg as [[Hl0 Hl1] _].
      rewrite Z.shiftr_div_pow2 by assumption.
      rewrite Hk, Z.div_mul by lia. apply Z.mod_small. nia. }
    rewrite Hgp in *.
    assert (Hs' : wrap32 (start + k) = start + k).
    { unfold wrap32. apply Z.mod_small. nia. }
    assert (Hl' : wrap32 (len - k) = len - k).
    { unfold wrap32. apply Z.mod_small. nia. }
    rewrite Hs', Hl' in H.
    apply IH in H as (new & Hc & Ht); try assumption; try lia; try nia.
    rewrite stage_chunk_calls in Hc. simpl in Hc.
    eexists. split; [rewrite Hc, <- !app_assoc; reflexivity |].
    change ([?x] ++ ?l ++ new) with ((x :: l) ++ new).
    rewrite chunk_destinations_chunk.
    rewrite (request_size_value start Hcfg Hstart) by nia.
    simpl. splits; [reflexivity | lia | lia |].
    replace (start * 2 ^ page_size_log2 cfg + upload_buffer_size a)
      with ((start + k) * 2 ^ page_size_log2 cfg) by lia.
    replace (len * 2 ^ page_size_log2 cfg - upload_buffer_size a)
      with ((len - k) * 2 ^ page_size_log2 cfg) by lia.
    exact Ht.
Qed.

Lemma upload_ranges_loop_tiles ranges : forall fuel sub prev st prev' st' from,
  Config_ok cfg -> @pool_grants_within Pool pool_ops ->
  @pool_grants_aligned Pool pool_ops ->
  0 <= from -> ranges_sorted from ranges -> ranges_in_buffer cfg ranges ->
  upload_ranges_loop cfg fuel sub ranges prev st = Ok ((true, prev'), st') ->
  exists new parts,
    calls st' = calls st ++ new /\
    concat parts = chunk_destinations new /\
    Forall2 (fun r part =>
               tiles (fst (range_bytes cfg r)) (snd (range_bytes cfg r)) part)
            ranges parts.
Proof.
  induction ranges as [| [start len] rest IH];
    intros fuel sub prev st prev' st' from Hcfg Hwithin Haligned Hfrom Hsorted Hin H.
  - injection H as <- <-. exists [], []. rewrite app_nil_r.
    splits; [reflexivity | reflexivity | constructor].
  - destruct Hsorted as (Hs1 & Hs2 & Hs3).
    inversion Hin as [| ? ? Hfit Hin']; subst. simpl in Hfit.
    simpl in H. unfold bind at 1 in H. unfold call, modify in H.
    unfold bind at 1 in H.
    destruct (upload_range cfg fuel sub start len prev _)
      as [[[ok1 prev1] st1] | | |] eqn:Hr; try discriminate H.
    destruct ok1; [| discriminate H].
    destruct Hcfg as [Hl Hk]. pose proof (conj Hl Hk) as Hcfg.
    apply upload_range_tiles in Hr as (n1 & Hc1 & Ht1);
      try assumption; try lia.
    apply (IH _ _ _ _ _ _ (start + len)) in H as (n2 & parts & Hc2 & Hparts & Hall);
      try assumption; try lia.
    simpl in Hc1.
    exists ([WriteMemoryRead (shl32 start (page_size_log2 cfg))
               (shl32 len (page_size_log2 cfg))] ++ n1 ++ n2),
           (chunk_destinations n1 :: parts).
    splits.
    + rewrite Hc2, Hc1, <- !app_assoc. reflexivity.
    + rewrite !chunk_destinations_app, <- Hparts. reflexivity.
    + constructor; [exact Ht1 | exact Hall].
Qed.

(** When [UploadRanges] returns true, the regions of its copy commands,
    taken in order, split every dirty range exactly: the regions of a
    range start at its first byte, follow one another without gap or
    overlap, and end at its last byte, and no region is empty.  This holds
    for ascending ranges inside the buffer and a pool that grants whole
    pages, at least one and no more than it is asked. *)
Theorem UploadRanges_tiles fuel ranges st st' :
  Config_ok cfg -> @pool_grants_within Pool pool_ops ->
  @pool_grants_aligned Pool pool_ops ->
  upload_ranges_ok cfg ranges ->
  UploadRanges cfg fuel ranges st = Ok (true, st') ->
  exists new parts,
    calls st' = calls st ++ new /\
    concat parts = copy_destinations new /\
    Forall2 (fun r part =>
               tiles (fst (range_bytes cfg r)) (snd (range_bytes cfg r)) part)
            ranges parts.
Proof.
  intros Hcfg Hwithin Haligned [Hsorted Hin] H.
  destruct (UploadRanges_copies_chunks _ _ _ _ _ H) as (new & Hcn & Hcc).
  assert (Hcd : copy_destinations new = chunk_destinations new).
  { unfold copy_destinations, chunk_destinations. now rewrite Hcc, map_map. }
  destruct ranges as [| r rs].
  { injection H as <-. exists [], []. rewrite app_nil_r.
    splits; [reflexivity | reflexivity | constructor]. }
  rewrite UploadRanges_unfold in H.
  destruct (Use cfg kTransferDestination _ st) as [[[] st1] | | |] eqn:HUse;
    try discriminate H.
  destruct (Use_calls _ _ _ _ HUse) as (barrier & Hc1 & _ & Hchb & _).
  destruct (upload_ranges_loop cfg fuel _ _ _ _) as [[[ok prev] st3] | | |] eqn:Hloop;
    try discriminate H.
  assert (Hok : ok = true /\ exists flush, calls st' = calls st3 ++ flush /\ chunks flush = []).
  { destruct (upload_regions_ st3) as [| x xs].
    - injection H as <- <-. split; [reflexivity |]. exists []. now rewrite app_nil_r.
    - destruct (asserts_enabled cfg && (prev =? VK_NULL_HANDLE)); [discriminate H |].
      injection H as <- <-. split; [reflexivity |]. eexists. split; reflexivity. }
  destruct Hok as (-> & flush & Hc3 & Hchf).
  apply (upload_ranges_loop_tiles _ _ _ _ _ _ _ 0) in Hloop
    as (loop & parts & Hc2 & Hparts & Hall); try assumption; try lia.
  simpl in Hc2.
  exists new, parts. splits; trivial.
  assert (Hnew : new = barrier ++ loop ++ flush).
  { apply (app_inv_head (calls st)).
    now rewrite <- Hcn, Hc3, Hc2, Hc1, <- !app_assoc. }
  assert (Hdb : chunk_destinations barrier = [])
    by (unfold chunk_destinations; now rewrite Hchb).
  assert (Hdf : chunk_destinations flush = [])
    by (unfold chunk_destinations; now rewrite Hchf).
  rewrite Hcd, Hnew, !chunk_destinations_app, Hparts, Hdb, Hdf. simpl.
  now rewrite app_nil_r.
Qed.

(** ** UploadRanges: a pool that grants less than a page *)

Lemma upload_range_stuck fuel : forall sub start len prev st,
  Config_ok cfg -> pool_grants_less_than (2 ^ page_size_log2 cfg) ->
  0 < len < 2 ^ 32 -> upload_buffer_pool_ st <> None ->
  upload_regions_ st = [] \/ prev <> VK_NULL_HANDLE ->
  upload_range cfg fuel sub start len prev st = OutOfFuel.
Proof.
  induction fuel as [| fuel IH]; intros sub start len prev st Hcfg Hless Hlen Hp Hinv;
    [reflexivity |].
  rewrite upload_range_unfold.
  destruct (Z.eqb_spec len 0) as [-> | _]; [lia |].
  destruct (upload_buffer_pool_ st) as [pool |]; [| contradiction].
  cbv zeta.
  destruct (Hless pool sub (shl32 len (page_size_log2 cfg))
              (wrap64 (Z.shiftl 1 (page_size_log2 cfg)))) as (a & pool' & -> & Hsize).
  assert (Hnoassert : asserts_enabled cfg && (prev =? VK_NULL_HANDLE)
                      && negb (is_empty (upload_regions_ st)) = false).
  { destruct Hinv as [-> | Hprev]; [apply andb_false_r |].
    destruct (Z.eqb_spec prev VK_NULL_HANDLE); [contradiction |].
    now rewrite andb_false_r. }
  rewrite Hnoassert.
  assert (Hgp : granted_pages cfg a = 0).
  { unfold granted_pages, wrap32. destruct Hcfg as [[Hl0 Hl1] _].
    rewrite Z.shiftr_div_pow2 by assumption.
    now rewrite Z.div_small. }
  rewrite Hgp, Z.sub_0_r.
  assert (Hl' : wrap32 len = len) by (unfold wrap32; apply Z.mod_small; lia).
  rewrite Hl'. apply IH; try assumption.
  - rewrite stage_chunk_pool. simpl. discriminate.
  - right. discriminate.
Qed.

(** The loop of a range advances by the whole pages of each grant: with a
    pool that grants less than one page per request it stages chunk after
    chunk of the same range without ever finishing it, so that no bound on
    the iterations lets the call return. *)
Theorem UploadRanges_needs_whole_pages fuel start len rest st :
  Config_ok cfg -> pool_grants_less_than (2 ^ page_size_log2 cfg) ->
  0 < len < 2 ^ 32 -> upload_buffer_pool_ st <> None ->
  UploadRanges cfg fuel ((start, len) :: rest) st = OutOfFuel.
Proof.
  intros Hcfg Hless Hlen Hp.
  rewrite UploadRanges_unfold.
  destruct (Use cfg kTransferDestination _ st) as [[[] st1] | | |] eqn:HUse;
    try (rewrite (Use_runs _ _ _ (Use_transfer_precondition _)) in HUse;
         discriminate HUse).
  destruct (Use_frame _ _ _ _ HUse) as (_ & _ & _ & Hp1 & _).
  cbn [upload_ranges_loop]. unfold bind at 1. unfold call, modify.
  unfold bind at 1.
  rewrite upload_range_stuck; trivial.
  - simpl. congruence.
  - now left.
Qed.

(** ** UploadRanges, then Use *)

(** After [UploadRanges] has returned on a batch that is not empty, be it
    true or false, the usage is [kTransferDestination] and the written
    range the span of the batch: a [Use] with another usage records one
    barrier over the whole buffer, from the transfer stage and
    transfer-write access to the masks of that usage; a [Use] with
    [kTransferDestination] records a barrier over exactly the span, and
    none if the span, clipped, is empty. *)
Theorem UploadRanges_then_Use fuel r rs st b st1 usage written_range :
  UploadRanges cfg fuel (r :: rs) st = Ok (b, st1) ->
  Use_precondition cfg usage written_range ->
  exists st2,
    Use cfg usage written_range st1 = Ok (tt, st2) /\
    (usage <> kTransferDestination ->
     calls st2 = calls st1 ++
       [CmdVkPipelineBarrier VK_PIPELINE_STAGE_TRANSFER_BIT (fst (GetBarrier cfg usage))
          (VkBufferMemoryBarrier.mk
             VK_ACCESS_TRANSFER_WRITE_BIT (snd (GetBarrier cfg usage))
             VK_QUEUE_FAMILY_IGNORED VK_QUEUE_FAMILY_IGNORED (buffer_ st)
             0 VK_WHOLE_SIZE)]) /\
    (usage = kTransferDestination ->
     snd (clip cfg (upload_span cfg (r :: rs))) <> 0 ->
     calls st2 = calls st1 ++
       [CmdVkPipelineBarrier VK_PIPELINE_STAGE_TRANSFER_BIT VK_PIPELINE_STAGE_TRANSFER_BIT
          (VkBufferMemoryBarrier.mk
             VK_ACCESS_TRANSFER_WRITE_BIT VK_ACCESS_TRANSFER_WRITE_BIT
             VK_QUEUE_FAMILY_IGNORED VK_QUEUE_FAMILY_IGNORED (buffer_ st)
             (fst (clip cfg (upload_span cfg (r :: rs))))
             (snd (clip cfg (upload_span cfg (r :: rs)))))]) /\
    (usage = kTransferDestination ->
     snd (clip cfg (upload_span cfg (r :: rs))) = 0 ->
     calls st2 = calls st1).
Proof.
  intros H Hpre.
  apply UploadRanges_run in H as (st0 & new & flush & HUse & _ & Hs & _).
  destruct (Use_state _ _ _ _ (Use_transfer_precondition _) HUse) as [Hu Hw].
  destruct (Use_frame _ _ _ _ HUse) as (Hb & _).
  destruct Hs as (Hb1 & _ & _ & Hu1 & Hw1 & _).
  rewrite (Use_runs _ _ _ Hpre). eexists. split; [reflexivity |].
  unfold Use_barrier. rewrite Hu1, Hw1, Hb1, Hu, Hw, Hb.
  destruct (Z.eqb_spec (snd (clip cfg (upload_span cfg (r :: rs)))) 0) as [Hz | Hnz];
    destruct usage; splits; intros; try contradiction; try congruence; reflexivity.
Qed.

(** ** Initialize and Shutdown: what is acquired is released *)

Ltac holds_nothing :=
  let H := fresh in
  intros H; simpl in H; exfalso; apply H; reflexivity.

Ltac accounts_failed :=
  splits;
  [ log_norm; rewrite ?app_nil_r, <- ?app_assoc; reflexivity
  | holds_nothing
  | intros Hnull;
    first [ solve [exfalso; eqb_hyps; congruence]
          | log_norm; try rewrite Hnull; simpl; reflexivity ] ].

Lemma Initialize_accounts st :
  exists b st' new,
    Initialize cfg st = Ok (b, st') /\
    calls st' = calls st ++ new /\
    freed_memory new ++ buffer_memory_ st' =
      buffer_memory_ st ++ allocated_handles new /\
    (upload_buffer_pool_ st' <> None ->
     buffer_ st' <> VK_NULL_HANDLE /\ buffer_memory_ st' <> []) /\
    (buffer_ st = VK_NULL_HANDLE ->
     destroyed_buffers new ++
     (if buffer_ st' =? VK_NULL_HANDLE then [] else [buffer_ st']) =
     created_handles new).
Proof.
  unfold Initialize, InitializeWithFlags.
  istep. rewrite bind_create. result_at st 0%nat.
  destruct (next_results st 0 =? VK_SUCCESS) eqn:E1; go.
  - match goal with
    | |- context [vk_requirements (device ?S)] =>
        change (vk_requirements (device S)) with (vk_requirements (device st))
    end.
    fold (device_local_type cfg st).
    destruct (device_local_type cfg st) as [memory_type |] eqn:Eb; go.
    + rewrite bind_allocate. result_at st 1%nat.
      destruct (next_results st 1 =? VK_SUCCESS) eqn:E2; go.
      * result_at st 2%nat.
        destruct (next_results st 2 =? VK_SUCCESS) eqn:E3; go.
        -- finish_run. splits.
           ++ log_norm. reflexivity.
           ++ intros _. simpl. split; [discriminate |].
              intros H. apply app_eq_nil in H as [_ H]. discriminate H.
           ++ intros _. log_norm. reflexivity.
        -- finish_run. accounts_failed.
      * finish_run. accounts_failed.
    + finish_run. accounts_failed.
  - destruct (buffer_ st =? VK_NULL_HANDLE) eqn:Eb0; finish_run; accounts_failed.
Qed.

(** When the device creates the buffer, has a device-local memory type for
    it, allocates and binds, [Initialize] returns true after exactly these
    calls: it creates the buffer with flags 0, asks its memory
    requirements, allocates the size they give from the lowest device-local
    type they allow, and binds that memory to the buffer at offset 0.  The
    buffer and the allocation are kept (the allocation is appended to
    [buffer_memory_]), the staging pool is made with pages of
    [kDefaultPageSize] aligned up to the page size, and the usage state is
    left as it was. *)
Theorem Initialize_success st memory_type :
  next_results st 0 = VK_SUCCESS ->
  device_local_type cfg st = Some memory_type ->
  next_results st 1 = VK_SUCCESS ->
  next_results st 2 = VK_SUCCESS ->
  exists st' buffer memory,
    Initialize cfg st = Ok (true, st') /\
    buffer <> VK_NULL_HANDLE /\ memory <> VK_NULL_HANDLE /\
    calls st' = calls st ++
      [InitializeCommon;
       vkCreateBuffer (buffer_create_info cfg 0) VK_SUCCESS buffer;
       vkGetBufferMemoryRequirements buffer;
       vkAllocateMemory (VkMemoryRequirements.size (vk_requirements (device st)))
         memory_type VK_SUCCESS memory;
       vkBindBufferMemory buffer memory 0 VK_SUCCESS] /\
    buffer_ st' = buffer /\
    buffer_memory_ st' = buffer_memory_ st ++ [memory] /\
    buffer_memory_type_ st' = memory_type /\
    upload_buffer_pool_ st' =
      Some (pool_new (align (kDefaultPageSize cfg)
                        (wrap64 (Z.shiftl 1 (page_size_log2 cfg))))) /\
    last_usage_ st' = last_usage_ st /\
    last_written_range_ st' = last_written_range_ st /\
    upload_regions_ st' = upload_regions_ st.
Proof.
  intros H1 Hb H2 H3.
  assert (E1 : (next_results st 0 =? VK_SUCCESS) = true) by now apply Z.eqb_eq.
  assert (E2 : (next_results st 1 =? VK_SUCCESS) = true) by now apply Z.eqb_eq.
  assert (E3 : (next_results st 2 =? VK_SUCCESS) = true) by now apply Z.eqb_eq.
  unfold device_local_type in Hb.
  unfold Initialize, InitializeWithFlags.
  istep. rewrite bind_create. result_at st 0%nat. go.
  match goal with
  | |- context [vk_requirements (device ?S)] =>
      change (vk_requirements (device S)) with (vk_requirements (device st))
  end.
  go.
  rewrite bind_allocate. result_at st 1%nat. go.
  result_at st 2%nat. go.
  unfold ret. eexists _, _, _. split; [reflexivity |].
  simpl. rewrite H1, H2, H3, <- !app_assoc. simpl.
  splits; try reflexivity; discriminate.
Qed.

(** ** The life of the object: nothing leaks, nothing is released twice *)

Lemma upload_calls_no_device l :
  Forall (fun c => upload_call c = true) l ->
  allocated_handles l = [] /\ freed_memory l = [] /\
  created_handles l = [] /\ destroyed_buffers l = [].
Proof.
  induction 1 as [| c l Hc _ IH]; [repeat split |].
  destruct IH as (H1 & H2 & H3 & H4).
  unfold allocated_handles, freed_memory, created_handles, destroyed_buffers in *.
  destruct c; try discriminate Hc; cbn [flat_map app]; auto.
Qed.

Lemma barrier_no_device (barrier : list Call) :
  barrier = [] \/ (exists src dst bb, barrier = [CmdVkPipelineBarrier src dst bb]) ->
  allocated_handles barrier = [] /\ freed_memory barrier = [] /\
  created_handles barrier = [] /\ destroyed_buffers barrier = [].
Proof. intros [-> | (src & dst & bb & ->)]; repeat split. Qed.

Lemma Shutdown_calls_acquire from_destructor st :
  allocated_handles (Shutdown_calls from_destructor st) = [] /\
  created_handles (Shutdown_calls from_destructor st) = [].
Proof.
  unfold Shutdown_calls, allocated_handles, created_handles.
  split; rewrite flat_map_app, flat_map_free by reflexivity;
    destruct (buffer_ st =? VK_NULL_HANDLE), from_destructor; reflexivity.
Qed.

(** What a call does to the handles: those it released, then those the
    object holds after it, are those the object held before it, then those
    the call acquired. *)
Lemma method_call_handles st st' :
  method_call cfg st st' ->
  exists new,
    calls st' = calls st ++ new /\
    freed_memory new ++ buffer_memory_ st' =
      buffer_memory_ st ++ allocated_handles new /\
    ((forall b, Initialize cfg st = Ok (b, st') -> buffer_ st = VK_NULL_HANDLE) ->
     destroyed_buffers new ++ held_buffer st' = held_buffer st ++ created_handles new) /\
    (pool_has_buffer st -> pool_has_buffer st').
Proof.
  intros Hcall.
  destruct Hcall as [st b st' H | fd st st' H | usage wr st st' H
                     | fuel ranges st b st' H | st st' H | st st' H].
  - destruct (Initialize_accounts st) as (b0 & st0 & new & Hrun & Hc & Hm & Hp & Hb).
    rewrite H in Hrun. injection Hrun as <- <-.
    exists new. splits; trivial.
    intros Hnull. specialize (Hnull b H). unfold held_buffer.
    rewrite (Hb Hnull), Hnull. reflexivity.
  - rewrite Shutdown_eq in H. injection H as <-.
    destruct (Shutdown_calls_released fd st) as [Hd Hf].
    destruct (Shutdown_calls_acquire fd st) as [Ha Hcr].
    exists (Shutdown_calls fd st). simpl. splits; trivial.
    + now rewrite Hf, Ha.
    + intros _. unfold held_buffer. simpl. now rewrite Hd, Hcr.
    + intros _ Hp. now elim Hp.
  - destruct (Use_frame _ _ _ _ H) as (Hb & _ & Hm & Hp & _ & _ & _ & Hcalls).
    assert (Hbar : exists barrier,
               calls st' = calls st ++ barrier /\
               (barrier = [] \/
                exists src dst bb, barrier = [CmdVkPipelineBarrier src dst bb])).
    { destruct Hcalls as [-> | (src & dst & bb & ->)].
      - exists []. rewrite app_nil_r. split; [reflexivity | now left].
      - eexists. split; [reflexivity |]. right. eauto. }
    destruct Hbar as (barrier & Hc & Hshape).
    destruct (barrier_no_device _ Hshape) as (H1 & H2 & H3 & H4).
    exists barrier. unfold held_buffer, pool_has_buffer.
    rewrite H1, H2, H3, H4, Hb, Hm, Hp, !app_nil_r. splits; trivial.
  - apply UploadRanges_log in H
      as (barrier & rest & Hc & Hshape & (Hup & _) & Hpool & Hb & Hm & _).
    destruct (barrier_no_device _ Hshape) as (H1 & H2 & H3 & H4).
    destruct (upload_calls_no_device _ Hup) as (H5 & H6 & H7 & H8).
    exists (barrier ++ rest). unfold held_buffer, pool_has_buffer.
    unfold allocated_handles, freed_memory, created_handles, destroyed_buffers in *.
    rewrite !flat_map_app, H1, H2, H3, H4, H5, H6, H7, H8, Hb, Hm, !app_nil_r.
    splits; trivial.
    intros Hinv Hp. apply Hinv. intros Hn. apply Hp. now apply Hpool.
  - unfold CompletedSubmissionUpdated in H.
    destruct (upload_buffer_pool_ st) eqn:Hp; [| discriminate]. injection H as <-.
    exists []. unfold held_buffer, pool_has_buffer. simpl.
    rewrite !app_nil_r, Hp. splits; trivial.
    intros Hinv _. apply Hinv. discriminate.
  - unfold EndSubmission in H.
    destruct (upload_buffer_pool_ st) eqn:Hp; [| discriminate]. injection H as <-.
    exists []. unfold held_buffer, pool_has_buffer. simpl.
    rewrite !app_nil_r, Hp. splits; trivial.
    intros Hinv _. apply Hinv. discriminate.
Qed.

Lemma method_call_memory st st' :
  method_call cfg st st' -> memory_accounted st -> memory_accounted st'.
Proof.
  intros Hcall Hinv.
  destruct (method_call_handles _ _ Hcall) as (new & Hc & Hm & _).
  unfold memory_accounted, allocated_handles, freed_memory in *.
  rewrite Hc, !flat_map_app, Hinv, <- !app_assoc. f_equal. symmetry. exact Hm.
Qed.

(** Through any sequence of calls of the public methods, from an object
    that has allocated nothing, every device memory allocation the object
    made is either still in [buffer_memory_] or was freed, once, and in the
    order of the allocations; nothing else is ever freed.  After a
    [Shutdown], and so after the destructor, the memory freed is exactly
    the memory allocated. *)
Theorem device_memory_accounted st0 st :
  calls st0 = [] -> buffer_memory_ st0 = [] -> method_calls cfg st0 st ->
  allocated_handles (calls st) = freed_memory (calls st) ++ buffer_memory_ st /\
  (forall from_destructor st',
      Shutdown from_destructor st = Ok (tt, st') ->
      allocated_handles (calls st') = freed_memory (calls st')).
Proof.
  intros Hc0 Hm0 Hcalls.
  assert (Hinv : memory_accounted st).
  { induction Hcalls as [st | st1 st2 st3 _ IH Hcall].
    - unfold memory_accounted. now rewrite Hc0, Hm0.
    - exact (method_call_memory _ _ Hcall (IH Hc0 Hm0)). }
  split; [exact Hinv |].
  intros fd st' H.
  pose proof (method_call_memory _ _ (call_Shutdown cfg fd st st' H) Hinv) as Hinv'.
  unfold memory_accounted in Hinv'. rewrite Hinv'.
  rewrite Shutdown_eq in H. injection H as <-. simpl. now rewrite app_nil_r.
Qed.

(** Through any sequence of calls in which [Initialize] is only called on
    an object that holds no buffer, every buffer the object created is
    either the one it holds or was destroyed, once, and nothing else is
    ever destroyed.  After a [Shutdown] the buffers destroyed are exactly
    the buffers created. *)
Theorem device_buffers_accounted st0 st :
  calls st0 = [] -> buffer_ st0 = VK_NULL_HANDLE -> orderly_calls cfg st0 st ->
  created_handles (calls st) = destroyed_buffers (calls st) ++ held_buffer st /\
  (forall from_destructor st',
      Shutdown from_destructor st = Ok (tt, st') ->
      created_handles (calls st') = destroyed_buffers (calls st')).
Proof.
  intros Hc0 Hb0 Hcalls.
  assert (Hstep : forall s s',
             method_call cfg s s' ->
             (forall b, Initialize cfg s = Ok (b, s') -> buffer_ s = VK_NULL_HANDLE) ->
             buffers_accounted s -> buffers_accounted s').
  { intros s s' Hcall Hnull Hinv.
    destruct (method_call_handles _ _ Hcall) as (new & Hc & _ & Hb & _).
    specialize (Hb Hnull).
    unfold buffers_accounted, created_handles, destroyed_buffers in *.
    rewrite Hc, !flat_map_app, Hinv, <- !app_assoc. f_equal. symmetry. exact Hb. }
  assert (Hinv : buffers_accounted st).
  { induction Hcalls as [st | st1 st2 st3 _ IH Hcall Hnull].
    - unfold buffers_accounted, held_buffer. now rewrite Hc0, Hb0.
    - exact (Hstep _ _ Hcall Hnull (IH Hc0 Hb0)). }
  split; [exact Hinv |].
  intros fd st' H.
  assert (Hinv' : buffers_accounted st').
  { apply (Hstep st st' (call_Shutdown cfg fd st st' H)); [| exact Hinv].
    intros b Hi. exfalso.
    destruct (Initialize_accounts st) as (b0 & s0 & new & Hrun & Hc & _).
    rewrite Hi in Hrun. injection Hrun as <- <-.
    rewrite Shutdown_eq in H. injection H as H. rewrite <- H in Hc. simpl in Hc.
    apply app_inv_head in Hc.
    destruct (Initialize_result st) as (b1 & s1 & new1 & Hrun1 & Hc1 & Hcr & _).
    rewrite Hi in Hrun1. injection Hrun1 as <- <-.
    rewrite <- H in Hc1. simpl in Hc1. apply app_inv_head in Hc1. subst new1.
    destruct (Shutdown_calls_acquire fd st) as [_ Hno].
    unfold created_buffers in Hcr. unfold created_handles in Hno.
    unfold Shutdown_calls in Hcr.
    rewrite flat_map_app, flat_map_free in Hcr by reflexivity.
    destruct (buffer_ st =? VK_NULL_HANDLE), fd; discriminate Hcr. }
  unfold buffers_accounted in Hinv'. rewrite Hinv'.
  rewrite Shutdown_eq in H. injection H as <-. unfold held_buffer. simpl.
  now rewrite app_nil_r.
Qed.

(** ** Copy commands name live buffers *)

Lemma ranges_empty_or_not (ranges : list (Z * Z)) :
  Forall (fun r => snd r = 0) ranges \/ Exists (fun r => snd r <> 0) ranges.
Proof.
  induction ranges as [| r rest IH]; [left; constructor |].
  destruct (Z.eq_dec (snd r) 0) as [Hz | Hnz]; [| right; now left].
  destruct IH as [Hall | Hex]; [left; now constructor | right; now right].
Qed.

Lemma notes_no_copies (l : list (Z * Z)) :
  copy_commands
    (map (fun r => WriteMemoryRead (fst (notified cfg r)) (snd (notified cfg r))) l) = [].
Proof. unfold copy_commands. induction l as [| x l IH]; [reflexivity | exact IH]. Qed.

Lemma UploadRanges_no_pool_copies fuel ranges st b st' :
  upload_buffer_pool_ st = None ->
  UploadRanges cfg fuel ranges st = Ok (b, st') ->
  forall new, calls st' = calls st ++ new -> copy_commands new = [].
Proof.
  intros Hp H new Hnew.
  destruct ranges as [| r rs].
  { injection H as <- <-. rewrite <- (app_nil_r (calls st)) in Hnew at 1.
    apply app_inv_head in Hnew. now subst new. }
  rewrite UploadRanges_unfold in H.
  destruct (Use cfg kTransferDestination _ st) as [[[] st1] | | |] eqn:HUse;
    try discriminate H.
  destruct (Use_frame _ _ _ _ HUse) as (_ & _ & _ & Hp1 & _).
  destruct (Use_calls _ _ _ _ HUse) as (barrier & Hc1 & Hcc & _).
  assert (Hp2 : upload_buffer_pool_ (set_upload_regions_ [] st1) = None)
    by (simpl; congruence).
  destruct fuel as [| fuel].
  { destruct r as [start len]. discriminate H. }
  destruct (upload_ranges_loop_no_pool (r :: rs) fuel (submission_current st1)
              VK_NULL_HANDLE _ Hp2) as [Hex Hall].
  destruct (ranges_empty_or_not (r :: rs)) as [Hzero | Hsome].
  - rewrite (Hall Hzero) in H.
    cbn [upload_regions_ set_calls set_upload_regions_] in H.
    injection H as <- <-.
    cbn [calls set_calls set_upload_regions_] in Hnew.
    rewrite Hc1, <- app_assoc in Hnew. apply app_inv_head in Hnew. subst new.
    rewrite copy_commands_app, Hcc. simpl. apply notes_no_copies.
  - rewrite (Hex Hsome) in H. discriminate H.
Qed.

Lemma chunks_live l : Forall (fun c => fst c <> VK_NULL_HANDLE) (chunks l).
Proof.
  unfold chunks. induction l as [| c l IH]; [constructor |].
  destruct c; cbn [flat_map app]; trivial. constructor; [discriminate | exact IH].
Qed.

Lemma group_runs_live cs :
  Forall (fun c => fst c <> VK_NULL_HANDLE) cs ->
  Forall (fun g => fst g <> VK_NULL_HANDLE) (group_runs cs).
Proof.
  induction 1 as [| [b r] rest Hb _ IH]; [constructor |]. simpl in *.
  destruct (group_runs rest) as [| [b' rs] gs].
  - constructor; [exact Hb | constructor].
  - destruct (b =? b').
    + constructor; [exact Hb | now inversion IH].
    + constructor; [exact Hb | exact IH].
Qed.

Lemma method_calls_pool_has_buffer st0 st :
  method_calls cfg st0 st -> pool_has_buffer st0 -> pool_has_buffer st.
Proof.
  induction 1 as [| st1 st2 st3 _ IH Hcall]; [trivial |].
  intros H0. destruct (method_call_handles _ _ Hcall) as (new & _ & _ & _ & Hp).
  exact (Hp (IH H0)).
Qed.

(** From the construction on, whenever the object has its staging pool it
    holds a buffer with memory behind it; and every copy command that
    [UploadRanges] records copies regions, at least one, from a staging
    buffer that is not the null handle into [buffer_], which is not the
    null handle either. *)
Theorem copies_name_live_buffers st0 st fuel ranges b st' :
  upload_buffer_pool_ st0 = None -> method_calls cfg st0 st ->
  UploadRanges cfg fuel ranges st = Ok (b, st') ->
  (upload_buffer_pool_ st <> None ->
   buffer_ st <> VK_NULL_HANDLE /\ buffer_memory_ st <> []) /\
  exists new,
    calls st' = calls st ++ new /\
    Forall (fun c => fst (fst c) <> VK_NULL_HANDLE /\
                     snd (fst c) = buffer_ st /\
                     snd (fst c) <> VK_NULL_HANDLE /\
                     snd c <> [])
           (copy_commands new).
Proof.
  intros Hp0 Hcalls H.
  assert (Hinv : pool_has_buffer st).
  { apply (method_calls_pool_has_buffer _ _ Hcalls). intros Hp. now elim Hp. }
  split; [exact Hinv |].
  destruct ranges as [| r rs].
  { injection H as <- <-. exists []. rewrite app_nil_r. split; constructor. }
  pose proof H as Hrun.
  apply UploadRanges_run in Hrun
    as (st1 & new & flush & HUse & Hc & _ & _ & _ & _ & _ & _ & Hruns & Hdst).
  destruct (Use_calls _ _ _ _ HUse) as (barrier & Hc1 & Hcc & _).
  exists (barrier ++ new ++ flush).
  assert (Hnew : calls st' = calls st ++ barrier ++ new ++ flush)
    by now rewrite Hc, Hc1, <- app_assoc.
  split; [exact Hnew |].
  rewrite copy_commands_app, Hcc. simpl.
  destruct (upload_buffer_pool_ st) as [pool |] eqn:Hp.
  - assert (Hbuf : buffer_ st <> VK_NULL_HANDLE)
      by (apply Hinv; rewrite Hp; discriminate).
    pose proof (group_runs_live _ (chunks_live (new ++ flush))) as Hlive.
    pose proof (group_runs_nonempty (chunks (new ++ flush))) as Hne.
    rewrite <- Hruns in Hlive, Hne. unfold issued_runs in Hlive, Hne.
    rewrite Forall_map in Hlive, Hne. simpl in Hlive, Hne.
    rewrite Forall_forall in *. intros c Hin.
    specialize (Hlive c Hin). specialize (Hne c Hin). specialize (Hdst c Hin).
    split; [exact Hlive | split; [exact Hdst | split; [| exact Hne]]].
    exact (fun Hnull => Hbuf (eq_trans (eq_sym Hdst) Hnull)).
  - pose proof (UploadRanges_no_pool_copies _ _ _ _ _ Hp H _ Hnew) as Hnone.
    rewrite copy_commands_app, Hcc in Hnone. simpl in Hnone. rewrite Hnone.
    constructor.
Qed.

(** ** Shutdown and the destructor: the order of the releases *)

(** [Shutdown] returns in every state.  It destroys the buffer, if there
    is one, before it frees the memory behind it; it frees the allocations
    in the order of [buffer_memory_]; and it calls [ShutdownCommon] last,
    unless it is called from the destructor.  The destructor makes the
    same releases and never calls [ShutdownCommon].  Neither touches the
    memory type, the pending regions or the device, nor creates or
    allocates anything. *)
Theorem Shutdown_order from_destructor st :
  (exists st',
     Shutdown from_destructor st = Ok (tt, st') /\
     calls st' = calls st ++
       (if buffer_ st =? VK_NULL_HANDLE then [] else [vkDestroyBuffer (buffer_ st)]) ++
       map vkFreeMemory (buffer_memory_ st) ++
       (if from_destructor then [] else [ShutdownCommon]) /\
     buffer_memory_type_ st' = buffer_memory_type_ st /\
     upload_regions_ st' = upload_regions_ st /\ device st' = device st) /\
  (exists st',
     destructor st = Ok (tt, st') /\
     calls st' = calls st ++
       (if buffer_ st =? VK_NULL_HANDLE then [] else [vkDestroyBuffer (buffer_ st)]) ++
       map vkFreeMemory (buffer_memory_ st) /\
     buffer_ st' = VK_NULL_HANDLE /\ buffer_memory_ st' = [] /\
     upload_buffer_pool_ st' = None).
Proof.
  split.
  - exists (shut_down from_destructor st). split; [apply Shutdown_eq |].
    simpl. splits; reflexivity.
  - exists (shut_down true st). split; [apply Shutdown_eq |].
    simpl. unfold Shutdown_calls. rewrite app_nil_r. splits; reflexivity.
Qed.

(** ** UploadRanges: a failed call has copied a prefix of the batch *)




End Proofs.

(** * The theorems at work on concrete runs *)

Lemma PagedPool_grants_within : @pool_grants_within PagedPool PagedPool_ops.
Proof.
  intros pool pool' submission size alignment a Hal Hreq.
  cbn [RequestPartial PagedPool_ops] in Hreq. unfold PagedPool_request in Hreq.
  destruct ((0 <? alignment) &&
            (alignment <=? Z.min size (pp_page_size pool - pp_used pool)
                           / alignment * alignment)) eqn:Hhere.
  - inversion Hreq; subst; clear Hreq. cbn [upload_buffer_size].
    apply andb_prop in Hhere as [H0 H1].
    apply Z.ltb_lt in H0. apply Z.leb_le in H1. split; [exact H1 |].
    pose proof (Z.mul_div_le (Z.min size (pp_page_size pool - pp_used pool))
                  alignment H0). lia.
  - destruct (pp_buffers_left pool) as [| n]; [discriminate Hreq |].
    destruct ((0 <? alignment) &&
              (alignment <=? Z.min size (pp_page_size pool) / alignment * alignment))
      eqn:Hfresh; [| discriminate Hreq].
    inversion Hreq; subst; clear Hreq. cbn [upload_buffer_size].
    apply andb_prop in Hfresh as [H0 H1].
    apply Z.ltb_lt in H0. apply Z.leb_le in H1. split; [exact H1 |].
    pose proof (Z.mul_div_le (Z.min size (pp_page_size pool)) alignment H0). lia.
Qed.

Lemma example_cfg_ok asserts : Config_ok (example_cfg asserts).
Proof. unfold Config_ok. simpl. lia. Qed.

Lemma exhausting_ranges_ok : upload_ranges_ok (example_cfg true) [(0, 5)].
Proof.
  split; [simpl; lia |]. repeat constructor. simpl. lia.
Qed.

Lemma two_ranges_ok : upload_ranges_ok (example_cfg true) [(0, 4); (10, 2)].
Proof.
  split; [simpl; lia |]. repeat constructor; simpl; lia.
Qed.

(** C1 at a device with tessellation: the stage mask of [kRead] holds the
    tessellation-evaluation bit. *)
Lemma GetBarrier_table_witness :
  Z.testbit (fst (GetBarrier (example_cfg true) kRead)) 5 = true.
Proof.
  exact (proj2 (proj2 (proj2 (proj2 (GetBarrier_table (example_cfg true)))))
           kRead (or_introl eq_refl)).
Defined.

(** C2 on a read after an upload of 4096 bytes: one barrier. *)
Lemma Use_barrier_iff_witness :
  exists st',
    Use (example_cfg true) kRead (0, 0)
      (ready (paged 4096 2) kTransferDestination (0, 4096)) = Ok (tt, st') /\
    length (barriers (calls st')) = 1%nat.
Proof.
  destruct (Use_barrier_iff (example_cfg true)
              (ready (paged 4096 2) kTransferDestination (0, 4096)) kRead (0, 0))
    as (st' & emitted & HUse & Hc & Hdue & _).
  - intros _ _. reflexivity.
  - exists st'. split; [exact HUse |].
    destruct Hdue as (src & dst & b & ->); [left; discriminate |].
    rewrite Hc. reflexivity.
Defined.

(** C3 on the same call: the usage changes, the barrier covers the whole
    buffer. *)
Lemma Use_barrier_range_witness :
  exists st',
    Use (example_cfg true) kRead (0, 0)
      (ready (paged 4096 2) kTransferDestination (0, 4096)) = Ok (tt, st') /\
    last_usage_ st' = kRead /\ last_written_range_ st' = (0, 0) /\
    map (fun b => (VkBufferMemoryBarrier.offset (snd b), VkBufferMemoryBarrier.size (snd b)))
        (barriers (calls st')) = [(0, VK_WHOLE_SIZE)].
Proof.
  destruct (Use_barrier_range (example_cfg true)
              (ready (paged 4096 2) kTransferDestination (0, 4096)) kRead (0, 0))
    as (st' & HUse & Hw & Hu & _ & Hdiff).
  - intros _ _. reflexivity.
  - exists st'. splits; trivial.
    rewrite Hdiff by discriminate. reflexivity.
Defined.

(** C4 with 4096-byte pages, after a read, through a pool with 2 MB
    staging buffers, which grants both requests of the call in full. *)
Lemma UploadRanges_single_Use_witness :
  exists st',
    UploadRanges (example_cfg true) 8 [(0, 4); (10, 2)]
      (ready (paged (2 ^ 21) 4) kRead (0, 0)) = Ok (true, st') /\
    last_written_range_ st' = (0, 49152) /\
    copy_destinations (calls st') = [(0, 16384); (40960, 8192)] /\
    map (fun b => (VkBufferMemoryBarrier.offset (snd b), VkBufferMemoryBarrier.size (snd b)))
        (barriers (calls st')) = [(0, VK_WHOLE_SIZE)].
Proof.
  destruct (UploadRanges_single_Use (example_cfg true) 8 (0, 4) [(10, 2)]
              (ready (paged (2 ^ 21) 4) kRead (0, 0)))
    as (Hret & Hsingle & _ & Hexample).
  destruct Hret as (b & st' & H).
  - apply example_cfg_ok.
  - exact PagedPool_grants_within.
  - exact two_ranges_ok.
  - repeat constructor.
  - discriminate.
  - pose proof H as H'. vm_compute in H'. injection H' as Hb Hst.
    subst b.
    destruct (Hexample eq_refl ltac:(simpl; lia) true st' H) as (new & Hc & Hw & Hd).
    destruct (Hsingle true st' H) as (st1 & rest & _ & Hc1 & Hbar & _ & _ & Hchange & _).
    exists st'. split; [exact H |]. split; [exact Hw |]. split.
    + assert (Hnew : new = calls st') by (symmetry; exact Hc).
      subst new. apply Hd. rewrite <- Hst. unfold granted_in_full.
      repeat (constructor; [first [exact I | eexists; split; reflexivity] |]).
      constructor.
    + rewrite Hc1, barriers_app, Hbar, (Hchange ltac:(discriminate)). reflexivity.
Defined.

(** C4 does not hold as it is stated: uploading [(0,4); (10,2)] after a
    read records one barrier, and it covers the whole buffer, not the bytes
    [0, 49152); uploading them into the object as constructed records no
    barrier at all. *)
Lemma UploadRanges_barrier_counterexample :
  (exists st' src dst b,
     UploadRanges (example_cfg true) 8 [(0, 4); (10, 2)]
       (ready {| fp_next := 0 |} kRead (0, 0)) = Ok (true, st') /\
     barriers (calls st') = [(src, dst, b)] /\
     VkBufferMemoryBarrier.offset b = 0 /\
     VkBufferMemoryBarrier.size b = VK_WHOLE_SIZE /\
     VkBufferMemoryBarrier.size b <> 49152) /\
  (exists st',
     UploadRanges (example_cfg true) 8 [(0, 4); (10, 2)]
       (ready {| fp_next := 0 |} kTransferDestination (0, 0)) = Ok (true, st') /\
     barriers (calls st') = []).
Proof.
  split.
  - eexists _, _, _, _. split; [vm_compute; reflexivity |].
    split; [vm_compute; reflexivity |]. simpl. splits; [reflexivity | reflexivity |].
    vm_compute. discriminate.
  - eexists. split; [vm_compute; reflexivity |]. vm_compute. reflexivity.
Qed.

(** C5 on five pages through two one-page staging buffers. *)
Lemma UploadRanges_coalesces_witness :
  exists b st' new,
    UploadRanges (example_cfg true) 8 [(0, 5)] exhausting = Ok (b, st') /\
    calls st' = new /\
    copy_commands new =
      map (fun g => (fst g, buffer_ exhausting, snd g)) (group_runs (chunks new)) /\
    length (copy_commands new) = 2%nat.
Proof.
  destruct (UploadRanges_coalesces (example_cfg true) 8 [(0, 5)] exhausting)
    as [Hret Hrun].
  destruct Hret as (b & st' & H).
  - apply example_cfg_ok.
  - exact PagedPool_grants_within.
  - exact exhausting_ranges_ok.
  - repeat constructor.
  - discriminate.
  - destruct (Hrun b st' H) as (new & Hc & Hcopy & _).
    exists b, st', new. splits; trivial.
    pose proof H as H'. vm_compute in H'. inversion H' as [[Hb Hst]].
    simpl in Hc. rewrite <- Hc, <- Hst. reflexivity.
Defined.

(** C6 on the same batch: the third request fails, the call returns
    false and the two chunks staged are copied. *)
Lemma UploadRanges_allocation_failure_witness :
  exists st' new,
    UploadRanges (example_cfg true) 8 [(0, 5)] exhausting = Ok (false, st') /\
    calls st' = new /\
    In None (requests new) /\
    concat (map snd (copy_commands new)) = map snd (chunks new) /\
    length (chunks new) = 2%nat.
Proof.
  destruct (UploadRanges_allocation_failure (example_cfg true) 8 [(0, 5)] exhausting)
    as [Hret Hrun].
  destruct Hret as (b & st' & H).
  - apply example_cfg_ok.
  - exact PagedPool_grants_within.
  - exact exhausting_ranges_ok.
  - repeat constructor.
  - discriminate.
  - destruct (Hrun b st' H) as (new & Hc & Hiff & _ & Hcopies).
    pose proof H as H'. vm_compute in H'. inversion H' as [[Hb Hst]].
    exists st', new. splits; trivial.
    + now rewrite Hb.
    + apply Hiff. now symmetry.
    + simpl in Hc. rewrite <- Hc, <- Hst. reflexivity.
Defined.



(** C10 on the batch whose third chunk fails, uploaded into an object
    whose list holds a region left behind, and on an empty batch uploaded
    after it: the two chunks staged are copied, the region left behind is
    not, and the list is empty after both calls. *)
Lemma UploadRanges_regions_empty_witness :
  exists b st' st'' new,
    UploadRanges (example_cfg true) 8 [(0, 5)] stale = Ok (b, st') /\
    upload_regions_ st' = [] /\
    calls st' = new /\
    concat (map snd (copy_commands new)) = map snd (chunks new) /\
    length (chunks new) = 2%nat /\
    UploadRanges (example_cfg true) 8 [] st' = Ok (true, st'') /\
    upload_regions_ st'' = [].
Proof.
  destruct (UploadRanges_regions_empty (example_cfg true) 8 [(0, 5)] stale)
    as (Hret & Hrun & _).
  destruct Hret as (b & st' & H).
  - apply example_cfg_ok.
  - exact PagedPool_grants_within.
  - exact exhausting_ranges_ok.
  - repeat constructor.
  - discriminate.
  - destruct (Hrun b st' H) as (Hempty & new & Hc & Hflush & _).
    assert (He : upload_regions_ st' = []) by (apply Hempty; right; discriminate).
    exists b, st', st', new. split; [exact H |]. split; [exact He |].
    split; [exact Hc |]. split; [exact Hflush |]. split.
    + assert (Hnew : new = calls st') by (symmetry; exact Hc).
      pose proof H as H'. vm_compute in H'. injection H' as _ Hst.
      rewrite Hnew, <- Hst. reflexivity.
    + split; [reflexivity |].
      destruct (UploadRanges_regions_empty (example_cfg true) 8 [] st')
        as (_ & _ & Hlife).
      apply (Hlife st' true st'); [exact He | apply calls_none | reflexivity].
Defined.

(** C7 does not hold as it is stated: when the first creation fails and a
    second would succeed, [Initialize] makes no second attempt and returns
    false. *)
Lemma Initialize_retry_counterexample :
  exists st',
    Initialize (example_cfg true) (@constructed PagedPool [-2; 0]) = Ok (false, st') /\
    map snd (created_buffers (calls st')) = [-2].
Proof. eexists. split; vm_compute; reflexivity. Qed.

(** The retry that the code provides for: with a sparse flag set, a failed
    creation is repeated once without it. *)
Example InitializeWithFlags_retries :
  exists st',
    InitializeWithFlags (example_cfg true) VK_BUFFER_CREATE_SPARSE_BINDING_BIT
      (@constructed PagedPool [-2; 0]) = Ok (true, st') /\
    map (fun c => (VkBufferCreateInfo.flags (fst c), snd c)) (created_buffers (calls st'))
    = [(1, -2); (0, 0)].
Proof. eexists. split; vm_compute; reflexivity. Qed.

(** C7, as amended, on a binding that fails. *)
Lemma Initialize_failure_witness :
  exists st',
    Initialize (example_cfg true) (@constructed PagedPool [0; 0; -3]) = Ok (false, st') /\
    buffer_ st' = VK_NULL_HANDLE /\ buffer_memory_ st' = [] /\
    freed_memory (calls st') = [2].
Proof.
  destruct (Initialize_failure (example_cfg true) (@constructed PagedPool [0; 0; -3]))
    as (b & st' & new & Hrun & Hc & _ & Hiff & Hfalse).
  assert (Hb : b = false).
  { apply Hiff. right. right. right. vm_compute. discriminate. }
  subst b. destruct (Hfalse eq_refl) as (_ & _ & Hbuf & Hmem & _).
  exists st'. splits; trivial.
  pose proof Hrun as H'. vm_compute in H'. inversion H' as [Hst].
  reflexivity.
Defined.

(** C9 on the object a failed [Initialize] leaves. *)
Lemma Shutdown_idempotent_witness :
  exists st st1 st2,
    Initialize (example_cfg true) (@constructed PagedPool [0; 0; -3]) = Ok (false, st) /\
    Shutdown false st = Ok (tt, st1) /\ Shutdown true st1 = Ok (tt, st2) /\
    freed_memory (calls st2) = freed_memory (calls st) /\
    buffer_ st1 = VK_NULL_HANDLE /\ buffer_ st2 = VK_NULL_HANDLE.
Proof.
  destruct (Initialize (example_cfg true) (@constructed PagedPool [0; 0; -3]))
    as [[[|] st] | | |] eqn:Hinit; try (vm_compute in Hinit; discriminate Hinit).
  destruct (Shutdown_idempotent (example_cfg true) false true st)
    as (st1 & st2 & new1 & new2 & H1 & H2 & Hc1 & Hc2 & _ & _ & _ & Hf2 & Hstate
        & Hafter & _).
  exists st, st1, st2. splits; trivial.
  - destruct (Hafter _ Hinit) as [_ Hf1].
    rewrite Hc2, Hc1. unfold freed_memory in *. rewrite !flat_map_app.
    rewrite Hf1, Hf2. now rewrite !app_nil_r.
  - apply (Hstate st1). now left.
  - apply (Hstate st2). now right.
Defined.

(** * The further theorems at work on concrete runs *)

Lemma PagedPool_grants_aligned : @pool_grants_aligned PagedPool PagedPool_ops.
Proof.
  intros pool pool' submission size alignment a Hreq.
  cbn [RequestPartial PagedPool_ops] in Hreq. unfold PagedPool_request in Hreq.
  destruct ((0 <? alignment) &&
            (alignment <=? Z.min size (pp_page_size pool - pp_used pool)
                           / alignment * alignment)).
  - inversion Hreq; subst; clear Hreq. cbn [upload_buffer_size].
    apply Z.divide_factor_r.
  - destruct (pp_buffers_left pool) as [| n]; [discriminate Hreq |].
    destruct ((0 <? alignment) &&
              (alignment <=? Z.min size (pp_page_size pool) / alignment * alignment));
      [| discriminate Hreq].
    inversion Hreq; subst; clear Hreq. cbn [upload_buffer_size].
    apply Z.divide_factor_r.
Qed.

Lemma TinyPool_grants_less : @pool_grants_less_than 4096 TinyPool TinyPool_ops.
Proof.
  intros pool submission size alignment. eexists _, _.
  split; [reflexivity |]. simpl. lia.
Qed.

(** A range that runs over the end of the 512 MB buffer is cut at the end. *)
Lemma Use_clips_witness :
  exists st',
    Use (example_cfg true) kTransferDestination (2 ^ 29 - 4096, 8192)
      (ready (paged 4096 2) kRead (0, 0)) = Ok (tt, st') /\
    fst (last_written_range_ st') + snd (last_written_range_ st') <= 2 ^ 29.
Proof.
  destruct (Use (example_cfg true) kTransferDestination (2 ^ 29 - 4096, 8192)
              (ready (paged 4096 2) kRead (0, 0)))
    as [[[] st'] | | |] eqn:H; try (vm_compute in H; discriminate H).
  exists st'. split; [reflexivity |].
  destruct (Use_clips (example_cfg true) (ready (paged 4096 2) kRead (0, 0))
              kTransferDestination (2 ^ 29 - 4096, 8192) st')
    as (_ & _ & Hin & _); [simpl; lia | simpl; lia | simpl; lia | exact H |].
  exact Hin.
Defined.

(** A read that reports a write of 4096 bytes fails the assertion. *)
Lemma Use_assertion_witness :
  Use (example_cfg true) kRead (0, 4096) (ready (paged 4096 2) kRead (0, 0))
  = AssertionFailed.
Proof.
  apply (proj1 (Use_assertion (example_cfg true)
                  (ready (paged 4096 2) kRead (0, 0)) kRead (0, 4096))).
  split; [reflexivity |]. split; [reflexivity |]. vm_compute. lia.
Defined.

(** Two guest draws in a row, the first writing 4096 bytes. *)
Lemma Use_then_Use_witness :
  exists st1 st2 barrier,
    Use (example_cfg true) kGuestDrawReadWrite (0, 4096)
      (ready (paged 4096 2) kRead (0, 0)) = Ok (tt, st1) /\
    Use (example_cfg true) kGuestDrawReadWrite (0, 0) st1 = Ok (tt, st2) /\
    calls st2 = calls st1 ++ [barrier].
Proof.
  evar (st1 : @State PagedPool).
  assert (H1 : Use (example_cfg true) kGuestDrawReadWrite (0, 4096)
                 (ready (paged 4096 2) kRead (0, 0)) = Ok (tt, st1))
    by (subst st1; vm_compute; reflexivity).
  evar (st2 : @State PagedPool).
  assert (H2 : Use (example_cfg true) kGuestDrawReadWrite (0, 0) st1 = Ok (tt, st2))
    by (subst st2; vm_compute; reflexivity).
  destruct (Use_then_Use (example_cfg true) _ _ _ _ _ _ H1 H2) as (_ & Hb & _).
  exists st1, st2. eexists. split; [exact H1 |]. split; [exact H2 |].
  apply Hb. vm_compute. lia.
Defined.

(** The batch whose third chunk fails: the buffer, its memory and the
    device are as before. *)
Lemma UploadRanges_frame_witness :
  exists b st',
    UploadRanges (example_cfg true) 8 [(0, 5)] exhausting = Ok (b, st') /\
    buffer_ st' = buffer_ exhausting /\ buffer_memory_ st' = buffer_memory_ exhausting /\
    device st' = device exhausting.
Proof.
  destruct (UploadRanges (example_cfg true) 8 [(0, 5)] exhausting)
    as [[b st'] | | |] eqn:H; try (vm_compute in H; discriminate H).
  destruct (UploadRanges_frame (example_cfg true) _ _ _ _ _ H)
    as (barrier & rest & _ & _ & _ & _ & Hb & Hm & _ & Hd & _).
  exists b, st'. splits; trivial.
Defined.

(** On the same batch every request carries submission 1 and asks for
    4096-byte alignment. *)
Lemma UploadRanges_requests_witness :
  exists b st' new,
    UploadRanges (example_cfg true) 8 [(0, 5)] exhausting = Ok (b, st') /\
    calls st' = calls exhausting ++ new /\
    Forall (fun q => fst (fst q) = 1 /\ snd q = 4096) (request_calls new).
Proof.
  destruct (UploadRanges (example_cfg true) 8 [(0, 5)] exhausting)
    as [[b st'] | | |] eqn:H; try (vm_compute in H; discriminate H).
  destruct (UploadRanges_requests (example_cfg true) _ _ _ _ _ H)
    as (new & Hc & Hrq & _).
  exists b, st', new. splits; trivial.
Defined.

Lemma UploadRanges_validates_witness :
  exists b st' new,
    UploadRanges (example_cfg true) 8 [(0, 5)] exhausting = Ok (b, st') /\
    calls st' = calls exhausting ++ new /\
    validated new =
      map (fun r => (VkBufferCopy.dstOffset r, wrap32 (VkBufferCopy.size r), false))
          (concat (map snd (copy_commands new))).
Proof.
  destruct (UploadRanges (example_cfg true) 8 [(0, 5)] exhausting)
    as [[b st'] | | |] eqn:H; try (vm_compute in H; discriminate H).
  destruct (UploadRanges_validates (example_cfg true) _ _ _ _ _ H) as (new & Hc & Hv).
  exists b, st', new. splits; trivial.
Defined.

Lemma UploadRanges_asserts_hold_witness :
  UploadRanges (example_cfg true) 8 [(0, 5)] exhausting <> AssertionFailed.
Proof. exact (UploadRanges_asserts_hold (example_cfg true) 8 [(0, 5)] exhausting). Defined.

(** Uploading five pages into the object as constructed. *)
Lemma UploadRanges_without_pool_witness :
  UploadRanges (example_cfg true) 8 [(0, 5)] (@constructed PagedPool []) = NullDereference /\
  EndSubmission (@constructed PagedPool []) = NullDereference.
Proof.
  destruct (UploadRanges_without_pool (example_cfg true) 7 [(0, 5)]
              (@constructed PagedPool []) eq_refl) as (_ & He & Hex & _).
  split; [| exact He]. apply Hex. left. simpl. lia.
Defined.

(** Six pages in two ranges through staging buffers of two pages. *)
Lemma UploadRanges_tiles_witness :
  exists st' new parts,
    UploadRanges (example_cfg true) 8 [(0, 4); (10, 2)]
      (ready (paged 8192 4) kRead (0, 0)) = Ok (true, st') /\
    calls st' = new /\
    concat parts = copy_destinations new /\
    Forall2 (fun r part =>
               tiles (fst (range_bytes (example_cfg true) r))
                     (snd (range_bytes (example_cfg true) r)) part)
            [(0, 4); (10, 2)] parts.
Proof.
  destruct (UploadRanges (example_cfg true) 8 [(0, 4); (10, 2)]
              (ready (paged 8192 4) kRead (0, 0)))
    as [[[|] st'] | | |] eqn:H; try (vm_compute in H; discriminate H).
  destruct (UploadRanges_tiles (example_cfg true) _ _ _ _
              (example_cfg_ok true) PagedPool_grants_within PagedPool_grants_aligned
              two_ranges_ok H) as (new & parts & Hc & Hparts & Hall).
  exists st', new, parts. splits; trivial.
Defined.


(** A pool that grants 100 bytes at a time never finishes a page. *)
Lemma UploadRanges_needs_whole_pages_witness :
  UploadRanges (example_cfg true) 1000 [(0, 1)]
    (ready {| tp_requests := 0 |} kRead (0, 0)) = OutOfFuel.
Proof.
  apply (UploadRanges_needs_whole_pages (example_cfg true) 1000 0 1 []
           (ready {| tp_requests := 0 |} kRead (0, 0))).
  - apply example_cfg_ok.
  - exact TinyPool_grants_less.
  - lia.
  - discriminate.
Defined.

(** A read after the batch whose third chunk failed. *)
Lemma UploadRanges_then_Use_witness :
  exists b st1 st2 barrier,
    UploadRanges (example_cfg true) 8 [(0, 5)] exhausting = Ok (b, st1) /\
    Use (example_cfg true) kRead (0, 0) st1 = Ok (tt, st2) /\
    calls st2 = calls st1 ++ [barrier].
Proof.
  destruct (UploadRanges (example_cfg true) 8 [(0, 5)] exhausting)
    as [[b st1] | | |] eqn:H; try (vm_compute in H; discriminate H).
  destruct (UploadRanges_then_Use (example_cfg true) _ _ _ _ _ _ kRead (0, 0) H)
    as (st2 & HUse & Hother & _).
  - intros _ _. reflexivity.
  - exists b, st1, st2. eexists. split; [reflexivity |]. split; [exact HUse |].
    apply Hother. discriminate.
Defined.

(** [Initialize] on a device that grants everything. *)
Lemma Initialize_success_witness :
  exists st',
    Initialize (example_cfg true) (@constructed PagedPool []) = Ok (true, st') /\
    buffer_memory_type_ st' = 1 /\
    length (calls st') = 5%nat.
Proof.
  destruct (Initialize_success (example_cfg true) (@constructed PagedPool []) 1)
    as (st' & buffer & memory & Hrun & _ & _ & Hc & _ & _ & Ht & _);
    try reflexivity.
  exists st'. splits; trivial. rewrite Hc. reflexivity.
Defined.

(** [Initialize], an upload, and the destructor. *)
Lemma device_memory_accounted_witness :
  exists st1 st2 st3,
    Initialize (example_cfg true) (@constructed PagedPool []) = Ok (true, st1) /\
    UploadRanges (example_cfg true) 8 [(0, 5)] st1 = Ok (true, st2) /\
    destructor st2 = Ok (tt, st3) /\
    allocated_handles (calls st2) = freed_memory (calls st2) ++ buffer_memory_ st2 /\
    allocated_handles (calls st3) = freed_memory (calls st3).
Proof.
  evar (st1 : @State PagedPool).
  assert (H1 : Initialize (example_cfg true) (@constructed PagedPool []) = Ok (true, st1))
    by (subst st1; vm_compute; reflexivity).
  evar (st2 : @State PagedPool).
  assert (H2 : UploadRanges (example_cfg true) 8 [(0, 5)] st1 = Ok (true, st2))
    by (subst st2; vm_compute; reflexivity).
  evar (st3 : @State PagedPool).
  assert (H3 : destructor st2 = Ok (tt, st3))
    by (subst st3; vm_compute; reflexivity).
  destruct (device_memory_accounted (example_cfg true) (@constructed PagedPool []) st2
              eq_refl eq_refl) as [Hinv Hafter].
  - eapply calls_then; [eapply calls_then; [apply calls_none |] |].
    + exact (call_Initialize _ _ _ _ H1).
    + exact (call_UploadRanges _ _ _ _ _ _ H2).
  - exists st1, st2, st3. splits; trivial; exact (Hafter true st3 H3).
Defined.

Lemma device_buffers_accounted_witness :
  exists st1 st2,
    Initialize (example_cfg true) (@constructed PagedPool []) = Ok (true, st1) /\
    Shutdown false st1 = Ok (tt, st2) /\
    created_handles (calls st1) = destroyed_buffers (calls st1) ++ held_buffer st1 /\
    created_handles (calls st2) = destroyed_buffers (calls st2).
Proof.
  evar (st1 : @State PagedPool).
  assert (H1 : Initialize (example_cfg true) (@constructed PagedPool []) = Ok (true, st1))
    by (subst st1; vm_compute; reflexivity).
  evar (st2 : @State PagedPool).
  assert (H2 : Shutdown false st1 = Ok (tt, st2))
    by (subst st2; vm_compute; reflexivity).
  destruct (device_buffers_accounted (example_cfg true) (@constructed PagedPool []) st1
              eq_refl eq_refl) as [Hinv Hafter].
  - eapply orderly_then; [apply orderly_none | exact (call_Initialize _ _ _ _ H1) |].
    intros _ _. reflexivity.
  - exists st1, st2. splits; trivial; exact (Hafter false st2 H2).
Defined.

Lemma copies_name_live_buffers_witness :
  exists st1 st2 new,
    Initialize (example_cfg true) (@constructed PagedPool []) = Ok (true, st1) /\
    UploadRanges (example_cfg true) 8 [(0, 5)] st1 = Ok (true, st2) /\
    calls st2 = calls st1 ++ new /\
    copy_commands new <> [] /\
    Forall (fun c => fst (fst c) <> VK_NULL_HANDLE /\ snd (fst c) <> VK_NULL_HANDLE)
           (copy_commands new).
Proof.
  evar (st1 : @State PagedPool).
  assert (H1 : Initialize (example_cfg true) (@constructed PagedPool []) = Ok (true, st1))
    by (subst st1; vm_compute; reflexivity).
  evar (st2 : @State PagedPool).
  assert (H2 : UploadRanges (example_cfg true) 8 [(0, 5)] st1 = Ok (true, st2))
    by (subst st2; vm_compute; reflexivity).
  destruct (copies_name_live_buffers (example_cfg true) (@constructed PagedPool []) st1
              8 [(0, 5)] true st2 eq_refl) as (_ & new & Hc & Hall).
  - eapply calls_then; [apply calls_none | exact (call_Initialize _ _ _ _ H1)].
  - exact H2.
  - exists st1, st2, new. splits; trivial.
    + assert (Hnew : new = skipn (length (calls st1)) (calls st2)).
      { rewrite Hc, skipn_app, skipn_all, Nat.sub_diag. reflexivity. }
      rewrite Hnew. vm_compute. discriminate.
    + eapply Forall_impl; [| exact Hall]. intros c (Ha & _ & Hb & _). now split.
Defined.

(** The destructor of an initialized object. *)
Lemma Shutdown_order_witness :
  exists st',
    destructor (ready (paged 4096 2) kRead (0, 0)) = Ok (tt, st') /\
    calls st' = [vkDestroyBuffer 101; vkFreeMemory 102].
Proof.
  destruct (Shutdown_order true (ready (paged 4096 2) kRead (0, 0)))
    as (_ & st' & Hrun & Hc & _).
  exists st'. split; [exact Hrun | exact Hc].
Defined.
